(** * CHERRY v11 self-modification core: a shallow embedding

    The development follows the JavaScript sources:
    - [ModificationDetector.js]  (intent rules, identifier derivation),
    - [SchemaMigration.js]       (schema evolution engine and its log),
    - [ComponentGenerator.js]    (generation and its acceptance check),
    - [ComponentManager.js]      (registry document, files, backups),
    - [server.js]                (the modification processor).

    Conventions.  A JavaScript string is a sequence of code units; the
    model keeps the code units 0..255 (ASCII and the Latin-1 range) and
    uses [string] for them.  Files, the SQLite handle, the clock and the
    text-generation client are fields of an explicit [World] that every
    operation threads; a thrown exception is the [Throw] outcome. *)

From Stdlib Require Import List String Ascii Arith Bool Lia PeanoNat.
From Stdlib Require DecimalString.
Import ListNotations.

Set Implicit Arguments.

(* ================================================================== *)
(** ** Code units and the string methods the sources call *)

Module Js.

Definition code (c : ascii) : nat := nat_of_ascii c.

Definition between (lo hi : nat) (c : ascii) : bool :=
  (lo <=? code c) && (code c <=? hi).

Definition is_upper (c : ascii) : bool := between 65 90 c.
Definition is_lower (c : ascii) : bool := between 97 122 c.
Definition is_digit (c : ascii) : bool := between 48 57 c.

(** [String.prototype.toLowerCase] on one code unit: A-Z, and the
    Latin-1 capitals U+00C0..U+00DE except the multiplication sign. *)
Definition lower_char (c : ascii) : ascii :=
  if is_upper c || (between 192 222 c && negb (code c =? 215))
  then ascii_of_nat (code c + 32) else c.

(** [toUpperCase] on one code unit, for the ASCII letters.  The sources
    apply it to the first letter of an alphanumeric word and to a type
    name that is then looked up among ASCII words; the canonical form
    of a unit under the [i] flag is compared with ASCII units only. *)
Definition upper_char (c : ascii) : ascii :=
  if is_lower c then ascii_of_nat (code c - 32) else c.

(** White space and line terminators ([\s], [trim]) in the range kept. *)
Definition is_line_terminator (c : ascii) : bool :=
  (code c =? 10) || (code c =? 13).

Definition is_space (c : ascii) : bool :=
  between 9 13 c || (code c =? 32) || (code c =? 160).

Definition chars : string -> list ascii := list_ascii_of_string.
Definition text : list ascii -> string := string_of_list_ascii.

Definition toLowerCase (s : string) : string :=
  text (map lower_char (chars s)).

Fixpoint drop_while (p : ascii -> bool) (l : list ascii) : list ascii :=
  match l with
  | [] => []
  | c :: l' => if p c then drop_while p l' else l
  end.

Definition trim_chars (l : list ascii) : list ascii :=
  rev (drop_while is_space (rev (drop_while is_space l))).

Definition trim (s : string) : string := text (trim_chars (chars s)).

Definition startsWith (s p : string) : bool := String.prefix p s.

Fixpoint includes (s sub : string) : bool :=
  if String.prefix sub s then true
  else match s with
       | EmptyString => false
       | String _ s' => includes s' sub
       end.

(** [s.substring(0, n)] *)
Definition substring0 (n : nat) (s : string) : string :=
  text (firstn n (chars s)).

Definition charAt0 (s : string) : string :=
  match s with
  | EmptyString => EmptyString
  | String c _ => String c EmptyString
  end.

Definition slice1 (s : string) : string :=
  match s with
  | EmptyString => EmptyString
  | String _ s' => s'
  end.

Definition mapString (f : ascii -> ascii) (s : string) : string :=
  text (map f (chars s)).

Definition toUpperCase (s : string) : string := mapString upper_char s.

(** [Array.prototype.includes] on strings. *)
Definition arr_includes (l : list string) (s : string) : bool :=
  existsb (String.eqb s) l.

(** Decimal rendering of a number inside a template literal. *)
Definition show_nat (n : nat) : string :=
  DecimalString.NilEmpty.string_of_uint (Nat.to_uint n).

End Js.

(* ================================================================== *)
(** ** Regular expressions: a backtracking matcher

    The matcher enumerates, in the priority order of a backtracking
    engine (left alternative first, greedy repetition longest first,
    lazy repetition shortest first), every way a pattern can match at
    the current position.  The engine's answer is the head of the list. *)

Module Regex.

Record flags : Type := { ignoreCase : bool; multiline : bool }.

Inductive node : Type :=
| Empty
| Char (c : ascii)
| Dot
| Class (neg : bool) (member : ascii -> bool)
| Bol
| Eol
| Seq (a b : node)
| Alt (a b : node)
| Star (greedy : bool) (a : node)
| Group (i : nat) (a : node).

(** Matcher state: the code unit before the position, the input from
    the position on, and the captures made so far. *)
Record st : Type := { prev : option ascii; rest : list ascii;
                      caps : list (nat * list ascii) }.

Definition canon (fl : flags) (c : ascii) : ascii :=
  if ignoreCase fl then Js.upper_char c else c.

Definition char_ok (fl : flags) (c x : ascii) : bool :=
  Ascii.eqb (canon fl c) (canon fl x).

(** A class under [/i] accepts a code unit when it holds a member with
    the same canonical form; for the ASCII classes of the sources that
    member is the unit itself or its other letter case. *)
Definition class_ok (fl : flags) (neg : bool) (member : ascii -> bool)
  (x : ascii) : bool :=
  let hit := if ignoreCase fl
             then member x || member (Js.lower_char x) || member (Js.upper_char x)
             else member x in
  if neg then negb hit else hit.

Definition step1 (p : ascii -> bool) (s : st) : list st :=
  match rest s with
  | x :: xs => if p x then [ {| prev := Some x; rest := xs; caps := caps s |} ]
               else []
  | [] => []
  end.

Definition at_bol (fl : flags) (s : st) : bool :=
  match prev s with
  | None => true
  | Some c => multiline fl && Js.is_line_terminator c
  end.

Definition at_eol (fl : flags) (s : st) : bool :=
  match rest s with
  | [] => true
  | c :: _ => multiline fl && Js.is_line_terminator c
  end.

Definition consumed (s s' : st) : list ascii :=
  firstn (List.length (rest s) - List.length (rest s')) (rest s).

Definition set_cap (i : nat) (s s' : st) : st :=
  {| prev := prev s'; rest := rest s';
     caps := (i, consumed s s') :: caps s' |}.

(** Iterations of a starred body: an iteration that consumes nothing is
    dropped, so at most one iteration per remaining code unit. *)
Fixpoint star_iter (body : st -> list st) (greedy : bool) (n : nat)
  (s0 : st) : list st :=
  match n with
  | O => [s0]
  | S n' =>
      let more :=
        flat_map (fun s' =>
                    if List.length (rest s') <? List.length (rest s0)
                    then star_iter body greedy n' s' else [])
                 (body s0) in
      if greedy then more ++ [s0] else s0 :: more
  end.

Fixpoint run (fl : flags) (r : node) (s : st) : list st :=
  match r with
  | Empty => [s]
  | Char c => step1 (char_ok fl c) s
  | Dot => step1 (fun x => negb (Js.is_line_terminator x)) s
  | Class neg member => step1 (class_ok fl neg member) s
  | Bol => if at_bol fl s then [s] else []
  | Eol => if at_eol fl s then [s] else []
  | Seq a b => flat_map (run fl b) (run fl a s)
  | Alt a b => run fl a s ++ run fl b s
  | Star greedy a => star_iter (run fl a) greedy (List.length (rest s)) s
  | Group i a => map (set_cap i s) (run fl a s)
  end.

Definition start (p : option ascii) (l : list ascii) : st :=
  {| prev := p; rest := l; caps := [] |}.

(** The first match at exactly this position, if any. *)
Definition match_here (fl : flags) (r : node) (p : option ascii)
  (l : list ascii) : option st :=
  hd_error (run fl r (start p l)).

(** Leftmost match: positions are tried from left to right. *)
Fixpoint search (fl : flags) (r : node) (p : option ascii)
  (l : list ascii) : option st :=
  match match_here fl r p l with
  | Some m => Some m
  | None => match l with
            | [] => None
            | c :: l' => search fl r (Some c) l'
            end
  end.

(** [RegExp.prototype.test] and the captures of [String.prototype.match]. *)
Definition test (fl : flags) (r : node) (s : string) : bool :=
  match search fl r None (Js.chars s) with Some _ => true | None => false end.

Definition capture (i : nat) (m : st) : string :=
  match find (fun kv => fst kv =? i) (caps m) with
  | Some kv => Js.text (snd kv)
  | None => EmptyString
  end.

Definition exec (fl : flags) (r : node) (s : string) : option st :=
  search fl r None (Js.chars s).

(** [s.replace(/r/g, rep)] for a replacement text without [$] patterns.
    [skip] counts the code units of the current match still to drop;
    after an empty match the scan moves on by one unit. *)
Fixpoint replace_from (fl : flags) (r : node) (rep : list ascii)
  (p : option ascii) (l : list ascii) (skip : nat) : list ascii :=
  match l with
  | [] => match skip, match_here fl r p [] with
          | O, Some _ => rep
          | _, _ => []
          end
  | c :: l' =>
      match skip with
      | S k => replace_from fl r rep (Some c) l' k
      | O =>
          match match_here fl r p l with
          | Some m =>
              match List.length l - List.length (rest m) with
              | O => rep ++ c :: replace_from fl r rep (Some c) l' 0
              | S k => rep ++ replace_from fl r rep (Some c) l' k
              end
          | None => c :: replace_from fl r rep (Some c) l' 0
          end
      end
  end.

Definition replaceAll (fl : flags) (r : node) (rep : string) (s : string)
  : string :=
  Js.text (replace_from fl r (Js.chars rep) None (Js.chars s) 0).

(** [s.replace(/r/, f)] without the [g] flag: the leftmost match only,
    rewritten by [f]. *)
Fixpoint replace_first (fl : flags) (r : node)
  (f : list ascii -> list ascii) (p : option ascii) (l : list ascii)
  : list ascii :=
  match match_here fl r p l with
  | Some m => f (consumed (start p l) m) ++ rest m
  | None => match l with
            | [] => []
            | c :: l' => c :: replace_first fl r f (Some c) l'
            end
  end.

(** [s.split(/r/)] for a pattern that never matches the empty string. *)
Fixpoint split_from (fl : flags) (r : node) (p : option ascii)
  (l : list ascii) (skip : nat) (cur : list ascii) : list (list ascii) :=
  match l with
  | [] => [rev cur]
  | c :: l' =>
      match skip with
      | S k => split_from fl r (Some c) l' k cur
      | O =>
          match match_here fl r p l with
          | Some m =>
              match List.length l - List.length (rest m) with
              | O => split_from fl r (Some c) l' 0 (c :: cur)
              | S k => rev cur :: split_from fl r (Some c) l' k []
              end
          | None => split_from fl r (Some c) l' 0 (c :: cur)
          end
      end
  end.

Definition split (fl : flags) (r : node) (s : string) : list string :=
  map Js.text (split_from fl r None (Js.chars s) 0 []).

(** Pattern combinators. *)
Fixpoint lit_chars (l : list ascii) : node :=
  match l with
  | [] => Empty
  | [c] => Char c
  | c :: l' => Seq (Char c) (lit_chars l')
  end.

Definition lit (s : string) : node := lit_chars (Js.chars s).
Definition plus (a : node) : node := Seq a (Star true a).
Definition plus_lazy (a : node) : node := Seq a (Star false a).
Definition opt (a : node) : node := Alt a Empty.
Definition space : node := Class false Js.is_space.

Fixpoint seqs (l : list node) : node :=
  match l with
  | [] => Empty
  | [a] => a
  | a :: l' => Seq a (seqs l')
  end.

Fixpoint alts (l : list node) : node :=
  match l with
  | [] => Class false (fun _ => false)
  | [a] => a
  | a :: l' => Alt a (alts l')
  end.

End Regex.

(* ================================================================== *)
(** ** ModificationDetector.js *)

Module ModificationDetector.
Import Regex.

Local Open Scope string_scope.

Inductive Action : Type :=
| add_metric | remove_metric | add_chart | modify_layout | undo.

(** The object built by a rule's [extract] and later spread into the
    result; an absent property is [None]. *)
Record Details : Type := {
  metric : option string;
  chart_description : option string;
  element : option string;
  location : option string;
  suggested_template : option string
}.

Definition no_details : Details :=
  {| metric := None; chart_description := None; element := None;
     location := None; suggested_template := None |}.

Record Trigger : Type := {
  pattern : node;
  action : Action;
  extract : st -> Details
}.

Definition extract_metric (m : st) : Details :=
  {| metric := Some (Js.trim (capture 1 m)); chart_description := None;
     element := None; location := None; suggested_template := None |}.

Definition extract_chart (m : st) : Details :=
  {| metric := None; chart_description := Some (Js.trim (capture 1 m));
     element := None; location := None; suggested_template := None |}.

Definition extract_layout (m : st) : Details :=
  {| metric := None; chart_description := None;
     element := Some (Js.trim (capture 1 m));
     location := Some (Js.trim (capture 2 m));
     suggested_template := None |}.

Definition extract_nothing (_ : st) : Details := no_details.

Definition i_flag : flags := {| ignoreCase := true; multiline := false |}.
Definition no_flag : flags := {| ignoreCase := false; multiline := false |}.

Definition sp1 : node := plus space.
Definition any1 : node := plus Dot.
Definition any1_lazy : node := plus_lazy Dot.

(** The rule table, in the order of the source array. *)
Definition triggers : list Trigger :=
  [ (* Add metric/tracker *)
    {| pattern := seqs [lit "add"; sp1; opt (Seq (lit "a") sp1);
                        Group 1 any1_lazy; sp1;
                        alts [lit "tracker"; lit "tracking"]];
       action := add_metric; extract := extract_metric |};
    {| pattern := seqs [lit "track"; sp1; opt (Seq (lit "my") sp1);
                        Group 1 any1];
       action := add_metric; extract := extract_metric |};
    {| pattern := seqs [alts [lit "can you"; lit "could you"]; sp1;
                        lit "track"; sp1; Group 1 any1];
       action := add_metric; extract := extract_metric |};
    (* Remove metric/tracker *)
    {| pattern := seqs [lit "remove"; sp1; opt (Seq (lit "the") sp1);
                        Group 1 any1_lazy; sp1;
                        alts [lit "tracker"; lit "tracking"; lit "metric"]];
       action := remove_metric; extract := extract_metric |};
    {| pattern := seqs [lit "delete"; sp1; opt (Seq (lit "the") sp1);
                        Group 1 any1_lazy; sp1;
                        alts [lit "tracker"; lit "tracking"; lit "metric"]];
       action := remove_metric; extract := extract_metric |};
    {| pattern := seqs [lit "stop tracking"; sp1; Group 1 any1];
       action := remove_metric; extract := extract_metric |};
    {| pattern := seqs [lit "i "; alts [lit "don't"; lit "dont"]; lit " ";
                        alts [lit "use"; lit "need"; lit "track"]; sp1;
                        Group 1 any1];
       action := remove_metric; extract := extract_metric |};
    (* Add chart *)
    {| pattern := seqs [lit "add"; sp1; opt (Seq (lit "a") sp1); lit "chart";
                        sp1; alts [lit "for"; lit "showing"; lit "of"]; sp1;
                        Group 1 any1];
       action := add_chart; extract := extract_chart |};
    {| pattern := seqs [alts [lit "create"; lit "make"; lit "show me"]; sp1;
                        opt (Seq (lit "a") sp1); lit "chart"; sp1;
                        alts [lit "for"; lit "of"; lit "showing"]; sp1;
                        Group 1 any1];
       action := add_chart; extract := extract_chart |};
    (* Modify UI *)
    {| pattern := seqs [lit "move"; sp1; Group 1 any1_lazy; sp1; lit "to";
                        sp1; opt (Seq (lit "the") sp1); Group 2 any1];
       action := modify_layout; extract := extract_layout |};
    (* Undo *)
    {| pattern := seqs [lit "undo"; sp1;
                        alts [lit "that"; lit "the last change";
                              lit "last modification"]];
       action := undo; extract := extract_nothing |};
    {| pattern := alts [lit "rollback"; lit "revert"; lit "go back"];
       action := undo; extract := extract_nothing |} ].

(** The object returned when a rule fires ([detected: true]). *)
Record Detected : Type := {
  d_action : Action;
  componentType : string;
  details : Details;
  rawMessage : string
}.

Definition truthy (s : option string) : bool :=
  match s with
  | Some (String _ _) => true
  | _ => false
  end.

Definition with_template (d : Details) (t : string) : Details :=
  {| metric := metric d; chart_description := chart_description d;
     element := element d; location := location d;
     suggested_template := Some t |}.

(** Body of the loop once a rule matched: component type and template
    suggestion from the metric name. *)
Definition classify (d : Details) : string * Details :=
  if truthy (metric d) then
    let m := Js.toLowerCase (match metric d with Some x => x | None => "" end) in
    if Js.includes m "mood" then ("emoji_select", with_template d "mood_tracker")
    else if Js.includes m "stress" then ("metric_input", with_template d "stress_level")
    else if Js.includes m "focus" || Js.includes m "concentration"
      then ("metric_input", with_template d "focus_score")
    else if Js.includes m "water" then ("metric_input", with_template d "water_intake")
    else ("metric_input", d)
  else ("metric_input", d).

Fixpoint first_trigger (ts : list Trigger) (userMessage : string)
  : option Detected :=
  match ts with
  | [] => None
  | t :: ts' =>
      match exec i_flag (pattern t) userMessage with
      | Some m =>
          let (ct, d) := classify (extract t m) in
          Some {| d_action := action t; componentType := ct; details := d;
                  rawMessage := userMessage |}
      | None => first_trigger ts' userMessage
      end
  end.

(** [detectModificationRequest]; [None] is [{ detected: false }]. *)
Definition detectModificationRequest (userMessage : string) : option Detected :=
  first_trigger triggers userMessage.

Definition alnum (c : ascii) : bool := Js.is_lower c || Js.is_digit c.
Definition underscore : ascii := "_"%char.
Definition is_underscore (c : ascii) : bool := Ascii.eqb c underscore.

(** [/[^a-z0-9]+/] and [/^_+|_+$/] *)
Definition non_alnum_run : node := plus (Class true alnum).
Definition edge_underscores : node :=
  Alt (Seq Bol (plus (Char underscore))) (Seq (plus (Char underscore)) Eol).

Definition metricToFieldName (metricName : string) : string :=
  Js.substring0 50
    (replaceAll no_flag edge_underscores ""
       (replaceAll no_flag non_alnum_run "_" (Js.toLowerCase metricName))).

Definition capitalize (word : string) : string :=
  Js.toUpperCase (Js.charAt0 word) ++ Js.slice1 word.

(** [/^[^A-Z]/] *)
Definition leading_non_capital : node := Seq Bol (Class true Js.is_upper).

Definition metricToComponentName (metricName : string) : string :=
  let joined :=
    String.concat "" (map capitalize
                        (split no_flag non_alnum_run (Js.toLowerCase metricName))) in
  Js.text (replace_first no_flag leading_non_capital (map Js.upper_char)
             None (Js.chars joined)).

Definition inferDataType (metricName : string) : string :=
  let lower := Js.toLowerCase metricName in
  if Js.includes lower "mood" || Js.includes lower "stress" || Js.includes lower "level"
  then "INTEGER"
  else if Js.includes lower "note" || Js.includes lower "comment"
          || Js.includes lower "description"
  then "TEXT"
  else if Js.includes lower "weight" || Js.includes lower "temp"
          || Js.includes lower "rate"
  then "REAL"
  else if Js.includes lower "done" || Js.includes lower "completed"
          || Js.includes lower "check"
  then "BOOLEAN"
  else "INTEGER".

End ModificationDetector.

(* ================================================================== *)
(** ** The world the server runs in

    [cherry.db] is kept as its table layout (the rows play no part in
    the modification code).  [db_online] tells whether the SQLite handle
    answers; a handle that does not answer gives every callback an
    error.  File-system calls on the data directory succeed, except
    that a file that is not there cannot be read or unlinked.
    [clock] is the last instant read and [ticks] the time that passes
    before each further reading, so that every schedule of the clock is
    a world. *)

Local Open Scope string_scope.

Record Column : Type := { col_name : string; col_type : string }.

Definition Tables : Type := list (string * list Column).

Inductive MigrationType : Type := add_field | soft_delete_field.

(** An entry of [migrations.json]. *)
Record Migration : Type := {
  mig_id : string;
  mig_type : MigrationType;
  mig_table : string;
  mig_field : string;
  mig_dataType : option string;
  mig_sql : option string;
  mig_note : option string;
  executed_at : nat
}.

Record MigrationsLog : Type := {
  migrations : list Migration;
  last_migration : option string
}.

(** An entry of [active.json]. *)
Record Component : Type := {
  name : string;
  type : string;
  field : option string;
  description : string;
  path : string;
  location : string;
  active : bool;
  registered_at : nat
}.

Record ActiveComponents : Type := {
  version : string;
  components : list Component;
  last_modified : option nat
}.

(** A directory under [BACKUPS_DIR]. *)
Record Backup : Type := {
  bk_db : Tables;
  bk_components : list (string * string);
  bk_active : ActiveComponents
}.

Record World : Type := {
  db_online : bool;
  db_tables : Tables;
  migrations_json : MigrationsLog;
  active_json : ActiveComponents;
  custom_dir : list (string * string);
  backups_dir : list (string * Backup);
  clock : nat;
  ticks : list nat;
  pushed : list (string * string)
}.

(** Association lists stand for directories and for the table set. *)
Fixpoint lookup {A : Type} (k : string) (l : list (string * A)) : option A :=
  match l with
  | [] => None
  | (k', v) :: l' => if String.eqb k k' then Some v else lookup k l'
  end.

Fixpoint put {A : Type} (k : string) (v : A) (l : list (string * A))
  : list (string * A) :=
  match l with
  | [] => [(k, v)]
  | (k', v') :: l' =>
      if String.eqb k k' then (k, v) :: l' else (k', v') :: put k v l'
  end.

Fixpoint remove_key {A : Type} (k : string) (l : list (string * A))
  : list (string * A) :=
  match l with
  | [] => []
  | (k', v') :: l' =>
      if String.eqb k k' then l' else (k', v') :: remove_key k l'
  end.

(** *** Outcomes and the state-and-exception monad *)

Inductive Outcome (A : Type) : Type :=
| Ret (a : A)
| Throw (message : string).

Arguments Ret {A} a.
Arguments Throw {A} message.

Definition M (A : Type) : Type := World -> Outcome A * World.

Definition ret {A : Type} (a : A) : M A := fun w => (Ret a, w).

Definition throw {A : Type} (message : string) : M A :=
  fun w => (Throw message, w).

Definition bind {A B : Type} (m : M A) (k : A -> M B) : M B :=
  fun w => match m w with
           | (Ret a, w') => k a w'
           | (Throw e, w') => (Throw e, w')
           end.

Definition try_catch {A : Type} (m : M A) (handler : string -> M A) : M A :=
  fun w => match m w with
           | (Ret a, w') => (Ret a, w')
           | (Throw e, w') => handler e w'
           end.

Definition lift {A : Type} (o : Outcome A) : M A := fun w => (o, w).

Definition gets {A : Type} (f : World -> A) : M A := fun w => (Ret (f w), w).

Definition modify (f : World -> World) : M unit := fun w => (Ret tt, f w).

Declare Scope monad_scope.
Delimit Scope monad_scope with monad.
Notation "x <- m ;; k" := (bind m (fun x => k))
  (at level 61, m at next level, right associativity) : monad_scope.
Notation "m ;;; k" := (bind m (fun _ => k))
  (at level 61, right associativity) : monad_scope.
Local Open Scope monad_scope.

Definition set_tables (t : Tables) (w : World) : World :=
  {| db_online := db_online w; db_tables := t;
     migrations_json := migrations_json w; active_json := active_json w;
     custom_dir := custom_dir w; backups_dir := backups_dir w;
     clock := clock w; ticks := ticks w; pushed := pushed w |}.

Definition set_migrations (l : MigrationsLog) (w : World) : World :=
  {| db_online := db_online w; db_tables := db_tables w;
     migrations_json := l; active_json := active_json w;
     custom_dir := custom_dir w; backups_dir := backups_dir w;
     clock := clock w; ticks := ticks w; pushed := pushed w |}.

Definition set_active (a : ActiveComponents) (w : World) : World :=
  {| db_online := db_online w; db_tables := db_tables w;
     migrations_json := migrations_json w; active_json := a;
     custom_dir := custom_dir w; backups_dir := backups_dir w;
     clock := clock w; ticks := ticks w; pushed := pushed w |}.

Definition set_custom (d : list (string * string)) (w : World) : World :=
  {| db_online := db_online w; db_tables := db_tables w;
     migrations_json := migrations_json w; active_json := active_json w;
     custom_dir := d; backups_dir := backups_dir w;
     clock := clock w; ticks := ticks w; pushed := pushed w |}.

Definition set_backups (b : list (string * Backup)) (w : World) : World :=
  {| db_online := db_online w; db_tables := db_tables w;
     migrations_json := migrations_json w; active_json := active_json w;
     custom_dir := custom_dir w; backups_dir := b;
     clock := clock w; ticks := ticks w; pushed := pushed w |}.

Definition set_pushed (p : list (string * string)) (w : World) : World :=
  {| db_online := db_online w; db_tables := db_tables w;
     migrations_json := migrations_json w; active_json := active_json w;
     custom_dir := custom_dir w; backups_dir := backups_dir w;
     clock := clock w; ticks := ticks w; pushed := p |}.

(** [Date.now()] / [new Date()]: the clock moves on by the next tick. *)
Definition now : M nat :=
  fun w =>
    let t := clock w + hd 0 (ticks w) in
    (Ret t,
     {| db_online := db_online w; db_tables := db_tables w;
        migrations_json := migrations_json w; active_json := active_json w;
        custom_dir := custom_dir w; backups_dir := backups_dir w;
        clock := t; ticks := tl (ticks w); pushed := pushed w |}).

Definition dq : string := String "034"%char EmptyString.

(** *** The SQLite handle *)

(** A table is found under the name it was created with; of a
    statement only the names it carries matter.

    [db.all(`PRAGMA table_info(t)`)]: an error when the handle does not
    answer, otherwise the columns (none for a table that is absent). *)
Definition table_info (table : string) : M (option (list Column)) :=
  fun w =>
    (Ret (if db_online w
          then Some (match lookup table (db_tables w) with
                     | Some cols => cols
                     | None => []
                     end)
          else None), w).

(** [db.run(`ALTER TABLE t ADD COLUMN f T`)]: the statement fails when
    the handle does not answer, when the table is absent, and when the
    table has a column of that name (SQLite compares column names
    without regard to letter case); otherwise the column is appended.
    The answer is the error message, if any. *)
Definition run_add_column (table fld dataType : string) : M (option string) :=
  fun w =>
    if db_online w then
      match lookup table (db_tables w) with
      | None => (Ret (Some ("SQLITE_ERROR: no such table: " ++ table)), w)
      | Some cols =>
          if existsb (fun c => String.eqb (Js.toLowerCase (col_name c))
                                          (Js.toLowerCase fld)) cols
          then (Ret (Some ("SQLITE_ERROR: duplicate column name: " ++ fld)), w)
          else (Ret None,
                set_tables
                  (put table (cols ++ [ {| col_name := fld;
                                           col_type := dataType |} ])%list
                       (db_tables w)) w)
      end
    else (Ret (Some "SQLITE_CANTOPEN: unable to open database file"), w).

(* ================================================================== *)
(** ** SchemaMigration.js *)

Module SchemaMigration.
Import Regex.

(** The object handed to [logMigration]: an entry still without its
    [executed_at]. *)
Record MigrationInfo : Type := {
  id : string;
  kind : MigrationType;
  table : string;
  fieldName : string;
  dataType : option string;
  sql : option string;
  note : option string
}.

Definition stamp (m : MigrationInfo) (t : nat) : Migration :=
  {| mig_id := id m; mig_type := kind m; mig_table := table m;
     mig_field := fieldName m; mig_dataType := dataType m;
     mig_sql := sql m; mig_note := note m; executed_at := t |}.

Definition getMigrationsLog : M MigrationsLog := gets migrations_json.

Definition logMigration (migration : MigrationInfo) : M unit :=
  log <- getMigrationsLog ;;
  t <- now ;;
  modify (set_migrations
            {| migrations := (migrations log ++ [stamp migration t])%list;
               last_migration := Some (id migration) |}).

(** SQL reserved words *)
Definition reserved : list string :=
  ["select"; "insert"; "update"; "delete"; "drop"; "table"; "from"; "where"].

Definition letter_or_underscore (c : ascii) : bool :=
  Js.is_lower c || Ascii.eqb c "_"%char.

Definition word_char (c : ascii) : bool :=
  Js.is_lower c || Js.is_digit c || Ascii.eqb c "_"%char.

(** [/^[a-z_][a-z0-9_]*$/] *)
Definition field_name_pattern : node :=
  seqs [Bol; Class false letter_or_underscore;
        Star true (Class false word_char); Eol].

Definition i_flag : flags := {| ignoreCase := true; multiline := false |}.

Definition validateFieldName (fieldName : string) : Outcome bool :=
  if Js.arr_includes reserved (Js.toLowerCase fieldName)
  then Throw (dq ++ fieldName ++ dq ++ " is a reserved SQL keyword")
  else if negb (test i_flag field_name_pattern fieldName)
  then Throw (dq ++ fieldName ++ dq ++ " is not a valid field name")
  else Ret true.

Definition validTypes : list string :=
  ["TEXT"; "INTEGER"; "REAL"; "BOOLEAN"; "DATETIME"].

(** [toUpperCase] is modelled on the ASCII letters; no other code unit
    is mapped into one of the five type names. *)
Definition validateDataType (dataType : string) : Outcome bool :=
  if negb (Js.arr_includes validTypes (Js.toUpperCase dataType))
  then Throw (dq ++ dataType ++ dq ++ " is not a valid data type")
  else Ret true.

Definition fieldExists (table field : string) : M bool :=
  r <- table_info table ;;
  ret (match r with
       | None => false
       | Some columns => existsb (fun col => String.eqb (col_name col) field) columns
       end).

(** What [addField] and [removeField] resolve to:
    [{ success: true, soft_delete?, field, table }],
    [{ success: false, reason }] or [{ success: false, error }]. *)
Inductive FieldResult : Type :=
| Success (soft_delete : option bool) (field table : string)
| Refused (reason : string)
| Failed (error : string).

Definition succeeded (r : FieldResult) : bool :=
  match r with Success _ _ _ => true | _ => false end.

Definition addField (table field dataType : string)
  (defaultValue : option string) : M FieldResult :=
  (* Validate inputs *)
  lift (validateFieldName field) ;;;
  lift (validateDataType dataType) ;;;
  (* Check if field already exists *)
  exists_ <- fieldExists table field ;;
  if exists_ : bool then ret (Refused "already_exists")
  else
    (* Build SQL *)
    let sql := "ALTER TABLE " ++ table ++ " ADD COLUMN " ++ field ++ " "
               ++ dataType
               ++ match defaultValue with
                  | Some d => " DEFAULT " ++ d
                  | None => ""
                  end in
    (* Execute migration *)
    err <- run_add_column table field dataType ;;
    match err with
    | Some message => ret (Failed message)
    | None =>
        (* Log migration *)
        t <- now ;;
        logMigration {| id := "add_" ++ table ++ "_" ++ field ++ "_"
                              ++ Js.show_nat t;
                        kind := add_field; table := table; fieldName := field;
                        dataType := Some dataType; sql := Some sql;
                        note := None |} ;;;
        ret (Success None field table)
    end.

Definition removeField (table field : string) (softDelete : bool)
  : M FieldResult :=
  (* Validate field name *)
  lift (validateFieldName field) ;;;
  (* Check if field exists *)
  exists_ <- fieldExists table field ;;
  if negb exists_ then ret (Refused "not_found")
  else if softDelete then
    (* Soft delete: just mark as removed in log *)
    t <- now ;;
    logMigration {| id := "remove_" ++ table ++ "_" ++ field ++ "_"
                          ++ Js.show_nat t;
                    kind := soft_delete_field; table := table;
                    fieldName := field; dataType := None; sql := None;
                    note := Some "Field hidden from UI but data preserved" |} ;;;
    ret (Success (Some true) field table)
  else
    (* Hard delete: not supported *)
    ret (Refused "hard_delete_not_supported").

Definition is_soft_delete (m : Migration) : bool :=
  match mig_type m with soft_delete_field => true | add_field => false end.

Definition getActiveFields (table : string) : M (list string) :=
  (* Get all fields except soft-deleted ones *)
  log <- getMigrationsLog ;;
  let softDeleted :=
    map mig_field
        (filter (fun m => is_soft_delete m && String.eqb (mig_table m) table)
                (migrations log)) in
  r <- table_info table ;;
  ret (match r with
       | None => []
       | Some columns =>
           filter (fun name => negb (Js.arr_includes softDeleted name))
                  (map col_name columns)
       end).

Definition listMigrations : M (list Migration) :=
  log <- getMigrationsLog ;;
  ret (migrations log).

End SchemaMigration.

(* ================================================================== *)
(** ** ComponentGenerator.js *)

Module ComponentGenerator.
Import Regex.

(** The [options] object of a request is only ever printed into the
    prompt; it is kept by where it comes from. *)
Inductive Options : Type :=
| NoOptions
| TemplateOptions (template : string)
| ChartOptions (chartDescription : string).

(** A template used as a request carries no [name]. *)
Record ComponentRequest : Type := {
  req_type : string;
  req_name : option string;
  req_description : string;
  req_options : Options
}.

(** What [anthropic.messages.create] gives for the prompt built from a
    request: a rejection (network, quota, malformed response) or the
    text of the first content block with the output token count. *)
Inductive ApiReply : Type :=
| ApiFailure (message : string)
| ApiResponse (text : string) (output_tokens : nat).

Definition Anthropic : Type := ComponentRequest -> ApiReply.

Record Metadata : Type := {
  md_name : option string;
  md_type : string;
  md_description : string;
  generated_at : nat;
  tokens_used : nat
}.

(** [{ success: true, code, metadata }] or [{ success: false, error }] *)
Inductive GenResult : Type :=
| Generated (code : string) (metadata : Metadata)
| NotGenerated (error : string).

Definition gm_flag : flags := {| ignoreCase := false; multiline := true |}.

Definition newline : ascii := "010"%char.

(** [/^```(?:jsx?|javascript)?\n?/gm] and [/```$/gm] *)
Definition fence_open : node :=
  seqs [Bol; lit "```";
        opt (alts [Seq (lit "js") (opt (Char "x"%char)); lit "javascript"]);
        opt (Char newline)].

Definition fence_close : node := Seq (lit "```") Eol.

Definition strip_fences (code : string) : string :=
  replaceAll gm_flag fence_close "" (replaceAll gm_flag fence_open "" code).

Definition generateComponent (anthropic : Anthropic)
  (componentRequest : ComponentRequest) : M GenResult :=
  try_catch
    (match anthropic componentRequest with
     | ApiFailure message => throw message
     | ApiResponse text output_tokens =>
         let generatedCode := Js.trim text in
         (* Remove markdown code fences if present *)
         let generatedCode := strip_fences generatedCode in
         (* Validate it starts with export default *)
         if negb (Js.startsWith generatedCode "export default function")
         then throw "Generated code does not start with export default function"
         else
           t <- now ;;
           ret (Generated generatedCode
                  {| md_name := req_name componentRequest;
                     md_type := req_type componentRequest;
                     md_description := req_description componentRequest;
                     generated_at := t;
                     tokens_used := output_tokens |})
     end)
    (fun message => ret (NotGenerated message)).

(** Component templates for common types *)
Definition componentTemplates : list (string * ComponentRequest) :=
  [ ("mood_tracker",
     {| req_type := "emoji_select"; req_name := None;
        req_description := "Mood tracking with 5 emoji options";
        req_options := TemplateOptions "mood_tracker" |});
    ("stress_level",
     {| req_type := "metric_input"; req_name := None;
        req_description := "Stress level tracker (1-10 scale)";
        req_options := TemplateOptions "stress_level" |});
    ("focus_score",
     {| req_type := "metric_input"; req_name := None;
        req_description := "Focus/concentration score (1-10 scale)";
        req_options := TemplateOptions "focus_score" |});
    ("water_intake",
     {| req_type := "metric_input"; req_name := None;
        req_description := "Water intake tracker in ounces";
        req_options := TemplateOptions "water_intake" |}) ].

(** [componentTemplates[templateName] || null], for the four names of
    the table (the properties every object inherits are left out). *)
Definition getTemplate (templateName : string) : option ComponentRequest :=
  lookup templateName componentTemplates.

End ComponentGenerator.

(* ================================================================== *)
(** ** ComponentManager.js *)

Module ComponentManager.

Definition COMPONENTS_DIR : string := "/mnt/user-data/components/custom".
Definition BACKUPS_DIR : string := "/mnt/user-data/backups".

(** The object handed to [registerComponent]. *)
Record ComponentInfo : Type := {
  info_name : string;
  info_type : string;
  info_field : option string;
  info_description : string;
  info_path : string;
  info_location : string;
  info_active : bool
}.

Definition registered (c : ComponentInfo) (t : nat) : Component :=
  {| name := info_name c; type := info_type c; field := info_field c;
     description := info_description c; path := info_path c;
     location := info_location c; active := info_active c;
     registered_at := t |}.

Definition getActiveComponents : M ActiveComponents := gets active_json.

Definition registerComponent (componentInfo : ComponentInfo) : M bool :=
  active <- getActiveComponents ;;
  (* Check if already registered *)
  match find (fun c => String.eqb (name c) (info_name componentInfo))
             (components active) with
  | Some _ => ret false
  | None =>
      t <- now ;;
      t' <- now ;;
      modify (set_active
                {| version := version active;
                   components := (components active
                                  ++ [registered componentInfo t])%list;
                   last_modified := Some t' |}) ;;;
      ret true
  end.

(** [findIndex] then [splice(index, 1)]: the first entry of that name. *)
Fixpoint splice_first (componentName : string) (l : list Component)
  : option (list Component) :=
  match l with
  | [] => None
  | c :: l' =>
      if String.eqb (name c) componentName then Some l'
      else option_map (cons c) (splice_first componentName l')
  end.

Definition unregisterComponent (componentName : string) : M bool :=
  active <- getActiveComponents ;;
  match splice_first componentName (components active) with
  | None => ret false
  | Some rest =>
      t <- now ;;
      modify (set_active {| version := version active; components := rest;
                            last_modified := Some t |}) ;;;
      ret true
  end.

Definition filename (componentName : string) : string := componentName ++ ".jsx".

Definition saveComponent (componentName code : string)
  (metadata : ComponentGenerator.Metadata) : M string :=
  modify (fun w => set_custom (put (filename componentName) code (custom_dir w)) w) ;;;
  ret (COMPONENTS_DIR ++ "/" ++ filename componentName).

Definition loadComponent (componentName : string) : M (option string) :=
  gets (fun w => lookup (filename componentName) (custom_dir w)).

(** [fs.unlink] rejects when the file is not there. *)
Definition unlink (file : string) : M unit :=
  fun w => match lookup file (custom_dir w) with
           | Some _ => (Ret tt, set_custom (remove_key file (custom_dir w)) w)
           | None => (Throw ("ENOENT: no such file or directory, unlink "
                             ++ COMPONENTS_DIR ++ "/" ++ file), w)
           end.

Definition deleteComponent (componentName : string) : M bool :=
  try_catch
    (unlink (filename componentName) ;;;
     unregisterComponent componentName ;;;
     ret true)
    (fun _ => ret false).

Definition listComponents : M (list Component) :=
  active <- getActiveComponents ;;
  ret (components active).

(** Copying a directory file by file overwrites the files of the same
    name and keeps the others. *)
Definition copy_files (src dst : list (string * string)) : list (string * string) :=
  fold_left (fun acc kv => put (fst kv) (snd kv) acc) src dst.

(** The directory of a backup is named after the instant it is made
    (here by its decimal rendering). *)
Definition createBackup : M string :=
  timestamp <- now ;;
  let backupDir := BACKUPS_DIR ++ "/" ++ Js.show_nat timestamp in
  modify (fun w =>
            let previous := match lookup backupDir (backups_dir w) with
                            | Some b => bk_components b
                            | None => []
                            end in
            set_backups
              (put backupDir
                   {| bk_db := db_tables w;
                      bk_components := copy_files (custom_dir w) previous;
                      bk_active := active_json w |}
                   (backups_dir w)) w) ;;;
  ret backupDir.

Definition restoreBackup (backupDir : string) : M bool :=
  fun w => match lookup backupDir (backups_dir w) with
           | Some b =>
               (Ret true,
                set_active (bk_active b)
                  (set_custom (copy_files (bk_components b) (custom_dir w))
                     (set_tables (bk_db b) w)))
           | None => (Ret false, w)
           end.

End ComponentManager.

(* ================================================================== *)
(** ** server.js: the self-modification processor *)

Module Server.
Import ModificationDetector SchemaMigration ComponentGenerator ComponentManager.

(** The summary object a transaction returns. *)
Record ModResult : Type := {
  success : bool;
  message : string;
  reason : option string;
  component : option string;
  res_field : option string;
  backup : option string;
  res_type : option string;
  res_note : option string
}.

Definition failure (message reason : string) : ModResult :=
  {| success := false; message := message; reason := Some reason;
     component := None; res_field := None; backup := None;
     res_type := None; res_note := None |}.

(** [sendPushNotification]: the subscriptions are read from the
    database; without an answer nothing is sent.  It never rejects.
    The check mark that opens the message texts is left out. *)
Definition sendPushNotification (message type : string) : M unit :=
  fun w => (Ret tt,
            if db_online w
            then set_pushed (pushed w ++ [(message, type)])%list w
            else w).

Section Processor.

(** The client of the text-generation service ([const anthropic]). *)
Variable anthropic : Anthropic.

Definition addMetricTracker (metricName componentType : string)
  (templateName : option string) : M ModResult :=
  (* Step 1: Create backup *)
  backupDir <- createBackup ;;
  (* Step 2: Generate field name *)
  let fieldName := metricToFieldName metricName in
  let componentName := metricToComponentName metricName in
  let dataType := inferDataType metricName in
  (* Step 3: Add database field *)
  dbResult <- addField "metrics" fieldName dataType None ;;
  match dbResult with
  | Refused reason =>
      if String.eqb reason "already_exists"
      then ret (failure ("Metric " ++ dq ++ metricName ++ dq ++ " already exists")
                        "already_exists")
      else throw "Database migration failed: undefined"
  | Failed error => throw ("Database migration failed: " ++ error)
  | Success _ _ _ =>
      (* Step 4: Generate component *)
      let template := match templateName with
                      | Some (String _ _ as t) => getTemplate t
                      | _ => None
                      end in
      let componentRequest :=
        match template with
        | Some t => t
        | None => {| req_type := componentType;
                     req_name := Some componentName;
                     req_description := metricName ++ " tracker";
                     req_options := NoOptions |}
        end in
      genResult <- generateComponent anthropic componentRequest ;;
      match genResult with
      | NotGenerated error => throw ("Component generation failed: " ++ error)
      | Generated code metadata =>
          (* Step 5: Save component *)
          componentPath <- saveComponent componentName code metadata ;;
          (* Step 6: Register component *)
          registerComponent {| info_name := componentName;
                               info_type := componentType;
                               info_field := Some fieldName;
                               info_description := metricName;
                               info_path := componentPath;
                               info_location := "dashboard";
                               info_active := true |} ;;;
          (* Step 7: Send notification *)
          sendPushNotification
            ("Added " ++ metricName ++ " tracking! Check Dashboard to use it.")
            "modification" ;;;
          ret {| success := true;
                 message := "Added " ++ metricName ++ " tracker to Dashboard";
                 reason := None; component := Some componentName;
                 res_field := Some fieldName; backup := Some backupDir;
                 res_type := None; res_note := None |}
      end
  end.

Definition field_is (fieldName : string) (c : Component) : bool :=
  match field c with
  | Some f => String.eqb f fieldName
  | None => false
  end.

Definition removeMetricTracker (metricName : string) : M ModResult :=
  (* Step 1: Create backup *)
  backupDir <- createBackup ;;
  (* Step 2: Find component *)
  let fieldName := metricToFieldName metricName in
  components <- listComponents ;;
  match find (field_is fieldName) components with
  | None =>
      ret (failure ("Metric " ++ dq ++ metricName ++ dq ++ " not found")
                   "not_found")
  | Some component =>
      (* Step 3: Soft-delete from database (preserves data) *)
      removeField "metrics" fieldName true ;;;
      (* Step 4: Delete component *)
      deleteComponent (name component) ;;;
      (* Step 5: Send notification *)
      sendPushNotification
        ("Removed " ++ metricName ++ " tracker (data preserved)")
        "modification" ;;;
      ret {| success := true;
             message := "Removed " ++ metricName ++ " tracker from Dashboard";
             reason := None; component := Some (name component);
             res_field := Some fieldName; backup := Some backupDir;
             res_type := None;
             res_note := Some "Data preserved in database" |}
  end.

Definition addChart (chartDescription : string) : M ModResult :=
  (* Create backup *)
  backupDir <- createBackup ;;
  (* Generate chart component *)
  let componentName := metricToComponentName (chartDescription ++ " Chart") in
  let componentRequest :=
    {| req_type := "chart"; req_name := Some componentName;
       req_description := "Chart showing " ++ chartDescription;
       req_options := ChartOptions chartDescription |} in
  genResult <- generateComponent anthropic componentRequest ;;
  match genResult with
  | NotGenerated error => throw ("Chart generation failed: " ++ error)
  | Generated code metadata =>
      (* Save and register *)
      componentPath <- saveComponent componentName code metadata ;;
      registerComponent {| info_name := componentName; info_type := "chart";
                           info_field := None;
                           info_description := chartDescription;
                           info_path := componentPath;
                           info_location := "analytics";
                           info_active := true |} ;;;
      sendPushNotification ("Added chart: " ++ chartDescription)
                           "modification" ;;;
      ret {| success := true;
             message := "Added chart: " ++ chartDescription;
             reason := None; component := Some componentName;
             res_field := None; backup := Some backupDir;
             res_type := None; res_note := None |}
  end.

Definition type_error (property : string) : string :=
  "TypeError: Cannot read properties of undefined (reading '" ++ property ++ "')".

Definition undoLastModification : M ModResult :=
  migrations <- listMigrations ;;
  components <- listComponents ;;
  match migrations, components with
  | [], [] => ret (failure "No modifications to undo" "nothing_to_undo")
  | _, _ =>
      (* Get most recent modification *)
      let lastMigration := last (map Some migrations) None in
      let lastComponent := last (map Some components) None in
      (* Determine which was most recent *)
      let migrationTime := match lastMigration with
                           | Some m => executed_at m
                           | None => 0
                           end in
      let componentTime := match lastComponent with
                           | Some c => registered_at c
                           | None => 0
                           end in
      if Nat.ltb migrationTime componentTime then
        (* Undo component *)
        match lastComponent with
        | None => throw (type_error "name")
        | Some c =>
            deleteComponent (name c) ;;;
            ret {| success := true;
                   message := "Undid addition of " ++ description c;
                   reason := None; component := None; res_field := None;
                   backup := None; res_type := Some "component";
                   res_note := None |}
        end
      else
        (* Undo migration (soft delete the field) *)
        match lastMigration with
        | None => throw (type_error "type")
        | Some m =>
            match mig_type m with
            | add_field =>
                removeField (mig_table m) (mig_field m) true ;;;
                ret {| success := true;
                       message := "Undid addition of " ++ mig_field m ++ " field";
                       reason := None; component := None; res_field := None;
                       backup := None; res_type := Some "migration";
                       res_note := None |}
            | soft_delete_field =>
                ret (failure "Could not undo last modification" "undo_failed")
            end
        end
  end.

(** [processModification].  A request built by the detector carries the
    property its action reads; for a request without it the source
    reads [undefined], which [toLowerCase] rejects after the backup
    was made and which the chart title prints as a word. *)
Definition processModification (modRequest : Detected) : M ModResult :=
  let d := details modRequest in
  match d_action modRequest with
  | add_metric =>
      match metric d with
      | Some m => addMetricTracker m (componentType modRequest)
                                   (suggested_template d)
      | None => createBackup ;;; throw (type_error "toLowerCase")
      end
  | remove_metric =>
      match metric d with
      | Some m => removeMetricTracker m
      | None => createBackup ;;; throw (type_error "toLowerCase")
      end
  | add_chart =>
      addChart (match chart_description d with
                | Some c => c
                | None => "undefined"
                end)
  | undo => undoLastModification
  | modify_layout => throw "Unknown modification action: modify_layout"
  end.

End Processor.

End Server.

(* ================================================================== *)
(** ** Statements of the specification, as predicates on the model *)

Module Claims.
Import ModificationDetector SchemaMigration.

(** Printable text: the code units from the space to the tilde. *)
Definition printable (s : string) : bool :=
  forallb (Js.between 32 126) (Js.chars s).

(** The safe-identifier grammar [[a-z_][a-z0-9_]*], anchored. *)
Definition matches_grammar (s : string) : bool :=
  Regex.test no_flag field_name_pattern s.

(** Identifier safety as the specification words it: grammar, at most
    50 code units, no reserved word. *)
Definition safe_field_id (s : string) : bool :=
  matches_grammar s && Nat.leb (String.length s) 50
  && negb (Js.arr_includes reserved s).

Definition starts_with_digit (s : string) : bool :=
  match s with
  | String c _ => Js.is_digit c
  | EmptyString => false
  end.

Definition is_empty (s : string) : bool :=
  match s with
  | EmptyString => true
  | String _ _ => false
  end.

(** [listActiveFields(table)]: what [getActiveFields] resolves to. *)
Definition listActiveFields (table : string) (w : World) : list string :=
  match fst (getActiveFields table w) with
  | Ret fields => fields
  | Throw _ => []
  end.

(** Soft-delete reversibility as the specification words it: once a
    soft removal succeeded the field is hidden, and adding it again
    brings it back into the view. *)
Definition soft_delete_reversible : Prop :=
  forall (w : World) (table field dataType : string),
    SchemaMigration.succeeded
      (match fst (removeField table field true w) with
       | Ret r => r
       | Throw _ => Refused ""
       end) = true ->
    let w1 := snd (removeField table field true w) in
    let w2 := snd (addField table field dataType None w1) in
    ~ In field (listActiveFields table w1) /\ In field (listActiveFields table w2).

(** The names held by the registry document. *)
Definition component_names (w : World) : list string :=
  map name (components (active_json w)).

(** The operations that write the registry document. *)
Inductive RegistryOp : Type :=
| Register (componentInfo : ComponentManager.ComponentInfo)
| Unregister (componentName : string)
| Delete (componentName : string).

Definition registry_step (op : RegistryOp) : M bool :=
  match op with
  | Register componentInfo => ComponentManager.registerComponent componentInfo
  | Unregister componentName => ComponentManager.unregisterComponent componentName
  | Delete componentName => ComponentManager.deleteComponent componentName
  end.

(** The worlds a registry can be in: it starts as the empty document
    written by [ensureDirectories]; registry operations and the
    transactions of the processor rewrite it, and anything else may
    happen to the rest of the world meanwhile. *)
Inductive registry_reachable : World -> Prop :=
| reach_empty (w : World) :
    components (active_json w) = [] -> registry_reachable w
| reach_step (op : RegistryOp) (w : World) :
    registry_reachable w -> registry_reachable (snd (registry_step op w))
| reach_transaction (anthropic : ComponentGenerator.Anthropic)
    (modRequest : ModificationDetector.Detected) (w : World) :
    registry_reachable w ->
    registry_reachable (snd (Server.processModification anthropic modRequest w))
| reach_elsewhere (w w' : World) :
    registry_reachable w -> active_json w' = active_json w ->
    registry_reachable w'.

(** The acceptance check of [generateComponent], as a test on the
    reply of the service. *)
Definition gate_rejects (reply : ComponentGenerator.ApiReply) : bool :=
  match reply with
  | ComponentGenerator.ApiFailure _ => true
  | ComponentGenerator.ApiResponse text _ =>
      negb (Js.startsWith (ComponentGenerator.strip_fences (Js.trim text))
                          "export default function")
  end.

(** Instants compared by [undoLastModification]. *)
Definition migrationTime (w : World) : nat :=
  match last (map Some (migrations (migrations_json w))) None with
  | Some m => executed_at m
  | None => 0
  end.

Definition componentTime (w : World) : nat :=
  match last (map Some (components (active_json w))) None with
  | Some c => registered_at c
  | None => 0
  end.

(** End-to-end scenario 3 as the specification words it: once
    [addMetric("water")] has created the field and registered the
    component, undo hides the field and unregisters the component. *)
Definition undo_reverses_transaction : Prop :=
  forall (anthropic : ComponentGenerator.Anthropic) (w w1 : World)
         (r : Server.ModResult),
    Server.addMetricTracker anthropic "water" "metric_input"
                            (Some "water_intake") w = (Ret r, w1) ->
    Server.success r = true ->
    ~ In "Water" (component_names w) ->
    let w2 := snd (Server.undoLastModification w1) in
    ~ In "water" (listActiveFields "metrics" w2)
    /\ ~ In "Water" (component_names w2).

(** The validation gate as the specification words it: a body with a
    dynamic-evaluation call is never reported as generated. *)
Definition gate_rejects_evaluation : Prop :=
  forall (anthropic : ComponentGenerator.Anthropic)
         (req : ComponentGenerator.ComponentRequest) (w : World)
         (code : string) (md : ComponentGenerator.Metadata),
    fst (ComponentGenerator.generateComponent anthropic req w)
    = Ret (ComponentGenerator.Generated code md) ->
    Js.includes code "eval(" = false.

(** A computation keeps an invariant of the world, whatever it
    resolves to. *)
Definition preserves {A : Type} (I : World -> Prop) (m : M A) : Prop :=
  forall w, I w -> I (snd (m w)).

(** The registry invariant. *)
Definition names_unique (w : World) : Prop := NoDup (component_names w).

(** [w'] holds a snapshot of the tables and of the registry document
    of [w]. *)
Definition holds_snapshot_of (w w' : World) : Prop :=
  exists dir b,
    lookup dir (backups_dir w') = Some b
    /\ bk_db b = db_tables w /\ bk_active b = active_json w.

(** The backups directory holds exactly [b]. *)
Definition backups_are (b : list (string * Backup)) (w : World) : Prop :=
  backups_dir w = b.

(** The second rule of the table, on its own:
    [/track\s+(?:my\s+)?(.+)/i]. *)
Definition track_rule : Regex.node :=
  Regex.seqs [Regex.lit "track"; sp1; Regex.opt (Regex.Seq (Regex.lit "my") sp1);
              Regex.Group 1 any1].

(** Word characters of the grammar, as a predicate. *)
Definition word (c : ascii) : Prop := word_char c = true.

(** The scan of [metricToFieldName] on code units. *)
Definition field_units (s : string) : list ascii :=
  firstn 50
    (Regex.replace_from no_flag edge_underscores [] None
       (Regex.replace_from no_flag non_alnum_run ["_"%char] None
          (map Js.lower_char (Js.chars s)) 0) 0).

(** [columns.some(col => col.name === field)] *)
Definition has_column (field : string) (cols : list Column) : bool :=
  existsb (fun col => String.eqb (col_name col) field) cols.

(** The [softDeleted] array of [getActiveFields]. *)
Definition soft_deleted (table : string) (log : MigrationsLog) : list string :=
  map mig_field
      (filter (fun m => is_soft_delete m && String.eqb (mig_table m) table)
              (migrations log)).

End Claims.

(* ================================================================== *)
(** ** A concrete installation, for the worked examples *)

Module Scenario.
Import ComponentGenerator.

(** The [metrics] table as [initDatabase] creates it. *)
Definition metrics_columns : list Column :=
  [ {| col_name := "id"; col_type := "INTEGER" |};
    {| col_name := "date"; col_type := "TEXT" |};
    {| col_name := "sleep"; col_type := "INTEGER" |};
    {| col_name := "energy"; col_type := "INTEGER" |};
    {| col_name := "knee_pain"; col_type := "INTEGER" |};
    {| col_name := "seltzers"; col_type := "INTEGER" |};
    {| col_name := "water_oz"; col_type := "INTEGER" |};
    {| col_name := "workout_done"; col_type := "BOOLEAN" |};
    {| col_name := "weight"; col_type := "REAL" |};
    {| col_name := "steps"; col_type := "INTEGER" |};
    {| col_name := "calories_consumed"; col_type := "INTEGER" |};
    {| col_name := "created_at"; col_type := "DATETIME" |} ].

(** A server just started: empty log, empty registry, no backups; the
    clock moves by a few milliseconds between readings. *)
Definition fresh : World :=
  {| db_online := true;
     db_tables := [("metrics", metrics_columns)];
     migrations_json := {| migrations := []; last_migration := None |};
     active_json := {| version := "11.0.0"; components := [];
                       last_modified := None |};
     custom_dir := [];
     backups_dir := [];
     clock := 1000;
     ticks := [3; 1; 2; 40; 1; 1; 5; 1; 1; 2; 1; 1; 3; 1; 1; 1; 1; 1; 1; 1];
     pushed := [] |}.

(** A service that answers with a well-formed component. *)
Definition well_formed : Anthropic :=
  fun _ => ApiResponse
             "export default function Water({ onSave }) { return null; }" 42.

(** A service that answers with prose instead of code. *)
Definition prose : Anthropic :=
  fun _ => ApiResponse "Sorry, I can not write that component." 9.

(** A service whose component evaluates a string at run time. *)
Definition evaluating_code : string :=
  "export default function Water({ onSave }) { return eval('onSave(1)'); }".

Definition evaluating : Anthropic :=
  fun _ => ApiResponse evaluating_code 42.

(** The record [addMetricTracker] registers for the metric "water". *)
Definition water_info : ComponentManager.ComponentInfo :=
  {| ComponentManager.info_name := "Water";
     ComponentManager.info_type := "metric_input";
     ComponentManager.info_field := Some "water";
     ComponentManager.info_description := "water";
     ComponentManager.info_path := "/mnt/user-data/components/custom/Water.jsx";
     ComponentManager.info_location := "dashboard";
     ComponentManager.info_active := true |}.

End Scenario.

(* ================================================================== *)
(** ** Histories: what a run of the processor does to the stores *)

Module Evolution.
Import ModificationDetector SchemaMigration.

(** Every table keeps the columns it has, in their order; columns are
    only ever appended. *)
Definition tables_extend (T T' : Tables) : Prop :=
  forall table cols,
    lookup table T = Some cols ->
    exists more, lookup table T' = Some (cols ++ more)%list.

(** The log keeps its records, in their order; records are only ever
    appended. *)
Definition log_extends (l l' : MigrationsLog) : Prop :=
  exists more, migrations l' = (migrations l ++ more)%list.

Definition evolves (w w' : World) : Prop :=
  tables_extend (db_tables w) (db_tables w')
  /\ log_extends (migrations_json w) (migrations_json w')
  /\ clock w <= clock w'.

(** The requests of a conversation, processed one after the other; a
    request that throws leaves the world it has reached (the caller
    catches the error). *)
Definition process_all (anthropic : ComponentGenerator.Anthropic)
  (requests : list Detected) (w : World) : World :=
  fold_left (fun w' modRequest =>
               snd (Server.processModification anthropic modRequest w'))
            requests w.

(** The requests the detector finds in the messages of a conversation,
    in their order. *)
Definition detected_in (messages : list string) : list Detected :=
  flat_map (fun userMessage =>
              match detectModificationRequest userMessage with
              | Some modRequest => [modRequest]
              | None => []
              end) messages.

(** Instants in the order of the list, none later than a later one. *)
Fixpoint ascending (l : list nat) : Prop :=
  match l with
  | [] => True
  | t :: l' => Forall (le t) l' /\ ascending l'
  end.

(** The records of the log and of the registry stand in the order of
    their instants, and none is later than the clock. *)
Definition in_time_order (w : World) : Prop :=
  ascending (map executed_at (migrations (migrations_json w)))
  /\ Forall (fun t => t <= clock w)
            (map executed_at (migrations (migrations_json w)))
  /\ ascending (map registered_at (components (active_json w)))
  /\ Forall (fun t => t <= clock w)
            (map registered_at (components (active_json w))).

(** [last_migration] names the last record of the log. *)
Definition log_headed (w : World) : Prop :=
  last_migration (migrations_json w)
  = last (map (fun m => Some (mig_id m)) (migrations (migrations_json w))) None.

End Evolution.

(* ================================================================== *)
(** ** Installations for the worked examples of the engine *)

Module Situations.

(** The same installation with a database handle that does not answer. *)
Definition unanswering (w : World) : World :=
  {| db_online := false; db_tables := db_tables w;
     migrations_json := migrations_json w; active_json := active_json w;
     custom_dir := custom_dir w; backups_dir := backups_dir w;
     clock := clock w; ticks := ticks w; pushed := pushed w |}.

End Situations.

(* ================================================================== *)
(** ** Shapes of names *)

Module Shapes.

Definition letter (c : ascii) : bool := Js.is_lower c || Js.is_upper c.

Definition first_unit (c : ascii) : bool := letter c || Ascii.eqb c "_"%char.

Definition later_unit (c : ascii) : bool :=
  letter c || Js.is_digit c || Ascii.eqb c "_"%char.

(** An identifier: a letter of either case or an underscore, then
    letters, digits and underscores up to the end of the text. *)
Definition identifier (s : string) : bool :=
  match Js.chars s with
  | [] => false
  | c :: l => first_unit c && forallb later_unit l
  end.

(** Letters of either case and digits only. *)
Definition alphanumeric (s : string) : bool :=
  forallb (fun c => letter c || Js.is_digit c) (Js.chars s).

Definition unit_ok (c : ascii) : Prop := letter c || Js.is_digit c = true.

(** [/^[first][later]*$/] *)
Definition anchored (first later : ascii -> bool) : Regex.node :=
  Regex.seqs [Regex.Bol; Regex.Class false first;
              Regex.Star true (Regex.Class false later); Regex.Eol].

Definition starts_lower (s : string) : bool :=
  match s with
  | String c _ => Js.is_lower c
  | EmptyString => false
  end.

End Shapes.

(* ================================================================== *)
(** ** server.js: the route that serves a component's code *)

Module Routes.
Import SchemaMigration ComponentManager.






End Routes.

(* ================================================================== *)
(** * Properties *)

Local Open Scope nat_scope.
Local Open Scope list_scope.

(** ** Facts about the matcher *)

Module RegexFacts.
Import Regex.

Lemma text_length (l : list ascii) : String.length (Js.text l) = List.length l.
Proof.
  induction l as [|c l IH]; simpl; [reflexivity | now rewrite IH].
Qed.

Lemma chars_text (l : list ascii) : Js.chars (Js.text l) = l.
Proof. apply list_ascii_of_string_of_list_ascii. Qed.

Lemma text_chars (s : string) : Js.text (Js.chars s) = s.
Proof. apply string_of_list_ascii_of_string. Qed.

Lemma step1_rest p s m :
  In m (step1 p s) -> S (List.length (rest m)) = List.length (rest s).
Proof.
  unfold step1. destruct (rest s) as [|x xs]; [intros [] |].
  destruct (p x); [|intros []].
  intros [<- | []]. reflexivity.
Qed.

Lemma star_iter_rest body :
  (forall s m, In m (body s) -> List.length (rest m) <= List.length (rest s)) ->
  forall g n s m, In m (star_iter body g n s) ->
                  List.length (rest m) <= List.length (rest s).
Proof.
  intros Hbody g n. induction n as [|n IH]; intros s m Hin; simpl in Hin.
  - destruct Hin as [<- | []]. lia.
  - assert (Hmore :
      In m (flat_map (fun s' => if List.length (rest s') <? List.length (rest s)
                                then star_iter body g n s' else []) (body s)) ->
      List.length (rest m) <= List.length (rest s)).
    { intros H. apply in_flat_map in H. destruct H as (s' & Hs' & Hm).
      destruct (Nat.ltb_spec (List.length (rest s')) (List.length (rest s)));
        [| destruct Hm].
      apply IH in Hm. lia. }
    destruct g.
    + apply in_app_or in Hin. destruct Hin as [H | [<- | []]]; [auto | lia].
    + destruct Hin as [<- | H]; [lia | auto].
Qed.

(** A match never gives input back. *)
Lemma run_rest fl r :
  forall s m, In m (run fl r s) -> List.length (rest m) <= List.length (rest s).
Proof.
  induction r as [ | c | | neg mem | | | a IHa b IHb | a IHa b IHb | g a IHa
                 | i a IHa ]; intros s m Hin; simpl in Hin.
  - destruct Hin as [<- | []]. lia.
  - apply step1_rest in Hin. lia.
  - apply step1_rest in Hin. lia.
  - apply step1_rest in Hin. lia.
  - destruct (at_bol fl s); [destruct Hin as [<- | []]; lia | destruct Hin].
  - destruct (at_eol fl s); [destruct Hin as [<- | []]; lia | destruct Hin].
  - apply in_flat_map in Hin. destruct Hin as (x & Hx & Hm).
    apply IHa in Hx. apply IHb in Hm. lia.
  - apply in_app_or in Hin. destruct Hin; auto.
  - eapply star_iter_rest; eauto.
  - apply in_map_iff in Hin. destruct Hin as (x & <- & Hx).
    apply IHa in Hx. exact Hx.
Qed.

Lemma star_iter_nonempty body g n s : star_iter body g n s <> [].
Proof.
  destruct n as [|n]; simpl; [discriminate |].
  destruct g; [| discriminate].
  intros H. apply app_eq_nil in H. destruct H as [_ H]. discriminate.
Qed.

Lemma hd_error_in {A : Type} (l : list A) (x : A) :
  hd_error l = Some x -> In x l.
Proof. destruct l; simpl; [discriminate | intros [= ->]; now left]. Qed.

Lemma run_seq_class fl neg mem b p c l :
  run fl (Seq (Class neg mem) b) (start p (c :: l)) =
  if class_ok fl neg mem c
  then run fl b {| prev := Some c; rest := l; caps := [] |}
  else [].
Proof.
  simpl. unfold step1. simpl.
  destruct (class_ok fl neg mem c); simpl; [apply app_nil_r | reflexivity].
Qed.

(** One or more units of a class: a match exists exactly when the first
    unit is in the class, and it takes at least that unit. *)
Lemma plus_class_none fl neg mem p c l :
  match_here fl (plus (Class neg mem)) p (c :: l) = None ->
  class_ok fl neg mem c = false.
Proof.
  unfold match_here, plus. rewrite run_seq_class.
  destruct (class_ok fl neg mem c); [| reflexivity].
  cbn [run]. intros H.
  match type of H with hd_error ?x = None => destruct x eqn:E end.
  - now apply star_iter_nonempty in E.
  - discriminate.
Qed.

Lemma plus_class_some fl neg mem p c l m :
  match_here fl (plus (Class neg mem)) p (c :: l) = Some m ->
  List.length (rest m) <= List.length l.
Proof.
  unfold match_here, plus. rewrite run_seq_class. intros H.
  destruct (class_ok fl neg mem c); [| discriminate].
  apply hd_error_in in H.
  apply (run_rest fl (Star true (Class neg mem))) in H. exact H.
Qed.

(** Global replacement only emits units of the input and of the
    replacement text. *)
Lemma replace_from_keeps (P : ascii -> Prop) fl r rep :
  Forall P rep ->
  forall l p skip, Forall P l -> Forall P (replace_from fl r rep p l skip).
Proof.
  intros Hrep. induction l as [|c l IH]; intros p skip Hl; cbn [replace_from].
  - destruct skip; [destruct (match_here fl r p [])|]; auto.
  - inversion Hl as [|? ? Hc Hl']; subst.
    destruct skip as [|k]; [| now apply IH].
    destruct (match_here fl r p (c :: l)) as [m|].
    + destruct (List.length (c :: l) - List.length (rest m)) eqn:E.
      * apply Forall_app. split; [exact Hrep |]. constructor; auto.
      * apply Forall_app. split; auto.
    + constructor; auto.
Qed.

(** When every unit the pattern declines to start at, and every unit
    under an empty match, satisfies [P], so does the whole output. *)
Lemma replace_from_skipped (P : ascii -> Prop) fl r rep :
  Forall P rep ->
  (forall p c l, match_here fl r p (c :: l) = None -> P c) ->
  (forall p c l m, match_here fl r p (c :: l) = Some m ->
                   List.length (c :: l) - List.length (rest m) = 0 -> P c) ->
  forall l p skip, Forall P (replace_from fl r rep p l skip).
Proof.
  intros Hrep Hnone Hempty. induction l as [|c l IH]; intros p skip;
    cbn [replace_from].
  - destruct skip; [destruct (match_here fl r p [])|]; auto.
  - destruct skip as [|k]; [| apply IH].
    destruct (match_here fl r p (c :: l)) as [m|] eqn:E.
    + destruct (List.length (c :: l) - List.length (rest m)) eqn:E'.
      * apply Forall_app. split; [exact Hrep |].
        constructor; [eapply Hempty; eauto | apply IH].
      * apply Forall_app. split; [exact Hrep | apply IH].
    + constructor; [eapply Hnone; eauto | apply IH].
Qed.

Lemma run_Seq fl a b s : run fl (Seq a b) s = flat_map (run fl b) (run fl a s).
Proof. reflexivity. Qed.

Lemma run_Class fl neg mem s :
  run fl (Class neg mem) s = step1 (class_ok fl neg mem) s.
Proof. reflexivity. Qed.

Lemma run_Star fl g a s :
  run fl (Star g a) s = star_iter (run fl a) g (List.length (rest s)) s.
Proof. reflexivity. Qed.

Lemma run_Bol fl s : run fl Bol s = if at_bol fl s then [s] else [].
Proof. reflexivity. Qed.

Lemma step1_cons f q c l cs :
  step1 f {| prev := q; rest := c :: l; caps := cs |} =
  if f c then [ {| prev := Some c; rest := l; caps := cs |} ] else [].
Proof. reflexivity. Qed.

Lemma step1_nil f q cs : step1 f {| prev := q; rest := []; caps := cs |} = [].
Proof. reflexivity. Qed.

Lemma flat_map_one {A B : Type} (f : A -> list B) (x : A) :
  flat_map f [x] = f x.
Proof. simpl. apply app_nil_r. Qed.

End RegexFacts.

(* ================================================================== *)
(** ** Identifier derivation *)

Module IdentifierFacts.
Import Regex RegexFacts ModificationDetector SchemaMigration Claims.

Lemma alnum_word c : alnum c = true -> word c.
Proof. unfold word, word_char, alnum. intros ->. reflexivity. Qed.

Lemma between_spec lo hi c :
  Js.between lo hi c = true <-> lo <= Js.code c <= hi.
Proof.
  unfold Js.between. rewrite andb_true_iff, !Nat.leb_le. reflexivity.
Qed.

(** Among word characters the letters and the underscore are those
    that are not digits. *)
Lemma word_first c : word c -> letter_or_underscore c = negb (Js.is_digit c).
Proof.
  unfold word, word_char, letter_or_underscore.
  destruct (Ascii.eqb c "_") eqn:Eu.
  - apply Ascii.eqb_eq in Eu. subst c. reflexivity.
  - rewrite !orb_false_r.
    destruct (Js.is_lower c) eqn:El; destruct (Js.is_digit c) eqn:Ed;
      simpl; try reflexivity; try discriminate.
    apply between_spec in El. apply between_spec in Ed. lia.
Qed.

Lemma metricToFieldName_units s :
  Js.chars (metricToFieldName s) = field_units s.
Proof.
  unfold metricToFieldName, Js.substring0, replaceAll, Js.toLowerCase.
  rewrite !chars_text. reflexivity.
Qed.

Lemma collapse_word l p skip :
  Forall word (replace_from no_flag non_alnum_run ["_"%char] p l skip).
Proof.
  apply replace_from_skipped.
  - repeat constructor.
  - intros q c l' H. apply plus_class_none in H.
    apply alnum_word. unfold class_ok in H. simpl in H.
    now apply negb_false_iff in H.
  - intros q c l' m H E. apply plus_class_some in H.
    change (List.length (c :: l')) with (S (List.length l')) in E. lia.
Qed.

Lemma firstn_keeps (P : ascii -> Prop) n :
  forall l, Forall P l -> Forall P (firstn n l).
Proof.
  induction n as [|n IH]; intros l H; [constructor |].
  destruct H; simpl; constructor; auto.
Qed.

Lemma field_units_word s : Forall word (field_units s).
Proof.
  unfold field_units. apply firstn_keeps.
  apply replace_from_keeps; [constructor | apply collapse_word].
Qed.

Lemma field_units_length s : List.length (field_units s) <= 50.
Proof. unfold field_units. apply firstn_le_length. Qed.

(** *** The anchored grammar on a text of word characters *)

Lemma word_step p x l cs :
  word x ->
  run no_flag (Class false word_char) {| prev := p; rest := x :: l; caps := cs |}
  = [ {| prev := Some x; rest := l; caps := cs |} ].
Proof.
  intros Hx. simpl. unfold step1, class_ok. simpl. rewrite Hx. reflexivity.
Qed.

Lemma star_word_all l :
  Forall word l ->
  forall n p cs, List.length l <= n ->
    exists e tl,
      star_iter (run no_flag (Class false word_char)) true n
                {| prev := p; rest := l; caps := cs |} = e :: tl
      /\ rest e = [].
Proof.
  induction 1 as [|x l Hx Hl IH]; intros n p cs Hn.
  - destruct n; simpl; eauto.
  - destruct n as [|n]; [simpl in Hn; lia |].
    pose proof (word_step p l cs Hx) as Hstep.
    remember (run no_flag (Class false word_char)) as body eqn:Hb.
    cbn [star_iter]. rewrite Hstep.
    cbn [flat_map rest].
    replace (List.length l <? List.length (x :: l)) with true
      by (symmetry; apply Nat.ltb_lt; simpl; lia).
    destruct (IH n (Some x) cs) as (e & tl & He & Hr);
      [simpl in Hn; lia |].
    rewrite He. rewrite app_nil_r. simpl. eauto.
Qed.

Lemma pattern_first p c l :
  run no_flag field_name_pattern (start p (c :: l)) =
  if at_bol no_flag (start p (c :: l)) && letter_or_underscore c
  then flat_map (run no_flag Eol)
         (star_iter (run no_flag (Class false word_char)) true (List.length l)
            {| prev := Some c; rest := l; caps := [] |})
  else [].
Proof.
  unfold field_name_pattern. cbn [seqs]. rewrite run_Seq, run_Bol.
  destruct (at_bol no_flag (start p (c :: l))); [| reflexivity].
  rewrite flat_map_one, run_Seq, run_Class. unfold start.
  rewrite step1_cons. unfold class_ok. cbn [ignoreCase no_flag andb].
  destruct (letter_or_underscore c); [| reflexivity].
  rewrite flat_map_one, run_Seq, run_Star. reflexivity.
Qed.

Lemma pattern_empty p : run no_flag field_name_pattern (start p []) = [].
Proof.
  unfold field_name_pattern. cbn [seqs]. rewrite run_Seq, run_Bol.
  destruct (at_bol no_flag (start p [])); [| reflexivity].
  rewrite flat_map_one, run_Seq, run_Class. unfold start.
  rewrite step1_nil. reflexivity.
Qed.

Lemma later_none : forall l c, search no_flag field_name_pattern (Some c) l = None.
Proof.
  induction l as [|x l IH]; intros c; cbn [search]; unfold match_here.
  - rewrite pattern_empty. reflexivity.
  - rewrite pattern_first. cbn [at_bol start prev multiline no_flag andb hd_error].
    apply IH.
Qed.

Lemma search_units l :
  Forall word l ->
  search no_flag field_name_pattern None l =
  match l with
  | [] => None
  | c :: l' =>
      if letter_or_underscore c
      then hd_error (flat_map (run no_flag Eol)
         (star_iter (run no_flag (Class false word_char)) true (List.length l')
            {| prev := Some c; rest := l'; caps := [] |}))
      else None
  end.
Proof.
  intros H. destruct l as [|c l]; cbn [search]; unfold match_here.
  - rewrite pattern_empty. reflexivity.
  - rewrite pattern_first. cbn [at_bol start prev andb].
    destruct (letter_or_underscore c); cbn [hd_error].
    + inversion H as [|? ? Hc Hl]; subst.
      destruct (@star_word_all l Hl (List.length l) (Some c) [] (le_n _))
        as (e & tl & -> & He).
      cbn [flat_map run]. unfold at_eol. rewrite He. reflexivity.
    + apply later_none.
Qed.

Lemma matches_grammar_word s :
  Forall word (Js.chars s) ->
  matches_grammar s = negb (is_empty s) && negb (starts_with_digit s).
Proof.
  unfold matches_grammar, test. intros H. rewrite (search_units H).
  destruct s as [|c s]; [reflexivity |].
  cbn [is_empty starts_with_digit negb andb].
  change (Js.chars (String c s)) with (c :: Js.chars s) in *.
  inversion H as [|? ? Hc Hs]; subst.
  rewrite <- (word_first Hc).
  destruct (letter_or_underscore c) eqn:E; [| reflexivity].
  destruct (@star_word_all _ Hs (List.length (Js.chars s)) (Some c) []
              (le_n _))
    as (e & tl & -> & He).
  cbn [flat_map run]. unfold at_eol. rewrite He. reflexivity.
Qed.
End IdentifierFacts.

(* ================================================================== *)
(** ** Intent detection *)

Module DetectorFacts.
Import Regex RegexFacts ModificationDetector Claims.

Lemma chars_append (a b : string) :
  Js.chars (a ++ b)%string = Js.chars a ++ Js.chars b.
Proof.
  unfold Js.chars.
  induction a as [|x a IH]; simpl; [reflexivity | now rewrite IH].
Qed.

Lemma line_terminator_space x :
  Js.is_line_terminator x = true -> Js.is_space x = true.
Proof.
  unfold Js.is_line_terminator, Js.is_space, Js.between.
  intros H. apply orb_true_iff in H.
  destruct H as [H | H]; apply Nat.eqb_eq in H; rewrite H; reflexivity.
Qed.

(** The first code unit that is not a line terminator, with the line
    terminators before it. *)
Lemma first_visible l :
  existsb (fun x => negb (Js.is_line_terminator x)) l = true ->
  exists ws c l',
    l = ws ++ c :: l'
    /\ Forall (fun x => Js.is_space x = true) ws
    /\ Js.is_line_terminator c = false.
Proof.
  induction l as [|x l IH]; simpl; [discriminate |].
  destruct (Js.is_line_terminator x) eqn:E; simpl.
  - intros H. destruct (IH H) as (ws & c & l' & -> & Hws & Hc).
    exists (x :: ws), c, l'. repeat split; auto.
    constructor; auto. now apply line_terminator_space.
  - intros _. exists [], x, l. repeat split; auto.
Qed.

Lemma star_iter_self body g n s : In s (star_iter body g n s).
Proof.
  destruct n as [|n]; simpl; [now left |].
  destruct g; [apply in_or_app; right |]; now left.
Qed.

Lemma flat_map_nonempty {A B : Type} (f : A -> list B) (l : list A) (x : A) :
  In x l -> f x <> [] -> flat_map f l <> [].
Proof.
  intros Hin Hf H. apply Hf.
  destruct (f x) as [|y ys] eqn:E; [reflexivity |].
  assert (Hy : In y (flat_map f l)).
  { apply in_flat_map. exists x. split; [exact Hin |]. rewrite E. now left. }
  rewrite H in Hy. destruct Hy.
Qed.

(** White space is consumed by [\s*], whatever stands before it. *)
Lemma star_space_prefix ws :
  Forall (fun x => Js.is_space x = true) ws ->
  forall l p cs n, List.length (ws ++ l) <= n ->
    exists p',
      In {| prev := p'; rest := l; caps := cs |}
         (star_iter (run i_flag space) true n
                    {| prev := p; rest := ws ++ l; caps := cs |}).
Proof.
  induction 1 as [|x ws Hx Hws IH]; intros l p cs n Hn.
  - exists p. apply star_iter_self.
  - destruct n as [|n]; [simpl in Hn; lia |].
    destruct (IH l (Some x) cs n) as (p' & Hin); [simpl in Hn; lia |].
    exists p'. cbn [star_iter]. apply in_or_app. left.
    apply in_flat_map.
    exists {| prev := Some x; rest := ws ++ l; caps := cs |}. split.
    + unfold space. rewrite run_Class. cbn [app]. rewrite step1_cons.
      unfold class_ok. cbn [ignoreCase i_flag]. rewrite Hx. now left.
    + cbn [rest]. replace (List.length (ws ++ l) <? List.length ((x :: ws) ++ l))
        with true by (symmetry; apply Nat.ltb_lt; simpl; lia).
      exact Hin.
Qed.

(** One or more units that are not line terminators: [(.+)] matches as
    soon as the first unit is not one. *)
Lemma any1_nonempty p c l cs :
  Js.is_line_terminator c = false ->
  run i_flag (Group 1 any1) {| prev := p; rest := c :: l; caps := cs |} <> [].
Proof.
  intros Hc. cbn [run]. unfold any1, plus. rewrite run_Seq.
  change (run i_flag Dot ?s) with
    (step1 (fun x => negb (Js.is_line_terminator x)) s).
  rewrite step1_cons, Hc. cbn [negb]. rewrite flat_map_one, run_Star.
  intros H. apply map_eq_nil in H. now apply star_iter_nonempty in H.
Qed.

Lemma track_rule_is_second : option_map pattern (nth_error triggers 1) = Some track_rule.
Proof. reflexivity. Qed.

Lemma track_rule_here p ws c l :
  Forall (fun x => Js.is_space x = true) ws ->
  Js.is_line_terminator c = false ->
  run i_flag track_rule (start p (Js.chars "track " ++ ws ++ c :: l)) <> [].
Proof.
  intros Hws Hc. unfold track_rule. cbn [seqs]. rewrite run_Seq.
  change (run i_flag (lit "track") (start p (Js.chars "track " ++ ws ++ c :: l)))
    with [ {| prev := Some "k"%char; rest := " "%char :: ws ++ c :: l;
              caps := [] |} ].
  rewrite flat_map_one, run_Seq.
  destruct (@star_space_prefix ws Hws (c :: l) (Some " "%char) []
              (List.length (ws ++ c :: l)) (le_n _)) as (p' & Hin).
  eapply flat_map_nonempty.
  - unfold sp1, plus. rewrite run_Seq.
    change (run i_flag space ?s)
      with (step1 (class_ok i_flag false Js.is_space) s).
    rewrite step1_cons.
    change (class_ok i_flag false Js.is_space " "%char) with true.
    cbv iota. rewrite flat_map_one, run_Star. cbn [rest]. exact Hin.
  - rewrite run_Seq. eapply flat_map_nonempty.
    + unfold opt. cbn [run]. apply in_or_app. right. now left.
    + now apply any1_nonempty.
Qed.

Lemma search_found fl r l2 :
  (forall p, run fl r (start p l2) <> []) ->
  forall pre p, exists m, search fl r p (pre ++ l2) = Some m.
Proof.
  intros H. induction pre as [|x pre IH]; intros p.
  - specialize (H p). destruct l2 as [|y l2]; cbn [app search];
      unfold match_here; destruct (run fl r _) as [|m ms] eqn:E;
      try (now elim H); simpl; eauto.
  - cbn [app search]. destruct (match_here fl r p (x :: pre ++ l2)); eauto.
Qed.

(** The removal phrasing "i don't track ..." is detected as an addition
    for every subject that has a code unit other than a line
    terminator: the generic track rule matches it, and the only rule
    tried before it is an addition rule as well. *)
Lemma dont_track_any_subject (m : string) :
  existsb (fun x => negb (Js.is_line_terminator x)) (Js.chars m) = true ->
  option_map d_action (detectModificationRequest ("i don't track " ++ m))
  = Some add_metric.
Proof.
  intros H. destruct (first_visible _ H) as (ws & c & l' & Hm & Hws & Hc).
  assert (H2 : exists st,
             exec i_flag track_rule ("i don't track " ++ m)%string = Some st).
  { unfold exec. rewrite chars_append, Hm.
    change (Js.chars "i don't track ")
      with (Js.chars "i don't " ++ Js.chars "track ").
    rewrite <- app_assoc. apply search_found.
    intros p. now apply track_rule_here. }
  destruct H2 as (st & H2).
  unfold detectModificationRequest, triggers.
  cbn [first_trigger pattern action extract].
  match goal with
  | |- context [exec i_flag ?r ?s] => destruct (exec i_flag r s)
  end.
  - destruct (classify _). reflexivity.
  - fold track_rule. rewrite H2. destruct (classify _). reflexivity.
Qed.

(** C9: the generic track rule wins.  "i don't track water" matches the
    second rule of the table, [/track\s+(?:my\s+)?(.+)/i], before the
    removal rule is tried, and is detected as [add_metric]. *)
Theorem dont_track_detected_as_add :
  option_map (fun d => (d_action d, metric (details d)))
             (detectModificationRequest "i don't track water")
  = Some (add_metric, Some "water").
Proof. vm_compute. reflexivity. Qed.

End DetectorFacts.

(* ================================================================== *)
(** ** Schema evolution engine *)

Module SchemaFacts.
Import SchemaMigration Claims.

Lemma lookup_put_same {A : Type} k (v : A) l : lookup k (put k v l) = Some v.
Proof.
  induction l as [|[k' v'] l IH]; simpl.
  - now rewrite String.eqb_refl.
  - destruct (String.eqb k k') eqn:E; simpl; rewrite ?String.eqb_refl, ?E; auto.
Qed.

Lemma existsb_last {A : Type} (p : A -> bool) l x :
  p x = true -> existsb p (l ++ [x]) = true.
Proof.
  intros H. rewrite existsb_app. simpl. rewrite H.
  now rewrite orb_true_r.
Qed.

(** Symbolic execution of the monadic code on an arbitrary world. *)
Ltac run_m :=
  cbv beta iota zeta delta
      [bind ret throw lift gets modify try_catch now
       set_tables set_migrations set_active set_custom set_backups set_pushed
       table_info run_add_column fieldExists getMigrationsLog logMigration
       listMigrations];
  cbn [db_online db_tables migrations_json active_json custom_dir backups_dir
       clock ticks pushed fst snd existsb].

Ltac simp_m :=
  run_m;
  repeat match goal with
         | H : ?x = _ |- context [?x] => rewrite H; run_m
         end.

Ltac split_on t :=
  let E := fresh "E" in
  destruct t eqn:E; simp_m; try discriminate.

Ltac on_existsb l :=
  match goal with
  | |- context [existsb ?p l] => split_on (existsb p l)
  end.

Lemma validateFieldName_true f b : validateFieldName f = Ret b -> b = true.
Proof.
  unfold validateFieldName.
  destruct (Js.arr_includes reserved (Js.toLowerCase f)); [discriminate |].
  destruct (negb _); [discriminate | now intros [= <-]].
Qed.

Lemma validateDataType_true T b : validateDataType T = Ret b -> b = true.
Proof.
  unfold validateDataType.
  destruct (negb _); [discriminate | now intros [= <-]].
Qed.

(** A successful [addField] appended the column to a table that the
    handle could read. *)
Lemma addField_success table field dataType d w w' s f t :
  addField table field dataType d w = (Ret (Success s f t), w') ->
  validateFieldName field = Ret true /\
  validateDataType dataType = Ret true /\
  db_online w' = true /\
  exists cols,
    lookup table (db_tables w') =
    Some (cols ++ [ {| col_name := field; col_type := dataType |} ]).
Proof.
  destruct w as [on tb lg ac cu bk cl tk pu].
  unfold addField. run_m.
  destruct (validateFieldName field) as [b|] eqn:Ef; run_m; try discriminate.
  destruct (validateDataType dataType) as [b'|] eqn:Et; run_m; try discriminate.
  apply validateFieldName_true in Ef. apply validateDataType_true in Et.
  subst b b'.
  destruct on; run_m; try discriminate.
  split_on (lookup table tb).
  match goal with |- context [existsb _ ?l] => rename l into cols end.
  on_existsb cols. on_existsb cols.
  intros [= <- <- <- <-]; run_m. repeat split.
  exists cols. apply lookup_put_same.
Qed.

(** A call while the handle does not answer changes nothing. *)
Lemma addField_offline table field dataType d w :
  db_online w = false ->
  snd (addField table field dataType d w) = w.
Proof.
  destruct w as [on tb lg ac cu bk cl tk pu]. simpl. intros ->.
  unfold addField. run_m.
  destruct (validateFieldName field) as [b|]; run_m; [| reflexivity].
  destruct (validateDataType dataType) as [b'|]; run_m; reflexivity.
Qed.

(** Adding a field the table already has is reported and changes nothing. *)
Lemma addField_existing table field dataType d w cols :
  validateFieldName field = Ret true ->
  validateDataType dataType = Ret true ->
  db_online w = true ->
  lookup table (db_tables w) = Some cols ->
  has_column field cols = true ->
  addField table field dataType d w = (Ret (Refused "already_exists"), w).
Proof.
  destruct w as [on tb lg ac cu bk cl tk pu]. simpl.
  intros Ef Et -> El Hc. unfold addField. run_m.
  rewrite Ef, Et. run_m. rewrite El. unfold has_column in Hc. rewrite Hc.
  reflexivity.
Qed.

(** Whatever it answers, [addField] changes nothing unless it succeeds. *)
Lemma addField_unchanged table field dataType d w :
  SchemaMigration.succeeded
    (match fst (addField table field dataType d w) with
     | Ret r => r
     | Throw _ => Refused ""
     end) = false ->
  snd (addField table field dataType d w) = w.
Proof.
  destruct w as [on tb lg ac cu bk cl tk pu].
  unfold addField. run_m.
  destruct (validateFieldName field) as [b|]; run_m; [| reflexivity].
  destruct (validateDataType dataType) as [b'|]; run_m; [| reflexivity].
  destruct on; run_m; [| reflexivity].
  split_on (lookup table tb); try reflexivity.
  match goal with |- context [existsb _ ?l] => rename l into cols end.
  on_existsb cols; try reflexivity.
  on_existsb cols; try reflexivity.
Qed.

(** *** [removeField] *)

Lemma removeField_hard_unchanged table field w :
  snd (removeField table field false w) = w.
Proof.
  destruct w as [on tb lg ac cu bk cl tk pu].
  unfold removeField. run_m.
  destruct (validateFieldName field) as [b|]; run_m; [| reflexivity].
  match goal with |- context [negb ?b] => destruct b end; reflexivity.
Qed.

Lemma removeField_tables table field soft w :
  db_tables (snd (removeField table field soft w)) = db_tables w.
Proof.
  destruct soft; [| now rewrite removeField_hard_unchanged].
  destruct w as [on tb lg ac cu bk cl tk pu].
  unfold removeField. run_m.
  destruct (validateFieldName field) as [b|]; run_m; [| reflexivity].
  match goal with |- context [negb ?b] => destruct b end; reflexivity.
Qed.

Lemma removeField_hard_refused table field w cols :
  validateFieldName field = Ret true ->
  db_online w = true ->
  lookup table (db_tables w) = Some cols ->
  has_column field cols = true ->
  fst (removeField table field false w) = Ret (Refused "hard_delete_not_supported").
Proof.
  destruct w as [on tb lg ac cu bk cl tk pu]. simpl.
  intros Ef -> El Hc. unfold removeField. run_m.
  rewrite Ef. run_m. rewrite El. unfold has_column in Hc. rewrite Hc.
  reflexivity.
Qed.

Lemma removeField_never_hard_success table field w s f t :
  fst (removeField table field false w) <> Ret (Success s f t).
Proof.
  destruct w as [on tb lg ac cu bk cl tk pu].
  unfold removeField. run_m.
  destruct (validateFieldName field) as [b|]; run_m; [| discriminate].
  match goal with |- context [negb ?b] => destruct b end; discriminate.
Qed.

(** A successful soft delete appended one record for the field and
    touched neither the tables nor the handle. *)
Lemma removeField_soft_success table field w w' s f t :
  removeField table field true w = (Ret (Success s f t), w') ->
  validateFieldName field = Ret true /\
  db_online w' = true /\
  db_tables w' = db_tables w /\
  (exists cols, lookup table (db_tables w) = Some cols
                /\ has_column field cols = true) /\
  exists m, migrations (migrations_json w')
            = migrations (migrations_json w) ++ [m]
            /\ mig_type m = soft_delete_field
            /\ mig_table m = table /\ mig_field m = field.
Proof.
  destruct w as [on tb lg ac cu bk cl tk pu].
  unfold removeField. run_m.
  destruct (validateFieldName field) as [b|] eqn:Ef; run_m; try discriminate.
  apply validateFieldName_true in Ef. subst b.
  destruct on; run_m; try discriminate.
  destruct (lookup table tb) as [cols|] eqn:El; run_m; try discriminate.
  fold (has_column field cols).
  destruct (has_column field cols) eqn:Hc; run_m; try discriminate.
  intros [= <- <- <- <-]. run_m. repeat split.
  - exists cols. auto.
  - eexists. split; [reflexivity |]. repeat split.
Qed.

(** *** The active-field view *)

Lemma getActiveFields_eq table w :
  getActiveFields table w =
  (Ret (if db_online w
        then filter (fun name =>
                       negb (Js.arr_includes
                               (soft_deleted table (migrations_json w)) name))
                    (map col_name match lookup table (db_tables w) with
                                  | Some cols => cols
                                  | None => []
                                  end)
        else []), w).
Proof.
  destruct w as [on tb lg ac cu bk cl tk pu].
  unfold getActiveFields. run_m. destruct on; reflexivity.
Qed.

Lemma arr_includes_in l s : In s l -> Js.arr_includes l s = true.
Proof.
  intros H. unfold Js.arr_includes. apply existsb_exists.
  exists s. split; [exact H | apply String.eqb_refl].
Qed.

(** Simple exclusion: any soft-delete record for the table hides the
    field, wherever the record stands in the log. *)
Lemma soft_delete_record_hides table w m :
  In m (migrations (migrations_json w)) ->
  mig_type m = soft_delete_field -> mig_table m = table ->
  ~ In (mig_field m) (Claims.listActiveFields table w).
Proof.
  intros Hin Ht Htab. unfold Claims.listActiveFields.
  rewrite getActiveFields_eq. cbn [fst].
  destruct (db_online w); [| intros []].
  intros H. apply filter_In in H. destruct H as [_ H].
  apply negb_true_iff in H.
  rewrite arr_includes_in in H; [discriminate |].
  unfold soft_deleted. apply in_map. apply filter_In. split; [exact Hin |].
  unfold is_soft_delete. rewrite Ht, Htab, String.eqb_refl. reflexivity.
Qed.

End SchemaFacts.

(* ================================================================== *)
(** ** Claims on the schema engine and on identifiers *)

Module SchemaClaims.
Import Regex ModificationDetector SchemaMigration Claims Scenario.
Import RegexFacts IdentifierFacts SchemaFacts.

(** What the derivation does ensure: for every subject, the identifier
    derived by [metricToFieldName] has at most 50 code units, all of
    them in [[a-z0-9_]]; such an identifier is safe exactly when it is
    not empty, does not begin with a digit and is not a reserved
    word. *)
Lemma metricToFieldName_shape (s : string) :
  String.length (metricToFieldName s) <= 50
  /\ Forall word (Js.chars (metricToFieldName s))
  /\ safe_field_id (metricToFieldName s)
     = negb (is_empty (metricToFieldName s))
       && negb (starts_with_digit (metricToFieldName s))
       && negb (Js.arr_includes reserved (metricToFieldName s)).
Proof.
  assert (Hw : Forall word (Js.chars (metricToFieldName s)))
    by (rewrite metricToFieldName_units; apply field_units_word).
  assert (Hl : String.length (metricToFieldName s) <= 50).
  { rewrite <- (text_chars (metricToFieldName s)), text_length,
      metricToFieldName_units. apply field_units_length. }
  repeat split; [exact Hl | exact Hw |].
  unfold safe_field_id. rewrite (matches_grammar_word _ Hw).
  apply Nat.leb_le in Hl. rewrite Hl, andb_true_r. reflexivity.
Qed.

(** Not every printable subject is derived to a safe identifier. *)
Lemma metricToFieldName_not_always_safe :
  ~ (forall s, printable s = true -> safe_field_id (metricToFieldName s) = true).
Proof.
  intros H. specialize (H "select" eq_refl). vm_compute in H. discriminate.
Qed.

(** C3.  [metricToFieldName], documented as converting a metric name
    "to valid field name", returns names that are not valid field
    names.  The printable subject "select" is derived to the reserved
    word "select", "123" keeps its leading digit and "!!!" becomes the
    empty identifier; none of the three is a safe identifier,
    [validateFieldName] throws on each, and [addField] on the fresh
    installation throws for the identifier derived from "select".  So
    it does not hold that every printable subject is derived to a safe
    identifier. *)
Theorem metricToFieldName_yields_invalid_names :
  (printable "select" = true
   /\ metricToFieldName "select" = "select"%string
   /\ Js.arr_includes reserved (metricToFieldName "select") = true
   /\ safe_field_id (metricToFieldName "select") = false
   /\ validateFieldName (metricToFieldName "select")
      = Throw (dq ++ "select" ++ dq ++ " is a reserved SQL keyword")%string
   /\ fst (addField "metrics" (metricToFieldName "select") "INTEGER" None fresh)
      = Throw (dq ++ "select" ++ dq ++ " is a reserved SQL keyword")%string)
  /\ (printable "123" = true
      /\ metricToFieldName "123" = "123"%string
      /\ matches_grammar (metricToFieldName "123") = false
      /\ safe_field_id (metricToFieldName "123") = false
      /\ validateFieldName (metricToFieldName "123")
         = Throw (dq ++ "123" ++ dq ++ " is not a valid field name")%string)
  /\ (printable "!!!" = true
      /\ metricToFieldName "!!!" = ""%string
      /\ matches_grammar (metricToFieldName "!!!") = false
      /\ safe_field_id (metricToFieldName "!!!") = false
      /\ validateFieldName (metricToFieldName "!!!")
         = Throw (dq ++ "" ++ dq ++ " is not a valid field name")%string)
  /\ ~ (forall s, printable s = true ->
                  matches_grammar (metricToFieldName s) = true
                  /\ String.length (metricToFieldName s) <= 50
                  /\ Js.arr_includes reserved (metricToFieldName s) = false).
Proof.
  split; [repeat split; vm_compute; reflexivity |].
  split; [repeat split; vm_compute; reflexivity |].
  split; [repeat split; vm_compute; reflexivity |].
  intros H. destruct (H "select" eq_refl) as (_ & _ & Hr).
  vm_compute in Hr. discriminate Hr.
Qed.

Example metricToFieldName_leading_digit :
  metricToFieldName "123" = "123" /\ safe_field_id "123" = false.
Proof. split; vm_compute; reflexivity. Qed.

Example metricToFieldName_empty :
  metricToFieldName "!!!" = "" /\ safe_field_id "" = false.
Proof. split; vm_compute; reflexivity. Qed.

(** C7.  After [addField(t, f, T)] succeeded, a second [addField(t, f, T)]
    resolves to the [already_exists] outcome (it does not throw and
    reports no error) and leaves the whole world as it was: no column
    is added and the migration log gains no record. *)
Theorem addField_twice_already_exists
  (table field dataType : string) (d d' : option string) (w w' : World)
  (s : option bool) (f t : string) :
  addField table field dataType d w = (Ret (Success s f t), w') ->
  addField table field dataType d' w' = (Ret (Refused "already_exists"), w').
Proof.
  intros H. apply addField_success in H.
  destruct H as (Hf & Ht & Hon & cols & Hl).
  eapply addField_existing; eauto.
  unfold has_column. apply existsb_last. apply String.eqb_refl.
Qed.

Lemma addField_twice_witness :
  addField "metrics" "mood" "INTEGER" None
           (snd (addField "metrics" "mood" "INTEGER" None fresh))
  = (Ret (Refused "already_exists"),
     snd (addField "metrics" "mood" "INTEGER" None fresh)).
Proof.
  apply (@addField_twice_already_exists "metrics" "mood" "INTEGER" None None
           fresh _ None "mood" "metrics").
  vm_compute. reflexivity.
Defined.

(** C8.  [removeField] with [softDelete = false] leaves the world as it
    was, never succeeds, and for a valid name of an existing field
    resolves to [hard_delete_not_supported]; with either flag the
    tables of the store keep all their columns. *)
Theorem hard_delete_rejected (table field : string) (w : World) :
  snd (removeField table field false w) = w
  /\ (forall soft, db_tables (snd (removeField table field soft w)) = db_tables w)
  /\ (forall s f t, fst (removeField table field false w) <> Ret (Success s f t))
  /\ (validateFieldName field = Ret true ->
      fst (fieldExists table field w) = Ret true ->
      fst (removeField table field false w)
      = Ret (Refused "hard_delete_not_supported")).
Proof.
  split; [apply removeField_hard_unchanged |].
  split; [intros soft; apply removeField_tables |].
  split; [intros s f t; apply removeField_never_hard_success |].
  intros Hv He.
  destruct w as [on tb lg ac cu bk cl tk pu].
  unfold fieldExists in He. unfold removeField, fieldExists.
  run_m. rewrite Hv. run_m.
  cbv beta iota zeta delta [bind ret table_info] in He.
  cbn [db_online db_tables fst] in He.
  injection He as He. rewrite He. reflexivity.
Qed.

Lemma hard_delete_rejected_witness :
  fst (removeField "metrics" "steps" false fresh)
  = Ret (Refused "hard_delete_not_supported").
Proof.
  apply (proj2 (proj2 (proj2 (hard_delete_rejected "metrics" "steps" fresh))));
    vm_compute; reflexivity.
Defined.

(** C2, as amended.  After a successful [removeField(t, f, soft)] the
    active-field view of [t] excludes [f]; a later [addField(t, f, T)]
    changes nothing (for a valid type it resolves to [already_exists])
    and [f] stays excluded.  The view leaves out every field that has a
    soft-delete record for the table, whatever was logged afterwards:
    [f] is excluded in every world whose log continues the log the
    removal left, with whatever records (later [add_field] records of
    [f] among them) and whatever tables; and in any world at all, a
    field named by a soft-delete record of the table is excluded,
    wherever the record stands in the log. *)
Theorem soft_deleted_field_stays_hidden
  (table field dataType : string) (d : option string) (w w1 : World)
  (s : option bool) (f t : string) :
  removeField table field true w = (Ret (Success s f t), w1) ->
  ~ In field (listActiveFields table w1)
  /\ snd (addField table field dataType d w1) = w1
  /\ (validateDataType dataType = Ret true ->
      fst (addField table field dataType d w1) = Ret (Refused "already_exists"))
  /\ ~ In field (listActiveFields table (snd (addField table field dataType d w1)))
  /\ (forall (w2 : World) (later : list Migration),
         migrations (migrations_json w2)
         = migrations (migrations_json w1) ++ later ->
         ~ In field (listActiveFields table w2))
  /\ (forall (w' : World) (m : Migration),
         In m (migrations (migrations_json w')) ->
         mig_type m = soft_delete_field -> mig_table m = table ->
         ~ In (mig_field m) (listActiveFields table w')).
Proof.
  intros H. apply removeField_soft_success in H.
  destruct H as (Hv & Hon & Htb & (cols & Hl & Hc) & m & Hm & Hty & Hta & Hfi).
  assert (Hhid : ~ In field (listActiveFields table w1)).
  { rewrite <- Hfi. apply soft_delete_record_hides; auto.
    rewrite Hm. apply in_or_app. right. now left. }
  assert (Hsame : snd (addField table field dataType d w1) = w1).
  { destruct (validateDataType dataType) as [b|e] eqn:Et.
    - apply validateDataType_true in Et as Hb. subst b.
      erewrite addField_existing; eauto. congruence.
    - unfold addField. run_m. rewrite Hv, Et. reflexivity. }
  split; [exact Hhid |]. split; [exact Hsame |]. split; [| split; [| split]].
  - intros Et. erewrite addField_existing; eauto. congruence.
  - rewrite Hsame. exact Hhid.
  - intros w2 later Hlater. rewrite <- Hfi.
    apply soft_delete_record_hides; auto.
    rewrite Hlater, Hm. apply in_or_app. left. apply in_or_app. right. now left.
  - intros w' m' Hin Ht' Htab'. now apply soft_delete_record_hides.
Qed.

Lemma soft_deleted_field_stays_hidden_witness :
  ~ In "steps" (listActiveFields "metrics"
                  (snd (addField "metrics" "steps" "INTEGER" None
                          (snd (removeField "metrics" "steps" true fresh)))))
  /\ ~ In "steps"
         (listActiveFields "metrics"
            (set_migrations
               {| migrations :=
                    migrations
                      (migrations_json
                         (snd (removeField "metrics" "steps" true fresh)))
                    ++ [ {| mig_id := "add_metrics_steps_2000";
                            mig_type := add_field; mig_table := "metrics";
                            mig_field := "steps";
                            mig_dataType := Some "INTEGER"%string;
                            mig_sql := None; mig_note := None;
                            executed_at := 2000 |} ];
                  last_migration := Some "add_metrics_steps_2000"%string |}
               (snd (removeField "metrics" "steps" true fresh)))).
Proof.
  pose proof (@soft_deleted_field_stays_hidden "metrics" "steps" "INTEGER" None
                fresh (snd (removeField "metrics" "steps" true fresh))
                (Some true) "steps" "metrics") as H.
  destruct H as (_ & _ & _ & H4 & H5 & _); [vm_compute; reflexivity |].
  split; [exact H4 |].
  eapply H5. reflexivity.
Defined.

(** C2, counterexample.  On the fresh installation, soft-deleting
    [steps] and adding it again does not bring it back into the view. *)
Lemma soft_delete_not_reversible : ~ soft_delete_reversible.
Proof.
  intros H.
  specialize (H fresh "metrics" "steps" "INTEGER" eq_refl).
  destruct H as [_ H]. vm_compute in H.
  repeat (destruct H as [H | H]; [discriminate |]). exact H.
Qed.

End SchemaClaims.

(* ================================================================== *)
(** ** Facts about directories *)

Module DirectoryFacts.
Import ComponentManager RegexFacts SchemaFacts.

Lemma lookup_put_other {A : Type} k k' (v : A) l :
  k <> k' -> lookup k (put k' v l) = lookup k l.
Proof.
  intros Hne. induction l as [|[k0 v0] l IH]; cbn [put lookup].
  - destruct (String.eqb_spec k k'); [contradiction | reflexivity].
  - destruct (String.eqb_spec k' k0) as [->|Hk]; cbn [lookup].
    + destruct (String.eqb_spec k k0); [contradiction | reflexivity].
    + destruct (String.eqb_spec k k0); [reflexivity | exact IH].
Qed.

Lemma lookup_absent {A : Type} k (l : list (string * A)) :
  ~ In k (map fst l) -> lookup k l = None.
Proof.
  induction l as [|[k' v] l IH]; cbn [lookup map fst In]; [reflexivity |].
  intros H. destruct (String.eqb_spec k k') as [->|Hne].
  - exfalso. apply H. now left.
  - apply IH. intros Hin. apply H. now right.
Qed.

(** In a directory with one file of a name, a file that was unlinked
    is no longer found. *)
Lemma lookup_remove_same {A : Type} k (l : list (string * A)) :
  NoDup (map fst l) -> lookup k (remove_key k l) = None.
Proof.
  induction l as [|[k' v] l IH]; cbn [remove_key lookup map fst];
    [reflexivity |].
  intros H. inversion H as [|? ? Hnot Hl]; subst.
  destruct (String.eqb_spec k k') as [->|Hne].
  - now apply lookup_absent.
  - cbn [lookup]. destruct (String.eqb_spec k k'); [contradiction |].
    now apply IH.
Qed.


Lemma in_put_keys {A : Type} x k (v : A) l :
  In x (map fst (put k v l)) -> x = k \/ In x (map fst l).
Proof.
  induction l as [|[k' v'] l IH]; cbn [put map fst In].
  - intros [<-|[]]. now left.
  - destruct (String.eqb_spec k k') as [->|Hne]; cbn [map fst In].
    + intros [<-|H]; [now left | right; now right].
    + intros [<-|H]; [right; now left |].
      destruct (IH H) as [->|Hin]; [now left | right; now right].
Qed.

(** Writing a file keeps one file of a name. *)
Lemma put_NoDup {A : Type} k (v : A) l :
  NoDup (map fst l) -> NoDup (map fst (put k v l)).
Proof.
  induction l as [|[k' v'] l IH]; cbn [put map fst].
  - intros _. constructor; [intros [] | constructor].
  - intros H. inversion H as [|? ? Hnot Hl]; subst.
    destruct (String.eqb_spec k k') as [->|Hne]; cbn [map fst].
    + now constructor.
    + constructor; [| now apply IH].
      intros Hin. apply in_put_keys in Hin. destruct Hin as [->|Hin];
        [now apply Hne | contradiction].
Qed.

Lemma put_keeps {A : Type} k k' (v : A) l :
  lookup k l <> None -> lookup k (put k' v l) <> None.
Proof.
  destruct (String.eqb_spec k k') as [->|Hne].
  - intros _. rewrite lookup_put_same. discriminate.
  - now rewrite lookup_put_other.
Qed.

End DirectoryFacts.

(* ================================================================== *)
(** ** Component registry *)

Module RegistryFacts.
Import ComponentManager Claims SchemaFacts.

Ltac run_r :=
  cbv beta iota zeta delta
      [bind ret throw lift gets modify try_catch now
       set_tables set_migrations set_active set_custom set_backups set_pushed
       getActiveComponents registerComponent unregisterComponent
       deleteComponent unlink listComponents saveComponent loadComponent
       createBackup registry_step component_names];
  cbn [db_online db_tables migrations_json active_json custom_dir backups_dir
       clock ticks pushed fst snd version components last_modified].

Lemma find_name_some l n :
  In n (map name l) ->
  exists c, find (fun c => String.eqb (name c) n) l = Some c.
Proof.
  induction l as [|c l IH]; simpl; [intros [] |].
  intros [H | H].
  - subst n. rewrite String.eqb_refl. eauto.
  - destruct (String.eqb (name c) n); eauto.
Qed.

Lemma find_name_none l n :
  find (fun c => String.eqb (name c) n) l = None -> ~ In n (map name l).
Proof.
  induction l as [|c l IH]; simpl; [intros _ [] |].
  destruct (String.eqb (name c) n) eqn:E; [discriminate |].
  intros H [Hn | Hn]; [| now apply IH].
  subst n. now rewrite String.eqb_refl in E.
Qed.

Lemma NoDup_snoc (l : list string) (n : string) :
  NoDup l -> ~ In n l -> NoDup (l ++ [n]).
Proof.
  induction 1 as [|x l Hx Hl IH]; simpl; intros Hn.
  - repeat constructor. intros [].
  - constructor.
    + intros H. apply in_app_or in H. destruct H as [H | [H | []]]; auto.
    + apply IH. auto.
Qed.

Lemma splice_first_incl n l r :
  splice_first n l = Some r -> forall x, In x (map name r) -> In x (map name l).
Proof.
  revert r. induction l as [|c l IH]; simpl; intros r; [discriminate |].
  destruct (String.eqb (name c) n).
  - intros [= <-] x H. now right.
  - destruct (splice_first n l) as [r'|]; [| discriminate].
    simpl. intros [= <-] x [H | H]; [now left | right; eapply IH; eauto].
Qed.

Lemma splice_first_NoDup n l r :
  splice_first n l = Some r -> NoDup (map name l) -> NoDup (map name r).
Proof.
  revert r. induction l as [|c l IH]; simpl; intros r; [discriminate |].
  destruct (String.eqb (name c) n).
  - intros [= <-] H. now inversion H.
  - destruct (splice_first n l) as [r'|] eqn:E; [| discriminate].
    simpl. intros [= <-] H. inversion H as [|? ? Hc Hl]; subst.
    constructor; [| now apply IH].
    intros Hin. apply Hc. eapply splice_first_incl; eauto.
Qed.

(** A name not held by the list cannot be spliced out; the first entry
    of a held name can. *)
Lemma splice_first_snoc n l c :
  ~ In n (map name l) -> name c = n -> splice_first n (l ++ [c]) = Some l.
Proof.
  intros Hn Hc. induction l as [|x l IH]; simpl.
  - rewrite Hc, String.eqb_refl. reflexivity.
  - destruct (String.eqb (name x) n) eqn:E.
    + apply String.eqb_eq in E. exfalso. apply Hn. now left.
    + rewrite IH; [reflexivity |]. intros H. apply Hn. now right.
Qed.

Lemma registerComponent_duplicate info w :
  In (info_name info) (component_names w) ->
  registerComponent info w = (Ret false, w).
Proof.
  intros H. apply find_name_some in H. destruct H as (c & H).
  destruct w as [on tb lg ac cu bk cl tk pu]. run_r.
  cbn [active_json] in H. rewrite H. reflexivity.
Qed.

Lemma registerComponent_NoDup info w :
  NoDup (component_names w) ->
  NoDup (component_names (snd (registerComponent info w))).
Proof.
  intros H.
  destruct w as [on tb lg ac cu bk cl tk pu]. run_r.
  destruct (find _ (components ac)) as [c|] eqn:E; run_r; [exact H |].
  rewrite map_app. apply NoDup_snoc; [exact H |].
  now apply find_name_none in E.
Qed.

Lemma unregisterComponent_NoDup n w :
  NoDup (component_names w) ->
  NoDup (component_names (snd (unregisterComponent n w))).
Proof.
  intros H.
  destruct w as [on tb lg ac cu bk cl tk pu]. run_r.
  destruct (splice_first n (components ac)) as [r|] eqn:E; run_r; [| exact H].
  eapply splice_first_NoDup; eauto.
Qed.

Lemma deleteComponent_NoDup n w :
  NoDup (component_names w) ->
  NoDup (component_names (snd (deleteComponent n w))).
Proof.
  intros H.
  destruct w as [on tb lg ac cu bk cl tk pu]. run_r.
  destruct (lookup (filename n) cu); run_r; [| exact H].
  destruct (splice_first n (components ac)) as [r|] eqn:E; run_r; [| exact H].
  eapply splice_first_NoDup; eauto.
Qed.

Lemma registry_step_NoDup op w :
  NoDup (component_names w) ->
  NoDup (component_names (snd (registry_step op w))).
Proof.
  destruct op; simpl.
  - apply registerComponent_NoDup.
  - apply unregisterComponent_NoDup.
  - apply deleteComponent_NoDup.
Qed.

End RegistryFacts.

(* ================================================================== *)
(** ** The modification processor *)

Module ServerFacts.
Import ModificationDetector SchemaMigration ComponentGenerator ComponentManager.
Import Server Claims SchemaFacts RegistryFacts.

Ltac run_s :=
  cbv beta iota zeta delta
      [bind ret throw lift gets modify try_catch now
       set_tables set_migrations set_active set_custom set_backups set_pushed
       table_info run_add_column fieldExists getMigrationsLog logMigration
       listMigrations addField removeField
       getActiveComponents registerComponent unregisterComponent
       deleteComponent unlink listComponents saveComponent loadComponent
       createBackup generateComponent sendPushNotification failure];
  cbn [db_online db_tables migrations_json active_json custom_dir backups_dir
       clock ticks pushed fst snd version components last_modified existsb
       migrations last_migration].

Ltac simp_s :=
  run_s;
  repeat match goal with
         | H : ?x = _ |- context [?x] => rewrite H; run_s
         end.

Ltac split_s t :=
  let E := fresh "E" in
  destruct t eqn:E; simp_s; try discriminate.

(** The acceptance check decides what [generateComponent] resolves to. *)
Lemma generateComponent_rejects anthropic req w :
  gate_rejects (anthropic req) = true ->
  exists e, generateComponent anthropic req w = (Ret (NotGenerated e), w).
Proof.
  unfold gate_rejects. destruct w as [on tb lg ac cu bk cl tk pu]. run_s.
  destruct (anthropic req) as [e | text n]; run_s.
  - eauto.
  - intros ->. run_s. eauto.
Qed.

Lemma generateComponent_accepts anthropic req w :
  gate_rejects (anthropic req) = false ->
  exists code md,
    generateComponent anthropic req w = (Ret (Generated code md), snd (now w))
    /\ Js.startsWith code "export default function" = true.
Proof.
  unfold gate_rejects. destruct w as [on tb lg ac cu bk cl tk pu]. run_s.
  destruct (anthropic req) as [e | text n]; run_s; [discriminate |].
  intros H. rewrite H. run_s. eexists. eexists. split; [reflexivity |].
  now apply negb_false_iff in H.
Qed.

(** With a reply the check rejects, [addMetricTracker] writes neither a
    component file nor the registry document, and does not resolve to
    a success. *)
Lemma addMetricTracker_rejected anthropic m ct tpl w :
  (forall req, gate_rejects (anthropic req) = true) ->
  custom_dir (snd (addMetricTracker anthropic m ct tpl w)) = custom_dir w
  /\ active_json (snd (addMetricTracker anthropic m ct tpl w)) = active_json w
  /\ (forall r, fst (addMetricTracker anthropic m ct tpl w) = Ret r ->
                 success r = false).
Proof.
  intros H. destruct w as [on tb lg ac cu bk cl tk pu].
  unfold addMetricTracker. run_s.
  split_s (validateFieldName (metricToFieldName m)).
  2: { repeat split; intros; discriminate. }
  split_s (validateDataType (inferDataType m)).
  2: { repeat split; intros; discriminate. }
  destruct on; simp_s.
  2: { repeat split; intros; discriminate. }
  split_s (lookup "metrics" tb).
  2: { repeat split; intros; discriminate. }
  match goal with |- context [existsb _ ?l] => rename l into cols end.
  match goal with
  | |- context [existsb ?p cols] => split_s (existsb p cols)
  end.
  1: { repeat split. intros r [= <-]. reflexivity. }
  match goal with
  | |- context [existsb ?p cols] => split_s (existsb p cols)
  end.
  1: { repeat split; intros; discriminate. }
  match goal with
  | |- context [anthropic ?r] =>
      set (req := r) in *; specialize (H req); unfold gate_rejects in H;
      destruct (anthropic req)
  end; run_s.
  - repeat split; intros; discriminate.
  - rewrite H. run_s. repeat split; intros; discriminate.
Qed.

Lemma addChart_rejected anthropic chartDescription w :
  (forall req, gate_rejects (anthropic req) = true) ->
  custom_dir (snd (addChart anthropic chartDescription w)) = custom_dir w
  /\ active_json (snd (addChart anthropic chartDescription w)) = active_json w
  /\ (forall r, fst (addChart anthropic chartDescription w) <> Ret r).
Proof.
  intros H. destruct w as [on tb lg ac cu bk cl tk pu].
  unfold addChart. run_s.
  match goal with
  | |- context [anthropic ?r] =>
      set (req := r) in *; specialize (H req); unfold gate_rejects in H;
      destruct (anthropic req)
  end; run_s.
  - repeat split; intros; discriminate.
  - rewrite H. run_s. repeat split; intros; discriminate.
Qed.

(** What a successful [addMetricTracker] leaves behind: the column, one
    [add_field] record at the end of the log, the component file and,
    unless the name was held already, one record at the end of the
    registry document. *)
Lemma addMetricTracker_success anthropic m ct tpl w r w1 :
  addMetricTracker anthropic m ct tpl w = (Ret r, w1) ->
  success r = true ->
  validateFieldName (metricToFieldName m) = Ret true
  /\ db_online w1 = true
  /\ (exists cols,
        lookup "metrics" (db_tables w1)
        = Some (cols ++ [ {| col_name := metricToFieldName m;
                             col_type := inferDataType m |} ]))
  /\ (exists mg,
        migrations (migrations_json w1) = migrations (migrations_json w) ++ [mg]
        /\ mig_type mg = add_field /\ mig_table mg = "metrics"
        /\ mig_field mg = metricToFieldName m)
  /\ (exists code,
        lookup (filename (metricToComponentName m)) (custom_dir w1) = Some code)
  /\ (~ In (metricToComponentName m) (component_names w) ->
      exists c,
        components (active_json w1) = components (active_json w) ++ [c]
        /\ name c = metricToComponentName m
        /\ field c = Some (metricToFieldName m)).
Proof.
  destruct w as [on tb lg ac cu bk cl tk pu].
  unfold addMetricTracker. run_s.
  destruct (validateFieldName (metricToFieldName m)) as [b|] eqn:Ef; simp_s;
    [| discriminate].
  apply validateFieldName_true in Ef as Hb. subst b.
  split_s (validateDataType (inferDataType m)).
  destruct on; simp_s; [| discriminate].
  split_s (lookup "metrics" tb).
  match goal with |- context [existsb _ ?l] => rename l into cols end.
  match goal with
  | |- context [existsb ?p cols] => split_s (existsb p cols)
  end.
  1: { intros [= <- <-]. discriminate. }
  match goal with
  | |- context [existsb ?p cols] => split_s (existsb p cols)
  end.
  match goal with
  | |- context [anthropic ?r] => set (req := r) in *; destruct (anthropic req)
  end; run_s; [discriminate |].
  match goal with
  | |- context [negb ?b] => destruct (negb b)
  end; run_s; [discriminate |].
  match goal with
  | |- context [find ?p (components ac)] =>
      destruct (find p (components ac)) eqn:Efind
  end; run_s; intros [= <- <-] _; run_s;
    (split; [reflexivity |]); (split; [reflexivity |]);
    (split; [exists cols; apply lookup_put_same |]);
    (split; [eexists; split; [reflexivity |]; repeat split |]);
    (split; [eexists; apply lookup_put_same |]).
  - intros Hn. exfalso. apply Hn. unfold component_names. cbn [active_json].
    apply find_some in Efind. destruct Efind as [Hin Hname].
    apply String.eqb_eq in Hname. cbn [info_name] in Hname.
    rewrite <- Hname. now apply in_map.
  - intros _. eexists. split; [reflexivity |]. split; reflexivity.
Qed.

Lemma inferDataType_valid m : validateDataType (inferDataType m) = Ret true.
Proof.
  unfold inferDataType.
  repeat match goal with
         | |- context [if ?b then _ else _] => destruct b
         end; reflexivity.
Qed.

Lemma exact_column_collides fld cols :
  has_column fld cols = true ->
  existsb (fun c => String.eqb (Js.toLowerCase (col_name c))
                               (Js.toLowerCase fld)) cols = true.
Proof.
  unfold has_column. intros H. apply existsb_exists in H.
  destruct H as (c & Hin & Hc). apply String.eqb_eq in Hc.
  apply existsb_exists. exists c. split; [exact Hin |].
  rewrite Hc. apply String.eqb_refl.
Qed.

(** No transaction restores a snapshot.  Whenever the field of a metric
    can be added and the reply of the service is rejected,
    [addMetricTracker] throws and leaves the new column in the table:
    the store differs from the snapshot taken at the start. *)
Lemma rejected_generation_keeps_column anthropic m ct tpl w cols :
  (forall req, gate_rejects (anthropic req) = true) ->
  validateFieldName (metricToFieldName m) = Ret true ->
  db_online w = true ->
  lookup "metrics" (db_tables w) = Some cols ->
  existsb (fun c => String.eqb (Js.toLowerCase (col_name c))
                               (Js.toLowerCase (metricToFieldName m))) cols
  = false ->
  (exists e, fst (addMetricTracker anthropic m ct tpl w) = Throw e)
  /\ lookup "metrics" (db_tables (snd (addMetricTracker anthropic m ct tpl w)))
     = Some (cols ++ [ {| col_name := metricToFieldName m;
                          col_type := inferDataType m |} ])
  /\ db_tables (snd (addMetricTracker anthropic m ct tpl w)) <> db_tables w.
Proof.
  intros H Hv Hon Hl Hcol.
  assert (Hex : has_column (metricToFieldName m) cols = false).
  { destruct (has_column _ cols) eqn:E; [| reflexivity].
    apply exact_column_collides in E. congruence. }
  assert (Hrun :
    (exists e, fst (addMetricTracker anthropic m ct tpl w) = Throw e)
    /\ lookup "metrics" (db_tables (snd (addMetricTracker anthropic m ct tpl w)))
       = Some (cols ++ [ {| col_name := metricToFieldName m;
                            col_type := inferDataType m |} ])).
  { destruct w as [on tb lg ac cu bk cl tk pu].
    cbn [db_online db_tables] in Hon, Hl. subst on.
    unfold has_column in Hex.
    unfold addMetricTracker. run_s.
    rewrite Hv, (inferDataType_valid m). run_s.
    rewrite Hl, Hex. run_s. rewrite Hl, Hcol. run_s.
    match goal with
    | |- context [anthropic ?r] =>
        set (req := r) in *; specialize (H req); unfold gate_rejects in H;
        destruct (anthropic req)
    end; run_s.
    - split; [eauto | apply lookup_put_same].
    - rewrite H. run_s. split; [eauto | apply lookup_put_same]. }
  destruct Hrun as [He Hl']. split; [exact He |]. split; [exact Hl' |].
  intros Heq. rewrite Heq, Hl in Hl'. injection Hl' as Hl'.
  apply (f_equal (@List.length Column)) in Hl'.
  rewrite length_app in Hl'. simpl in Hl'. lia.
Qed.

(** *** Invariants through the monad *)

Section Preservation.

Variable I : World -> Prop.

Lemma preserves_ret {A : Type} (a : A) : preserves I (ret a).
Proof. intros w H. exact H. Qed.

Lemma preserves_throw {A : Type} (e : string) : preserves I (@throw A e).
Proof. intros w H. exact H. Qed.

Lemma preserves_lift {A : Type} (o : Outcome A) : preserves I (lift o).
Proof. intros w H. exact H. Qed.

Lemma preserves_gets {A : Type} (f : World -> A) : preserves I (gets f).
Proof. intros w H. exact H. Qed.

Lemma preserves_bind {A B : Type} (m : M A) (k : A -> M B) :
  preserves I m -> (forall a, preserves I (k a)) -> preserves I (bind m k).
Proof.
  intros Hm Hk w H. unfold bind. specialize (Hm w H).
  destruct (m w) as [[a|e] w']; cbn [snd] in *; [now apply Hk | exact Hm].
Qed.

Lemma preserves_try_catch {A : Type} (m : M A) (h : string -> M A) :
  preserves I m -> (forall e, preserves I (h e)) -> preserves I (try_catch m h).
Proof.
  intros Hm Hh w H. unfold try_catch. specialize (Hm w H).
  destruct (m w) as [[a|e] w']; cbn [snd] in *; [exact Hm | now apply Hh].
Qed.

End Preservation.

(** An invariant that reads one part of the world is kept by whatever
    leaves that part alone. *)
Lemma preserves_frame {A X : Type} (f : World -> X) (P : X -> Prop) (m : M A) :
  (forall w, f (snd (m w)) = f w) -> preserves (fun w => P (f w)) m.
Proof. intros H w Hw. now rewrite H. Qed.

Ltac frame_by_run :=
  let w := fresh "w" in
  intros w; destruct w as [on tb lg ac cu bk cl tk pu]; run_s;
  repeat match goal with
         | |- context [match ?x with _ => _ end] =>
             lazymatch x with
             | context [match _ with _ => _ end] => fail
             | _ => destruct x
             end; run_s
         end;
  reflexivity.

Lemma createBackup_active w : active_json (snd (createBackup w)) = active_json w.
Proof. revert w. frame_by_run. Qed.

Lemma addField_active table fld ty d w :
  active_json (snd (addField table fld ty d w)) = active_json w.
Proof. revert w. frame_by_run. Qed.

Lemma addField_backups table fld ty d w :
  backups_dir (snd (addField table fld ty d w)) = backups_dir w.
Proof. revert w. frame_by_run. Qed.

Lemma removeField_active table fld soft w :
  active_json (snd (removeField table fld soft w)) = active_json w.
Proof. revert w. frame_by_run. Qed.

Lemma generateComponent_active anthropic req w :
  active_json (snd (generateComponent anthropic req w)) = active_json w.
Proof. revert w. frame_by_run. Qed.

Lemma generateComponent_backups anthropic req w :
  backups_dir (snd (generateComponent anthropic req w)) = backups_dir w.
Proof. revert w. frame_by_run. Qed.

Lemma saveComponent_active n code md w :
  active_json (snd (saveComponent n code md w)) = active_json w.
Proof. revert w. frame_by_run. Qed.

Lemma saveComponent_backups n code md w :
  backups_dir (snd (saveComponent n code md w)) = backups_dir w.
Proof. revert w. frame_by_run. Qed.

Lemma registerComponent_backups info w :
  backups_dir (snd (registerComponent info w)) = backups_dir w.
Proof. revert w. frame_by_run. Qed.

Lemma sendPushNotification_active msg ty w :
  active_json (snd (sendPushNotification msg ty w)) = active_json w.
Proof. revert w. frame_by_run. Qed.

Lemma sendPushNotification_backups msg ty w :
  backups_dir (snd (sendPushNotification msg ty w)) = backups_dir w.
Proof. revert w. frame_by_run. Qed.

Lemma deleteComponent_backups n w :
  backups_dir (snd (deleteComponent n w)) = backups_dir w.
Proof. revert w. frame_by_run. Qed.

(** *** Unique names through every transaction *)

Lemma names_frame {A : Type} (m : M A) :
  (forall w, active_json (snd (m w)) = active_json w) ->
  preserves names_unique m.
Proof.
  intros H.
  apply (preserves_frame active_json
           (fun a => NoDup (map name (components a)))). exact H.
Qed.

Create HintDb names_db discriminated.

Lemma names_createBackup : preserves names_unique createBackup.
Proof. apply names_frame. exact createBackup_active. Qed.

Lemma names_addField t f ty d : preserves names_unique (addField t f ty d).
Proof. apply names_frame. intros w. apply addField_active. Qed.

Lemma names_removeField t f s : preserves names_unique (removeField t f s).
Proof. apply names_frame. intros w. apply removeField_active. Qed.

Lemma names_generateComponent a r :
  preserves names_unique (generateComponent a r).
Proof. apply names_frame. intros w. apply generateComponent_active. Qed.

Lemma names_saveComponent n c md :
  preserves names_unique (saveComponent n c md).
Proof. apply names_frame. intros w. apply saveComponent_active. Qed.

Lemma names_sendPushNotification msg ty :
  preserves names_unique (sendPushNotification msg ty).
Proof. apply names_frame. intros w. apply sendPushNotification_active. Qed.

Lemma names_listComponents : preserves names_unique listComponents.
Proof. intros w H. exact H. Qed.

Lemma names_listMigrations : preserves names_unique listMigrations.
Proof. intros w H. exact H. Qed.

Lemma names_registerComponent info :
  preserves names_unique (registerComponent info).
Proof. intros w. apply registerComponent_NoDup. Qed.

Lemma names_deleteComponent n : preserves names_unique (deleteComponent n).
Proof. intros w. apply deleteComponent_NoDup. Qed.

#[local] Hint Resolve names_createBackup names_addField names_removeField
  names_generateComponent names_saveComponent names_sendPushNotification
  names_listComponents names_listMigrations names_registerComponent
  names_deleteComponent : names_db.

Ltac keep_names :=
  repeat first
    [ apply preserves_ret | apply preserves_throw | apply preserves_lift
    | apply preserves_gets
    | solve [auto with names_db]
    | apply preserves_bind; [| intros ?]
    | match goal with
      | |- preserves _ (match ?x with _ => _ end) => destruct x
      end ].

(** Every transaction of the processor keeps the names of the registry
    document pairwise distinct. *)
Lemma processModification_names_unique anthropic modRequest :
  preserves names_unique (processModification anthropic modRequest).
Proof.
  unfold processModification, addMetricTracker, removeMetricTracker,
    addChart, undoLastModification.
  cbv zeta. keep_names.
Qed.

(** *** Undo *)

Ltac run_top :=
  cbv beta iota zeta delta
      [bind ret throw gets listMigrations getMigrationsLog listComponents
       getActiveComponents];
  cbn [fst snd].

Lemma deleteComponent_backups_tables n w :
  backups_dir (snd (deleteComponent n w)) = backups_dir w
  /\ db_tables (snd (deleteComponent n w)) = db_tables w.
Proof.
  destruct w as [on tb lg ac cu bk cl tk pu]. run_s.
  destruct (lookup (filename n) cu); run_s; [| split; reflexivity].
  destruct (splice_first n (components ac)); run_s; split; reflexivity.
Qed.

Lemma removeField_backups table fld soft w :
  backups_dir (snd (removeField table fld soft w)) = backups_dir w.
Proof.
  destruct w as [on tb lg ac cu bk cl tk pu]. run_s.
  destruct (validateFieldName fld); run_s; [| reflexivity].
  match goal with |- context [negb ?b] => destruct b end; run_s;
    [destruct soft |]; reflexivity.
Qed.

(** Undo makes no snapshot and never touches the tables. *)
Lemma undo_backups_tables w :
  backups_dir (snd (undoLastModification w)) = backups_dir w
  /\ db_tables (snd (undoLastModification w)) = db_tables w.
Proof.
  assert (Hbody : forall migs comps,
    let lastMigration := last (map Some migs) None in
    let lastComponent := last (map Some comps) None in
    forall k : M ModResult,
      k = (if Nat.ltb
                match lastMigration with Some m => executed_at m | None => 0 end
                match lastComponent with Some c => registered_at c | None => 0 end
           then match lastComponent with
                | None => throw (type_error "name")
                | Some c =>
                    bind (deleteComponent (name c))
                         (fun _ => ret {| success := true;
                            message := ("Undid addition of " ++ description c)%string;
                            reason := None; component := None; res_field := None;
                            backup := None; res_type := Some "component";
                            res_note := None |})
                end
           else match lastMigration with
                | None => throw (type_error "type")
                | Some m =>
                    match mig_type m with
                    | add_field =>
                        bind (removeField (mig_table m) (mig_field m) true)
                             (fun _ => ret {| success := true;
                                message := ("Undid addition of " ++ mig_field m
                                            ++ " field")%string;
                                reason := None; component := None;
                                res_field := None; backup := None;
                                res_type := Some "migration";
                                res_note := None |})
                    | soft_delete_field =>
                        ret (failure "Could not undo last modification"
                                     "undo_failed")
                    end
                end) ->
      backups_dir (snd (k w)) = backups_dir w
      /\ db_tables (snd (k w)) = db_tables w).
  { intros migs comps lm lc k ->.
    destruct (Nat.ltb _ _).
    - destruct lc as [c|]; [| split; reflexivity].
      run_top. pose proof (deleteComponent_backups_tables (name c) w) as H.
      destruct (deleteComponent (name c) w) as [[b|e] w']; exact H.
    - destruct lm as [m|]; [| split; reflexivity].
      destruct (mig_type m); [| split; reflexivity].
      run_top.
      pose proof (removeField_backups (mig_table m) (mig_field m) true w) as H.
      pose proof (removeField_tables (mig_table m) (mig_field m) true w) as H'.
      destruct (removeField (mig_table m) (mig_field m) true w) as [[b|e] w'];
        split; assumption. }
  unfold undoLastModification. run_top.
  destruct (migrations (migrations_json w)) as [|m ms] eqn:Em;
    destruct (components (active_json w)) as [|c cs] eqn:Ec;
    try (split; reflexivity);
    eapply Hbody; reflexivity.
Qed.

(** *** The snapshot of the adding and removing transactions *)

Lemma backups_frame {A : Type} b (m : M A) :
  (forall w, backups_dir (snd (m w)) = backups_dir w) ->
  preserves (backups_are b) m.
Proof.
  intros H. apply (preserves_frame backups_dir (fun x => x = b)). exact H.
Qed.

Ltac keep_backups :=
  repeat first
    [ apply preserves_ret | apply preserves_throw | apply preserves_lift
    | apply preserves_gets
    | apply backups_frame; intros ?;
      first [ apply addField_backups | apply removeField_backups
            | apply generateComponent_backups | apply saveComponent_backups
            | apply registerComponent_backups
            | apply sendPushNotification_backups
            | apply deleteComponent_backups | reflexivity ]
    | apply preserves_bind; [| intros ?]
    | match goal with
      | |- preserves _ (match ?x with _ => _ end) => destruct x
      end ].

Lemma createBackup_snapshot w :
  exists dir w1, createBackup w = (Ret dir, w1) /\ holds_snapshot_of w w1.
Proof.
  destruct w as [on tb lg ac cu bk cl tk pu]. run_s.
  eexists. eexists. split; [reflexivity |].
  eexists. eexists. split; [apply lookup_put_same |]. split; reflexivity.
Qed.

Lemma snapshot_then {A : Type} (k : string -> M A) w :
  (forall dir b, preserves (backups_are b) (k dir)) ->
  holds_snapshot_of w (snd (bind createBackup k w)).
Proof.
  intros Hk. destruct (createBackup_snapshot w) as (dir & w1 & E & H).
  unfold bind. rewrite E.
  specialize (Hk dir (backups_dir w1) w1 eq_refl). unfold backups_are in Hk.
  unfold holds_snapshot_of in *. rewrite Hk. exact H.
Qed.

(** The adding and removing transactions take their snapshot first:
    whatever happens afterwards, the world they leave holds a snapshot
    of the tables and of the registry document they started from. *)
Lemma snapshot_taken_first anthropic w :
  (forall m ct tpl,
      holds_snapshot_of w (snd (addMetricTracker anthropic m ct tpl w)))
  /\ (forall m, holds_snapshot_of w (snd (removeMetricTracker m w)))
  /\ (forall d, holds_snapshot_of w (snd (addChart anthropic d w))).
Proof.
  split; [| split]; intros;
    unfold addMetricTracker, removeMetricTracker, addChart;
    apply snapshot_then; intros dir b; cbv zeta; keep_backups.
Qed.

Lemma last_snoc {A : Type} (l : list A) (x : A) :
  last (map Some (l ++ [x])) None = Some x.
Proof. rewrite map_app. simpl. apply last_last. Qed.

(** When the last component was registered after the last migration
    was logged, undo deletes that component and nothing else. *)
Lemma undo_component_newer w comps c code :
  components (active_json w) = comps ++ [c] ->
  ~ In (name c) (map name comps) ->
  lookup (filename (name c)) (custom_dir w) = Some code ->
  migrationTime w < componentTime w ->
  components (active_json (snd (undoLastModification w))) = comps
  /\ migrations_json (snd (undoLastModification w)) = migrations_json w
  /\ db_online (snd (undoLastModification w)) = db_online w
  /\ db_tables (snd (undoLastModification w)) = db_tables w.
Proof.
  destruct w as [on tb lg ac cu bk cl tk pu].
  unfold migrationTime, componentTime.
  cbn [active_json custom_dir migrations_json].
  intros Hc Hn Hf Ht. rewrite Hc, last_snoc in Ht.
  apply Nat.ltb_lt in Ht.
  unfold undoLastModification. run_s. rewrite Hc.
  destruct (migrations lg) eqn:Em; destruct (comps ++ [c]) eqn:Ec;
    try (apply app_eq_nil in Ec; destruct Ec as [_ Ec]; discriminate);
    rewrite <- Ec; rewrite last_snoc; rewrite Ht; run_s; rewrite Hf; run_s;
    rewrite Hc; rewrite <- ?Ec; rewrite (splice_first_snoc _ _ Hn eq_refl);
    run_s; repeat split; reflexivity.
Qed.

Lemma soft_deleted_hidden table fld w :
  (exists m, In m (migrations (migrations_json w))
             /\ mig_type m = soft_delete_field
             /\ mig_table m = table /\ mig_field m = fld) ->
  ~ In fld (listActiveFields table w).
Proof.
  intros (m & Hin & Ht & Htab & <-). now apply soft_delete_record_hides.
Qed.

(** When the last migration is an [add_field] logged no earlier than
    the last component was registered, undo soft-deletes that field
    and leaves the registry and the component files alone. *)
Lemma undo_migration_not_older w migs mg cols :
  migrations (migrations_json w) = migs ++ [mg] ->
  mig_type mg = add_field ->
  componentTime w <= migrationTime w ->
  validateFieldName (mig_field mg) = Ret true ->
  db_online w = true ->
  lookup (mig_table mg) (db_tables w) = Some cols ->
  has_column (mig_field mg) cols = true ->
  active_json (snd (undoLastModification w)) = active_json w
  /\ custom_dir (snd (undoLastModification w)) = custom_dir w
  /\ db_tables (snd (undoLastModification w)) = db_tables w
  /\ ~ In (mig_field mg)
          (listActiveFields (mig_table mg) (snd (undoLastModification w))).
Proof.
  destruct w as [on tb lg ac cu bk cl tk pu].
  unfold migrationTime, componentTime, has_column.
  cbn [active_json custom_dir migrations_json db_online db_tables].
  intros Hm Hty Ht Hv -> Hl Hc. rewrite Hm, last_snoc in Ht.
  apply Nat.ltb_ge in Ht.
  unfold undoLastModification. run_s. rewrite Hm.
  destruct (migs ++ [mg]) eqn:Em;
    [apply app_eq_nil in Em; destruct Em as [_ Em]; discriminate |].
  rewrite <- Em. rewrite last_snoc. rewrite Ht. run_s.
  rewrite Hty. run_s. rewrite Hv. run_s. rewrite Hl, Hc. run_s.
  repeat split.
  apply soft_deleted_hidden. eexists. split.
  - cbn [migrations_json migrations]. apply in_or_app. right. left. reflexivity.
  - repeat split.
Qed.

(** The file a successful [addMetricTracker] wrote: the components
    directory is the one it found, with the file of the component
    written into it. *)
Lemma addMetricTracker_files anthropic m ct tpl w r w1 :
  addMetricTracker anthropic m ct tpl w = (Ret r, w1) ->
  success r = true ->
  exists code,
    custom_dir w1 = put (filename (metricToComponentName m)) code (custom_dir w).
Proof.
  destruct w as [on tb lg ac cu bk cl tk pu].
  unfold addMetricTracker. run_s.
  destruct (validateFieldName (metricToFieldName m)) as [b|] eqn:Ef; simp_s;
    [| discriminate].
  split_s (validateDataType (inferDataType m)).
  destruct on; simp_s; [| discriminate].
  split_s (lookup "metrics" tb).
  match goal with |- context [existsb _ ?l] => rename l into cols end.
  match goal with
  | |- context [existsb ?p cols] => split_s (existsb p cols)
  end.
  1: { intros [= <- <-]. discriminate. }
  match goal with
  | |- context [existsb ?p cols] => split_s (existsb p cols)
  end.
  match goal with
  | |- context [anthropic ?r] => set (req := r) in *; destruct (anthropic req)
  end; run_s; [discriminate |].
  match goal with
  | |- context [negb ?b] => destruct (negb b)
  end; run_s; [discriminate |].
  match goal with
  | |- context [find ?p (components ac)] =>
      destruct (find p (components ac)) eqn:Efind
  end; run_s; intros [= <- <-] _; run_s; eexists; reflexivity.
Qed.

(** In the same case undo unlinks the file of that component and
    leaves every other file alone. *)
Lemma undo_component_newer_files w comps c code :
  components (active_json w) = comps ++ [c] ->
  ~ In (name c) (map name comps) ->
  lookup (filename (name c)) (custom_dir w) = Some code ->
  migrationTime w < componentTime w ->
  custom_dir (snd (undoLastModification w))
  = remove_key (filename (name c)) (custom_dir w).
Proof.
  destruct w as [on tb lg ac cu bk cl tk pu].
  unfold migrationTime, componentTime.
  cbn [active_json custom_dir migrations_json].
  intros Hc Hn Hf Ht. rewrite Hc, last_snoc in Ht.
  apply Nat.ltb_lt in Ht.
  unfold undoLastModification. run_s. rewrite Hc.
  destruct (migrations lg) eqn:Em; destruct (comps ++ [c]) eqn:Ec;
    try (apply app_eq_nil in Ec; destruct Ec as [_ Ec]; discriminate);
    rewrite <- Ec; rewrite last_snoc; rewrite Ht; run_s; rewrite Hf; run_s;
    rewrite Hc; rewrite <- ?Ec; rewrite (splice_first_snoc _ _ Hn eq_refl);
    run_s; reflexivity.
Qed.

End ServerFacts.

(* ================================================================== *)
(** ** Claims on the processor *)

Module ServerClaims.
Import ModificationDetector SchemaMigration ComponentGenerator ComponentManager.
Import Server Claims Scenario SchemaFacts RegistryFacts ServerFacts.

Lemma water_field : metricToFieldName "water" = "water".
Proof. vm_compute. reflexivity. Qed.

Lemma water_component : metricToComponentName "water" = "Water".
Proof. vm_compute. reflexivity. Qed.

Lemma active_field_listed table fld w cols :
  db_online w = true ->
  lookup table (db_tables w) = Some cols ->
  In fld (map col_name cols) ->
  ~ In fld (soft_deleted table (migrations_json w)) ->
  In fld (listActiveFields table w).
Proof.
  intros Hon Hl Hin Hs. unfold listActiveFields.
  rewrite getActiveFields_eq. cbn [fst]. rewrite Hon, Hl.
  apply filter_In. split; [exact Hin |].
  apply negb_true_iff. destruct (Js.arr_includes _ fld) eqn:E; [| reflexivity].
  exfalso. apply Hs. unfold Js.arr_includes in E.
  apply existsb_exists in E. destruct E as (x & Hx & Ex).
  apply String.eqb_eq in Ex. now subst x.
Qed.

Lemma soft_deleted_add table lg lg' mg :
  migrations lg' = migrations lg ++ [mg] ->
  mig_type mg = add_field ->
  soft_deleted table lg' = soft_deleted table lg.
Proof.
  intros E H. unfold soft_deleted. rewrite E, filter_app. simpl.
  unfold is_soft_delete at 2. rewrite H. simpl. now rewrite app_nil_r.
Qed.

(** C5, as amended.  After a successful [addMetricTracker("water")] that
    created the field and registered the component, undo reverses only
    the more recent of the two records.  If the component was
    registered at a later instant than the migration was logged, the
    Water component is deleted and unregistered: its file, which the
    transaction had written, is unlinked from the components directory
    and no other file is touched (so that, in a directory that held
    one file of a name, the component no longer loads), and the
    registry holds the components it held before the addition, while
    the migration log is left as it is and [water] stays in the active
    fields.  Otherwise the [water] field is soft-deleted while the
    registry document and the component files are left as they are:
    Water stays registered and its file stays in place. *)
Theorem undo_reverses_newer_record_only
  (anthropic : Anthropic) (ct : string) (tpl : option string)
  (w w1 : World) (r : ModResult) :
  addMetricTracker anthropic "water" ct tpl w = (Ret r, w1) ->
  success r = true ->
  ~ In "Water" (component_names w) ->
  ~ In "water" (soft_deleted "metrics" (migrations_json w)) ->
  (migrationTime w1 < componentTime w1 ->
   ~ In "Water" (component_names (snd (undoLastModification w1)))
   /\ migrations_json (snd (undoLastModification w1)) = migrations_json w1
   /\ In "water" (listActiveFields "metrics" (snd (undoLastModification w1)))
   /\ components (active_json (snd (undoLastModification w1)))
      = components (active_json w)
   /\ lookup "Water.jsx" (custom_dir w1) <> None
   /\ custom_dir (snd (undoLastModification w1))
      = remove_key "Water.jsx" (custom_dir w1)
   /\ (NoDup (map fst (custom_dir w)) ->
       lookup "Water.jsx" (custom_dir (snd (undoLastModification w1))) = None
       /\ fst (loadComponent "Water" (snd (undoLastModification w1)))
          = Ret None))
  /\ (componentTime w1 <= migrationTime w1 ->
      ~ In "water" (listActiveFields "metrics" (snd (undoLastModification w1)))
      /\ active_json (snd (undoLastModification w1)) = active_json w1
      /\ In "Water" (component_names (snd (undoLastModification w1)))
      /\ custom_dir (snd (undoLastModification w1)) = custom_dir w1
      /\ lookup "Water.jsx" (custom_dir (snd (undoLastModification w1)))
         <> None).
Proof.
  intros Hrun Hok Hnew Hsoft.
  destruct (addMetricTracker_files _ _ _ _ _ Hrun Hok) as (code' & Hput).
  apply addMetricTracker_success in Hrun; [| exact Hok].
  rewrite water_field, water_component in Hrun.
  rewrite water_component in Hput.
  change (filename "Water") with "Water.jsx"%string in *.
  destruct Hrun as (Hv & Hon & (cols & Hcols) & (mg & Hlog & Hty & Htab & Hfld)
                    & (code & Hfile) & Hreg).
  destruct (Hreg Hnew) as (c & Hcomps & Hname & _).
  split.
  - intros Ht.
    assert (Hfile' : lookup (filename (name c)) (custom_dir w1) = Some code)
      by (rewrite Hname; exact Hfile).
    assert (Hnew' : ~ In (name c) (map name (components (active_json w))))
      by (rewrite Hname; exact Hnew).
    destruct (@undo_component_newer w1 (components (active_json w)) c code)
      as (Hc2 & Hm2 & Hon2 & Htb2); auto.
    pose proof (@undo_component_newer_files w1 (components (active_json w))
                  c code Hcomps Hnew' Hfile' Ht) as Hcu2.
    rewrite Hname in Hcu2.
    change (filename "Water") with "Water.jsx"%string in Hcu2.
    assert (Hgone : NoDup (map fst (custom_dir w)) ->
              lookup "Water.jsx" (custom_dir (snd (undoLastModification w1)))
              = None).
    { intros Hone. rewrite Hcu2, Hput.
      apply DirectoryFacts.lookup_remove_same.
      now apply DirectoryFacts.put_NoDup. }
    repeat match goal with |- _ /\ _ => split end.
    + unfold component_names. rewrite Hc2. exact Hnew.
    + exact Hm2.
    + eapply active_field_listed.
      * now rewrite Hon2.
      * rewrite Htb2. exact Hcols.
      * rewrite map_app. apply in_or_app. right. now left.
      * rewrite Hm2.
        now rewrite (@soft_deleted_add "metrics" _ _ _ Hlog Hty).
    + exact Hc2.
    + rewrite Hfile. discriminate.
    + exact Hcu2.
    + intros Hone. split; [now apply Hgone |].
      unfold loadComponent, gets. cbn [fst].
      change (filename "Water") with "Water.jsx"%string.
      now rewrite (Hgone Hone).
  - intros Ht.
    destruct (@undo_migration_not_older w1 (migrations (migrations_json w)) mg
                (cols ++ [ {| col_name := "water";
                              col_type := inferDataType "water" |} ]))
      as (Ha2 & Hcu2 & Htb2 & Hhid); auto.
    + now rewrite Hfld.
    + now rewrite Htab.
    + rewrite Hfld. unfold has_column. apply existsb_last. reflexivity.
    + rewrite Hfld, Htab in Hhid. split; [exact Hhid |]. split; [exact Ha2 |].
      split; [| split; [exact Hcu2 |]].
      * unfold component_names. rewrite Ha2, Hcomps, map_app.
        apply in_or_app. right. left. exact Hname.
      * rewrite Hcu2, Hfile. discriminate.
Qed.

Lemma undo_reverses_newer_record_only_witness :
  In "water"
     (listActiveFields "metrics"
        (snd (undoLastModification
                (snd (addMetricTracker well_formed "water" "metric_input"
                        (Some "water_intake") fresh)))))
  /\ fst (loadComponent "Water"
            (snd (undoLastModification
                    (snd (addMetricTracker well_formed "water" "metric_input"
                            (Some "water_intake") fresh)))))
     = Ret None.
Proof.
  pose proof (proj1
    (@undo_reverses_newer_record_only well_formed "metric_input"
       (Some "water_intake") fresh
       (snd (addMetricTracker well_formed "water" "metric_input"
               (Some "water_intake") fresh))
       {| success := true; message := "Added water tracker to Dashboard";
          reason := None; component := Some "Water";
          res_field := Some "water";
          backup := Some "/mnt/user-data/backups/1003";
          res_type := None; res_note := None |}
       ltac:(vm_compute; reflexivity) eq_refl
       ltac:(vm_compute; intros H; exact H)
       ltac:(vm_compute; intros H; exact H))) as H.
  destruct H as (_ & _ & H3 & _ & _ & _ & H7); [vm_compute; lia |].
  split; [exact H3 |]. apply H7. constructor.
Defined.

(** C5, counterexample.  On the fresh installation, with a service
    that answers well-formed code, undo after the successful addition
    of "water" leaves [water] among the active fields. *)
Lemma undo_keeps_water_field : ~ undo_reverses_transaction.
Proof.
  intros H.
  specialize (H well_formed fresh
                (snd (addMetricTracker well_formed "water" "metric_input"
                        (Some "water_intake") fresh))
                {| success := true; message := "Added water tracker to Dashboard";
                   reason := None; component := Some "Water";
                   res_field := Some "water";
                   backup := Some "/mnt/user-data/backups/1003";
                   res_type := None; res_note := None |}).
  destruct H as [H _].
  - vm_compute. reflexivity.
  - reflexivity.
  - vm_compute. intros H. exact H.
  - apply H. vm_compute. do 12 right. left. reflexivity.
Qed.

(** C4, as amended.  The acceptance check of [generateComponent]
    reports a failure, never a generated component, whenever the
    service fails or the text it returned, once trimmed and stripped of
    code fences, does not begin with [export default function]; with
    such replies [addMetricTracker] and [addChart] write no component
    file, leave the registry document as it is and report no success. *)
Theorem rejected_code_never_stored :
  (forall anthropic req w,
      gate_rejects (anthropic req) = true ->
      exists e, generateComponent anthropic req w = (Ret (NotGenerated e), w))
  /\ (forall anthropic,
        (forall req, gate_rejects (anthropic req) = true) ->
        forall m ct tpl w,
          custom_dir (snd (addMetricTracker anthropic m ct tpl w)) = custom_dir w
          /\ active_json (snd (addMetricTracker anthropic m ct tpl w))
             = active_json w
          /\ (forall r, fst (addMetricTracker anthropic m ct tpl w) = Ret r ->
                        success r = false))
  /\ (forall anthropic,
        (forall req, gate_rejects (anthropic req) = true) ->
        forall chartDescription w,
          custom_dir (snd (addChart anthropic chartDescription w)) = custom_dir w
          /\ active_json (snd (addChart anthropic chartDescription w))
             = active_json w
          /\ (forall r, fst (addChart anthropic chartDescription w) <> Ret r)).
Proof.
  split; [exact generateComponent_rejects |].
  split.
  - intros anthropic H m ct tpl w. now apply addMetricTracker_rejected.
  - intros anthropic H d w. now apply addChart_rejected.
Qed.

Lemma rejected_code_never_stored_witness :
  custom_dir (snd (addMetricTracker prose "water" "metric_input"
                     (Some "water_intake") fresh)) = custom_dir fresh
  /\ active_json (snd (addMetricTracker prose "water" "metric_input"
                         (Some "water_intake") fresh)) = active_json fresh.
Proof.
  destruct (proj1 (proj2 rejected_code_never_stored) prose
              (fun req => eq_refl) "water" "metric_input"
              (Some "water_intake") fresh) as (H1 & H2 & _).
  split; [exact H1 | exact H2].
Defined.

(** C4, counterexample.  A component whose body calls [eval] passes
    the check, is saved under [Water.jsx] and is registered. *)
Lemma evaluating_code_accepted : ~ gate_rejects_evaluation.
Proof.
  intros H.
  specialize (H evaluating
                {| req_type := "metric_input"; req_name := Some "Water";
                   req_description := "water tracker";
                   req_options := NoOptions |}
                fresh evaluating_code
                {| md_name := Some "Water"; md_type := "metric_input";
                   md_description := "water tracker"; generated_at := 1003;
                   tokens_used := 42 |}).
  vm_compute in H. specialize (H eq_refl). discriminate.
Qed.

Example evaluating_code_saved_and_registered :
  let w1 := snd (addMetricTracker evaluating "water" "metric_input" None fresh) in
  lookup "Water.jsx" (custom_dir w1) = Some evaluating_code
  /\ component_names w1 = ["Water"]
  /\ Js.includes evaluating_code "eval(" = true.
Proof. vm_compute. repeat split. Qed.

(** C1: the transaction is not rolled back.  On the fresh installation,
    with a service that answers prose, [addMetricTracker("water")]
    takes its snapshot, adds the column and logs the migration, then
    throws at generation; nothing restores the snapshot, so the store
    ends with the [water] column and differs from the snapshot. *)
Theorem failed_generation_not_rolled_back :
  let run := addMetricTracker prose "water" "metric_input"
                              (Some "water_intake") fresh in
  fst run = Throw "Component generation failed: Generated code does not start with export default function"
  /\ (exists dir b, backups_dir (snd run) = [(dir, b)]
                    /\ bk_db b = db_tables fresh
                    /\ bk_active b = active_json fresh)
  /\ db_tables (snd run) <> db_tables fresh
  /\ In "water" (listActiveFields "metrics" (snd run))
  /\ map mig_field (migrations (migrations_json (snd run))) = ["water"]
  /\ active_json (snd run) = active_json fresh.
Proof.
  vm_compute. split; [reflexivity |].
  split; [eexists; eexists; repeat split |].
  split; [discriminate |].
  split; [do 12 right; left; reflexivity |].
  split; reflexivity.
Qed.

(** The other failure of the same kind: a duplicate name at the
    registry.  "a1" and "a 1" derive different fields and the same
    component name; the second addition adds its column, finds the name
    registered, and still reports a success. *)
Example duplicate_registration_not_rolled_back :
  let w1 := snd (addMetricTracker well_formed "a1" "metric_input" None fresh) in
  let run := addMetricTracker well_formed "a 1" "metric_input" None w1 in
  option_map success (match fst run with Ret r => Some r | Throw _ => None end)
  = Some true
  /\ active_json (snd run) = active_json w1
  /\ component_names w1 = ["A1"]
  /\ db_tables (snd run) <> db_tables w1.
Proof. vm_compute. repeat split. discriminate. Qed.

(** C6: undo takes no snapshot.  [undoLastModification] never writes
    under the backups directory, although it changes the registry
    document: after the successful addition of "water" on the fresh
    installation it unregisters Water with no snapshot of the state it
    changes. *)
Theorem undo_takes_no_snapshot :
  (forall w, backups_dir (snd (undoLastModification w)) = backups_dir w)
  /\ (let w1 := snd (addMetricTracker well_formed "water" "metric_input"
                        (Some "water_intake") fresh) in
      component_names w1 = ["Water"]
      /\ component_names (snd (undoLastModification w1)) = []
      /\ List.length (backups_dir (snd (undoLastModification w1))) = 1).
Proof.
  split; [intros w; apply undo_backups_tables |].
  vm_compute. repeat split.
Qed.

End ServerClaims.

(* ================================================================== *)
(** ** Claim on the registry *)

Module RegistryClaims.
Import ComponentManager Claims RegistryFacts ServerFacts.

(** C10.  Registering a record whose name the registry document already
    holds resolves to [false] and leaves the world, hence the document
    with its [last_modified], as it was; register, unregister and
    delete keep the names of the document pairwise distinct; so they
    are distinct in every document reached from the empty one by
    these operations and by the transactions of the processor. *)
Theorem registry_names_unique :
  (forall info w, In (info_name info) (component_names w) ->
                  registerComponent info w = (Ret false, w))
  /\ (forall op w, NoDup (component_names w) ->
                   NoDup (component_names (snd (registry_step op w))))
  /\ (forall w, registry_reachable w -> NoDup (component_names w)).
Proof.
  split; [exact registerComponent_duplicate |].
  split; [exact registry_step_NoDup |].
  induction 1 as [w H | op w _ IH | anthropic modRequest w _ IH | w w' _ IH E].
  - unfold component_names. rewrite H. constructor.
  - now apply registry_step_NoDup.
  - now apply processModification_names_unique.
  - unfold component_names in *. now rewrite E.
Qed.

Lemma registry_names_unique_witness :
  registerComponent Scenario.water_info
    (snd (registerComponent Scenario.water_info Scenario.fresh))
  = (Ret false, snd (registerComponent Scenario.water_info Scenario.fresh)).
Proof.
  apply (proj1 registry_names_unique). vm_compute. left. reflexivity.
Defined.

End RegistryClaims.

(* ================================================================== *)
(** * Further properties of the engine, the stores and the processor *)

Module EvolutionFacts.
Import ModificationDetector SchemaMigration ComponentGenerator ComponentManager
  Server Claims Evolution SchemaFacts DirectoryFacts RegistryFacts ServerFacts.

Lemma tables_extend_refl T : tables_extend T T.
Proof. intros t cols H. exists []. now rewrite app_nil_r. Qed.

Lemma tables_extend_trans T1 T2 T3 :
  tables_extend T1 T2 -> tables_extend T2 T3 -> tables_extend T1 T3.
Proof.
  intros H12 H23 t cols H. destruct (H12 _ _ H) as [m1 H1].
  destruct (H23 _ _ H1) as [m2 H2]. exists (m1 ++ m2).
  now rewrite app_assoc.
Qed.

Lemma tables_extend_put T table cols more :
  lookup table T = Some cols ->
  tables_extend T (put table (cols ++ more) T).
Proof.
  intros H t c Ht. destruct (String.eqb_spec t table) as [->|Hne].
  - rewrite lookup_put_same. rewrite H in Ht. injection Ht as <-.
    now exists more.
  - rewrite lookup_put_other by assumption. exists []. now rewrite app_nil_r.
Qed.

Lemma log_extends_refl l : log_extends l l.
Proof. exists []. now rewrite app_nil_r. Qed.

Lemma evolves_refl w : evolves w w.
Proof.
  repeat split; [apply tables_extend_refl | apply log_extends_refl | lia].
Qed.

Lemma evolves_trans w1 w2 w3 : evolves w1 w2 -> evolves w2 w3 -> evolves w1 w3.
Proof.
  intros (T12 & [m1 L12] & C12) (T23 & [m2 L23] & C23). repeat split.
  - eapply tables_extend_trans; eassumption.
  - exists (m1 ++ m2). now rewrite L23, L12, app_assoc.
  - lia.
Qed.

(** A step that evolves the world keeps "evolved from [w0]". *)
Lemma evolves_step {A : Type} (m : M A) :
  (forall w, evolves w (snd (m w))) ->
  forall w0, preserves (evolves w0) m.
Proof. intros H w0 w Hw. eapply evolves_trans; [exact Hw | apply H]. Qed.

(** What leaves tables and log alone and lets the clock run evolves. *)
Lemma evolves_frame w w' :
  db_tables w' = db_tables w -> migrations_json w' = migrations_json w ->
  clock w <= clock w' -> evolves w w'.
Proof.
  intros HT HL HC. unfold evolves. rewrite HT, HL.
  repeat split; [apply tables_extend_refl | apply log_extends_refl | exact HC].
Qed.

Ltac evolve_by_run :=
  let w := fresh "w" in
  intros w; destruct w as [on tb lg ac cu bk cl tk pu]; run_s;
  repeat match goal with
         | |- context [match ?x with _ => _ end] =>
             lazymatch x with
             | context [match _ with _ => _ end] => fail
             | _ => destruct x
             end; run_s
         end;
  apply evolves_frame; cbn [db_tables migrations_json clock]; (reflexivity || lia).

Lemma createBackup_evolves w : evolves w (snd (createBackup w)).
Proof. revert w. evolve_by_run. Qed.

Lemma generateComponent_evolves a r w :
  evolves w (snd (generateComponent a r w)).
Proof. revert w. evolve_by_run. Qed.

Lemma saveComponent_evolves n c md w : evolves w (snd (saveComponent n c md w)).
Proof. revert w. evolve_by_run. Qed.

Lemma registerComponent_evolves i w : evolves w (snd (registerComponent i w)).
Proof. revert w. evolve_by_run. Qed.

Lemma unregisterComponent_evolves n w :
  evolves w (snd (unregisterComponent n w)).
Proof. revert w. evolve_by_run. Qed.

Lemma deleteComponent_evolves n w : evolves w (snd (deleteComponent n w)).
Proof. revert w. evolve_by_run. Qed.

Lemma sendPushNotification_evolves m t w :
  evolves w (snd (sendPushNotification m t w)).
Proof. revert w. evolve_by_run. Qed.

Lemma listComponents_evolves w : evolves w (snd (listComponents w)).
Proof. apply evolves_refl. Qed.

Lemma listMigrations_evolves w : evolves w (snd (listMigrations w)).
Proof. apply evolves_refl. Qed.

Lemma removeField_evolves table fld soft w :
  evolves w (snd (removeField table fld soft w)).
Proof.
  destruct w as [on tb lg ac cu bk cl tk pu]. run_s.
  destruct (validateFieldName fld); run_s; [| apply evolves_refl].
  match goal with |- context [negb ?b] => destruct b end;
    cbn [negb]; run_s; [| apply evolves_refl].
  destruct soft; run_s; [| apply evolves_refl].
  repeat split; cbn [db_tables migrations_json clock migrations].
  - apply tables_extend_refl.
  - eexists. reflexivity.
  - lia.
Qed.

Lemma addField_evolves table fld ty d w :
  evolves w (snd (addField table fld ty d w)).
Proof.
  destruct w as [on tb lg ac cu bk cl tk pu]. run_s.
  destruct (validateFieldName fld); run_s; [| apply evolves_refl].
  destruct (validateDataType ty); run_s; [| apply evolves_refl].
  destruct on; run_s; [| apply evolves_refl].
  destruct (lookup table tb) as [cols|] eqn:El; simp_s;
    [| apply evolves_refl].
  destruct (existsb (fun col => String.eqb (col_name col) fld) cols); simp_s;
    [apply evolves_refl |].
  match goal with |- context [existsb ?p cols] => destruct (existsb p cols) end;
    simp_s; [apply evolves_refl |].
  repeat split; cbn [db_tables migrations_json clock migrations].
  - now apply tables_extend_put.
  - eexists. reflexivity.
  - lia.
Qed.

Create HintDb evolve_db discriminated.

#[local] Hint Resolve createBackup_evolves generateComponent_evolves
  saveComponent_evolves registerComponent_evolves unregisterComponent_evolves
  deleteComponent_evolves sendPushNotification_evolves listComponents_evolves
  listMigrations_evolves removeField_evolves addField_evolves : evolve_db.

Ltac keep_evolving :=
  repeat first
    [ apply preserves_ret | apply preserves_throw | apply preserves_lift
    | apply preserves_gets
    | solve [apply evolves_step; intros ?; auto with evolve_db]
    | apply preserves_bind; [| intros ?]
    | match goal with
      | |- preserves _ (match ?x with _ => _ end) => destruct x
      end ].

Lemma processModification_evolves anthropic modRequest w0 :
  preserves (evolves w0) (processModification anthropic modRequest).
Proof.
  unfold processModification, addMetricTracker, removeMetricTracker,
    addChart, undoLastModification.
  cbv zeta. keep_evolving.
Qed.

Lemma process_all_evolves anthropic requests w :
  evolves w (process_all anthropic requests w).
Proof.
  unfold process_all. revert w.
  induction requests as [|r rs IH]; intros w; cbn [fold_left].
  - apply evolves_refl.
  - eapply evolves_trans; [| apply IH].
    apply (@processModification_evolves anthropic r w w), evolves_refl.
Qed.


(** *** Time order *)

Lemma Forall_le_later l a b :
  Forall (fun t => t <= a) l -> a <= b -> Forall (fun t => t <= b) l.
Proof. intros H Hab. eapply Forall_impl; [| exact H]. cbn. intros; lia. Qed.

Lemma ascending_snoc l x :
  ascending l -> Forall (fun t => t <= x) l -> ascending (l ++ [x]).
Proof.
  induction l as [|t l IH]; cbn [ascending app]; intros Ha Hx.
  - split; [constructor | exact I].
  - destruct Ha as [Ht Ha]. inversion Hx as [|? ? Htx Hlx]; subst. split.
    + apply Forall_app. split; [exact Ht | repeat constructor; exact Htx].
    + now apply IH.
Qed.

Lemma splice_first_instants n l r :
  splice_first n l = Some r ->
  (ascending (map registered_at l) -> ascending (map registered_at r))
  /\ (forall P, Forall P (map registered_at l) -> Forall P (map registered_at r)).
Proof.
  revert r. induction l as [|c l IH]; cbn [splice_first]; intros r H;
    [discriminate |].
  destruct (String.eqb (name c) n).
  - injection H as <-. cbn [map ascending]. split.
    + now intros [_ Ha].
    + intros P HP. now inversion HP.
  - destruct (splice_first n l) as [r'|]; [| discriminate].
    injection H as <-. destruct (IH r' eq_refl) as [IHa IHf].
    cbn [map ascending]. split.
    + intros [Hc Ha]. split; [now apply IHf | now apply IHa].
    + intros P HP. inversion HP; subst. constructor; [assumption | now apply IHf].
Qed.

Ltac order_goal :=
  unfold in_time_order;
  cbn [db_online db_tables migrations_json active_json custom_dir backups_dir
       clock ticks pushed migrations last_migration components last_modified
       version];
  rewrite ?map_app;
  cbn [map stamp executed_at registered_at registered];
  repeat match goal with |- _ /\ _ => split end;
  first
    [ assumption
    | apply ascending_snoc;
      [assumption | eapply Forall_le_later; [eassumption | lia]]
    | eapply Forall_le_later; [eassumption | lia]
    | apply Forall_app; split;
      [eapply Forall_le_later; [eassumption | lia] | repeat constructor; lia] ].

Ltac order_by_run :=
  let w := fresh "w" in
  let H := fresh "H" in
  intros w H; destruct w as [on tb lg ac cu bk cl tk pu];
  destruct H as (H1 & H2 & H3 & H4);
  cbn [migrations_json active_json clock] in H1, H2, H3, H4;
  run_s;
  repeat match goal with
         | |- context [match ?x with _ => _ end] =>
             lazymatch x with
             | context [match _ with _ => _ end] => fail
             | _ => destruct x eqn:?
             end; simp_s; cbn [negb]
         | |- context [if negb ?x then _ else _] => destruct x eqn:?; cbn [negb]; simp_s
         | |- context [if ?x then _ else _] => destruct x eqn:?; simp_s
         end;
  order_goal.

Lemma order_createBackup : preserves in_time_order createBackup.
Proof. order_by_run. Qed.

Lemma order_generateComponent a r :
  preserves in_time_order (generateComponent a r).
Proof. order_by_run. Qed.

Lemma order_saveComponent n c md : preserves in_time_order (saveComponent n c md).
Proof. order_by_run. Qed.

Lemma order_sendPushNotification m t :
  preserves in_time_order (sendPushNotification m t).
Proof. order_by_run. Qed.

Lemma order_listComponents : preserves in_time_order listComponents.
Proof. intros w H. exact H. Qed.

Lemma order_listMigrations : preserves in_time_order listMigrations.
Proof. intros w H. exact H. Qed.

Lemma order_registerComponent i : preserves in_time_order (registerComponent i).
Proof. order_by_run. Qed.

Lemma order_unregisterComponent n :
  preserves in_time_order (unregisterComponent n).
Proof.
  intros w H. destruct w as [on tb lg ac cu bk cl tk pu].
  destruct H as (H1 & H2 & H3 & H4).
  cbn [migrations_json active_json clock] in H1, H2, H3, H4. run_s.
  destruct (splice_first n (components ac)) as [r|] eqn:E; run_s.
  - destruct (splice_first_instants _ _ E) as [Ha Hf].
    specialize (Ha H3). specialize (Hf _ H4). order_goal.
  - order_goal.
Qed.

Lemma order_deleteComponent n : preserves in_time_order (deleteComponent n).
Proof.
  unfold deleteComponent. apply preserves_try_catch.
  - apply preserves_bind; [| intros ?; apply preserves_bind;
                               [apply order_unregisterComponent
                               | intros ?; apply preserves_ret]].
    intros w H. destruct w as [on tb lg ac cu bk cl tk pu].
    destruct H as (H1 & H2 & H3 & H4).
    cbn [migrations_json active_json clock] in H1, H2, H3, H4. run_s.
    destruct (lookup (filename n) cu); run_s; order_goal.
  - intros ?. apply preserves_ret.
Qed.

Lemma order_removeField table fld soft :
  preserves in_time_order (removeField table fld soft).
Proof. order_by_run. Qed.

Lemma order_addField table fld ty d :
  preserves in_time_order (addField table fld ty d).
Proof. order_by_run. Qed.

Create HintDb order_db discriminated.

#[local] Hint Resolve order_createBackup order_generateComponent
  order_saveComponent order_sendPushNotification order_listComponents
  order_listMigrations order_registerComponent order_deleteComponent
  order_removeField order_addField : order_db.




(** *** The head of the log *)

Ltac headed_by_run :=
  let w := fresh "w" in
  let H := fresh "H" in
  intros w H; destruct w as [on tb lg ac cu bk cl tk pu];
  unfold log_headed in H; cbn [migrations_json] in H;
  run_s;
  repeat match goal with
         | |- context [match ?x with _ => _ end] =>
             lazymatch x with
             | context [match _ with _ => _ end] => fail
             | _ => destruct x eqn:?
             end; simp_s; cbn [negb]
         | |- context [if negb ?x then _ else _] => destruct x eqn:?; cbn [negb]; simp_s
         | |- context [if ?x then _ else _] => destruct x eqn:?; simp_s
         end;
  unfold log_headed; cbn [snd migrations_json migrations last_migration];
  first [ assumption
        | rewrite map_app; cbn [map]; rewrite last_last; reflexivity ].

Lemma headed_createBackup : preserves log_headed createBackup.
Proof. headed_by_run. Qed.

Lemma headed_generateComponent a r : preserves log_headed (generateComponent a r).
Proof. headed_by_run. Qed.

Lemma headed_saveComponent n c md : preserves log_headed (saveComponent n c md).
Proof. headed_by_run. Qed.

Lemma headed_sendPushNotification m t :
  preserves log_headed (sendPushNotification m t).
Proof. headed_by_run. Qed.

Lemma headed_listComponents : preserves log_headed listComponents.
Proof. intros w H. exact H. Qed.

Lemma headed_listMigrations : preserves log_headed listMigrations.
Proof. intros w H. exact H. Qed.

Lemma headed_registerComponent i : preserves log_headed (registerComponent i).
Proof. headed_by_run. Qed.

Lemma headed_deleteComponent n : preserves log_headed (deleteComponent n).
Proof. headed_by_run. Qed.

Lemma headed_removeField table fld soft :
  preserves log_headed (removeField table fld soft).
Proof. headed_by_run. Qed.

Lemma headed_addField table fld ty d :
  preserves log_headed (addField table fld ty d).
Proof. headed_by_run. Qed.

Create HintDb headed_db discriminated.

#[local] Hint Resolve headed_createBackup headed_generateComponent
  headed_saveComponent headed_sendPushNotification headed_listComponents
  headed_listMigrations headed_registerComponent headed_deleteComponent
  headed_removeField headed_addField : headed_db.

Ltac keep_headed :=
  repeat first
    [ apply preserves_ret | apply preserves_throw | apply preserves_lift
    | apply preserves_gets
    | solve [auto with headed_db]
    | apply preserves_bind; [| intros ?]
    | match goal with
      | |- preserves _ (match ?x with _ => _ end) => destruct x
      end ].

Lemma processModification_headed anthropic modRequest :
  preserves log_headed (processModification anthropic modRequest).
Proof.
  unfold processModification, addMetricTracker, removeMetricTracker,
    addChart, undoLastModification.
  cbv zeta. keep_headed.
Qed.

(** An invariant of every transaction is an invariant of a conversation. *)
Lemma process_all_preserves (I : World -> Prop) anthropic :
  (forall modRequest, preserves I (processModification anthropic modRequest)) ->
  forall requests w, I w -> I (process_all anthropic requests w).
Proof.
  intros H requests. unfold process_all.
  induction requests as [|r rs IH]; intros w Hw; cbn [fold_left];
    [exact Hw | apply IH, H, Hw].
Qed.

Lemma soft_deleted_extends table l l' fld :
  log_extends l l' -> In fld (soft_deleted table l) -> In fld (soft_deleted table l').
Proof.
  intros [more E]. unfold soft_deleted. rewrite E, filter_app, map_app.
  intros H. apply in_or_app. now left.
Qed.



End EvolutionFacts.

Module EvolutionProperties.
Import ModificationDetector SchemaMigration ComponentGenerator ComponentManager
  Server Claims Evolution Scenario EvolutionFacts.

(** X1.  Whatever requests the processor handles, with whatever answers
    of the generation service, every table keeps the columns it had,
    in the same order: columns are only ever appended. *)
Theorem schema_only_grows (anthropic : Anthropic) (requests : list Detected)
  (w : World) (table : string) (cols : list Column) :
  lookup table (db_tables w) = Some cols ->
  exists more,
    lookup table (db_tables (process_all anthropic requests w))
    = Some (cols ++ more).
Proof.
  intros H.
  destruct (process_all_evolves anthropic requests w) as (HT & _ & _).
  exact (HT _ _ H).
Qed.

Lemma schema_only_grows_witness :
  exists more,
    lookup "metrics"
      (db_tables (process_all well_formed
                    (detected_in ["track water"; "stop tracking water"]) fresh))
    = Some (metrics_columns ++ more).
Proof. apply (@schema_only_grows well_formed _ fresh "metrics"). reflexivity. Defined.

(** X2.  The migration log is append-only: after any sequence of
    requests the records it held are still there, unchanged and in
    their order, before the new ones. *)
Theorem log_only_grows (anthropic : Anthropic) (requests : list Detected)
  (w : World) :
  exists more,
    migrations (migrations_json (process_all anthropic requests w))
    = migrations (migrations_json w) ++ more.
Proof.
  destruct (process_all_evolves anthropic requests w) as (_ & HL & _).
  exact HL.
Qed.

(** X3.  A soft-deleted field never comes back: once the log holds a
    soft-delete record of a field of a table, no sequence of requests
    makes the field active again. *)
Theorem soft_delete_is_permanent (anthropic : Anthropic)
  (requests : list Detected) (w : World) (table fld : string) :
  In fld (soft_deleted table (migrations_json w)) ->
  ~ In fld (listActiveFields table (process_all anthropic requests w)).
Proof.
  intros H.
  destruct (process_all_evolves anthropic requests w) as (_ & HL & _).
  pose proof (@soft_deleted_extends table _ _ fld HL H) as H'.
  unfold soft_deleted in H'. apply in_map_iff in H'.
  destruct H' as (m & Hf & Hm). apply filter_In in Hm.
  destruct Hm as [Hin Hm]. apply andb_prop in Hm. destruct Hm as [Hs Ht].
  apply ServerFacts.soft_deleted_hidden. exists m.
  repeat split; try assumption.
  - unfold is_soft_delete in Hs. destruct (mig_type m); [discriminate | reflexivity].
  - now apply String.eqb_eq.
Qed.

Lemma soft_delete_is_permanent_witness :
  ~ In "steps"
       (listActiveFields "metrics"
          (process_all well_formed (detected_in ["track steps"; "undo that"])
             (snd (removeField "metrics" "steps" true fresh)))).
Proof.
  apply (@soft_delete_is_permanent well_formed _
           (snd (removeField "metrics" "steps" true fresh)) "metrics" "steps").
  vm_compute. now left.
Defined.



(** X5.  [last_migration] always names the last record of the log: the
    property holds for the empty log and is kept by every request. *)
Theorem last_migration_names_last_record (anthropic : Anthropic)
  (requests : list Detected) (w : World) :
  log_headed w -> log_headed (process_all anthropic requests w).
Proof.
  apply process_all_preserves. intros r. apply processModification_headed.
Qed.

Lemma last_migration_names_last_record_witness :
  log_headed (process_all well_formed (detected_in ["track water"]) fresh).
Proof.
  apply (@last_migration_names_last_record well_formed _ fresh). reflexivity.
Defined.

End EvolutionProperties.

Module EngineProperties.
Import ModificationDetector SchemaMigration ComponentGenerator ComponentManager
  Server Claims Evolution Scenario Situations SchemaFacts ServerFacts
  EvolutionFacts.


(** X7.  A handle that does not answer.  [fieldExists] takes the error
    for "no such column" and [getActiveFields] for "no columns": for a
    well-formed name [removeField] then reports [not_found], whatever
    the table holds, the list of active fields is empty, and [addField]
    reports the error of the statement; nothing is changed and nothing
    is thrown. *)
Theorem unanswering_handle (table fld ty : string) (d : option string)
  (soft : bool) (w : World) :
  db_online w = false ->
  validateFieldName fld = Ret true ->
  removeField table fld soft w = (Ret (Refused "not_found"), w)
  /\ getActiveFields table w = (Ret [], w)
  /\ (validateDataType ty = Ret true ->
      exists e, addField table fld ty d w = (Ret (Failed e), w)).
Proof.
  intros Hoff Hv. destruct w as [on tb lg ac cu bk cl tk pu].
  cbn [db_online] in Hoff. subst on. repeat split.
  - run_s. rewrite Hv. run_s. reflexivity.
  - intros Ht. run_s. rewrite Hv. run_s. rewrite Ht. run_s.
    eexists. reflexivity.
Qed.

Lemma unanswering_handle_witness :
  removeField "metrics" "steps" true (unanswering fresh)
  = (Ret (Refused "not_found"), unanswering fresh)
  /\ getActiveFields "metrics" (unanswering fresh) = (Ret [], unanswering fresh).
Proof.
  destruct (@unanswering_handle "metrics" "steps" "INTEGER" None true
              (unanswering fresh) eq_refl eq_refl) as (H1 & H2 & _).
  exact (conj H1 H2).
Defined.

(** X8.  Soft deletion can be repeated.  The column of a soft-deleted
    field is still there, so a second [removeField] of the same field
    succeeds again and appends a second [soft_delete_field] record
    (there is no "already removed" answer). *)
Theorem soft_delete_repeats (table fld : string) (w w1 : World)
  (s : option bool) (f t : string) :
  removeField table fld true w = (Ret (Success s f t), w1) ->
  exists w2 m1 m2,
    removeField table fld true w1 = (Ret (Success (Some true) fld table), w2)
    /\ migrations (migrations_json w2)
       = migrations (migrations_json w) ++ [m1; m2]
    /\ mig_type m1 = soft_delete_field /\ mig_field m1 = fld
    /\ mig_type m2 = soft_delete_field /\ mig_field m2 = fld
    /\ db_tables w2 = db_tables w.
Proof.
  intros H.
  destruct (removeField_soft_success _ _ _ H)
    as (Hv & Hon & Htb & (cols & Hl & Hc) & (m1 & Hm & Hty & _ & Hf)).
  destruct w1 as [on1 tb1 lg1 ac1 cu1 bk1 cl1 tk1 pu1].
  cbn [db_online db_tables migrations_json] in Hon, Htb, Hm. subst on1 tb1.
  unfold has_column in Hc.
  run_s. rewrite Hv. run_s. rewrite Hl. run_s. rewrite Hc. cbn [negb]. run_s.
  eexists _, m1, _. split; [reflexivity |].
  cbn [migrations_json migrations db_tables]. rewrite Hm, <- app_assoc.
  repeat split; try reflexivity; assumption.
Qed.

Lemma soft_delete_repeats_witness :
  exists w2,
    removeField "metrics" "steps" true
                (snd (removeField "metrics" "steps" true fresh))
    = (Ret (Success (Some true) "steps" "metrics"), w2).
Proof.
  destruct (@soft_delete_repeats "metrics" "steps" fresh
              (snd (removeField "metrics" "steps" true fresh))
              (Some true) "steps" "metrics" eq_refl)
    as (w2 & _ & _ & H & _).
  exists w2. exact H.
Defined.

End EngineProperties.

Module ShapeFacts.
Import Regex ModificationDetector SchemaMigration Shapes RegexFacts.

Lemma class_first x :
  class_ok SchemaMigration.i_flag false letter_or_underscore x = first_unit x.
Proof. destruct x as [[] [] [] [] [] [] [] []]; reflexivity. Qed.

Lemma class_later x :
  class_ok SchemaMigration.i_flag false word_char x = later_unit x.
Proof. destruct x as [[] [] [] [] [] [] [] []]; reflexivity. Qed.

Section Anchored.

Variable fl : flags.
Hypothesis single_line : multiline fl = false.
Variables first later : ascii -> bool.

Lemma star_class_to_end l :
  forall n p cs, List.length l <= n ->
    match flat_map (run fl Eol)
            (star_iter (run fl (Class false later)) true n
                       {| prev := p; rest := l; caps := cs |}) with
    | [] => false
    | _ :: _ => true
    end = forallb (class_ok fl false later) l.
Proof.
  induction l as [|x l IH]; intros n p cs Hn.
  - assert (E : star_iter (run fl (Class false later)) true n
                  {| prev := p; rest := []; caps := cs |}
                = [ {| prev := p; rest := []; caps := cs |} ]).
    { destruct n; cbn [star_iter]; [reflexivity |].
      rewrite run_Class, step1_nil. reflexivity. }
    rewrite E. reflexivity.
  - destruct n as [|n]; [cbn in Hn; lia |].
    cbn [star_iter forallb]. rewrite run_Class, step1_cons.
    destruct (class_ok fl false later x); cbn [andb].
    + rewrite flat_map_one. cbn [rest].
      replace (List.length l <? List.length (x :: l)) with true
        by (symmetry; apply Nat.ltb_lt; cbn; lia).
      rewrite flat_map_app, flat_map_one.
      assert (E : run fl Eol {| prev := p; rest := x :: l; caps := cs |} = []).
      { cbn [run]. unfold at_eol. cbn [rest]. now rewrite single_line. }
      rewrite E, app_nil_r. apply IH. cbn in Hn. lia.
    + cbn [flat_map app].
      assert (E : run fl Eol {| prev := p; rest := x :: l; caps := cs |} = []).
      { cbn [run]. unfold at_eol. cbn [rest]. now rewrite single_line. }
      rewrite E. reflexivity.
Qed.

Lemma anchored_first p c l :
  run fl (anchored first later) (start p (c :: l)) =
  if at_bol fl (start p (c :: l)) && class_ok fl false first c
  then flat_map (run fl Eol)
         (star_iter (run fl (Class false later)) true (List.length l)
            {| prev := Some c; rest := l; caps := [] |})
  else [].
Proof.
  unfold anchored. cbn [seqs]. rewrite run_Seq, run_Bol.
  destruct (at_bol fl (start p (c :: l))); [| reflexivity].
  rewrite flat_map_one, run_Seq, run_Class. unfold start.
  rewrite step1_cons. cbn [andb].
  destruct (class_ok fl false first c); [| reflexivity].
  rewrite flat_map_one, run_Seq, run_Star. reflexivity.
Qed.

Lemma anchored_empty p : run fl (anchored first later) (start p []) = [].
Proof.
  unfold anchored. cbn [seqs]. rewrite run_Seq, run_Bol.
  destruct (at_bol fl (start p [])); [| reflexivity].
  rewrite flat_map_one, run_Seq, run_Class. unfold start.
  rewrite step1_nil. reflexivity.
Qed.

Lemma anchored_later : forall l c, search fl (anchored first later) (Some c) l = None.
Proof.
  induction l as [|x l IH]; intros c; cbn [search]; unfold match_here.
  - rewrite anchored_empty. reflexivity.
  - rewrite anchored_first. cbn [at_bol start prev]. rewrite single_line.
    cbn [andb hd_error]. apply IH.
Qed.

Lemma anchored_search l :
  match search fl (anchored first later) None l with Some _ => true | None => false end
  = match l with
    | [] => false
    | c :: l' => class_ok fl false first c && forallb (class_ok fl false later) l'
    end.
Proof.
  destruct l as [|c l]; cbn [search]; unfold match_here.
  - rewrite anchored_empty. reflexivity.
  - rewrite anchored_first. cbn [at_bol start prev andb].
    destruct (class_ok fl false first c); cbn [andb hd_error].
    + rewrite <- (@star_class_to_end l (List.length l) (Some c) [] (le_n _)).
      destruct (flat_map _ _); cbn [hd_error]; [| reflexivity].
      rewrite anchored_later. reflexivity.
    + rewrite anchored_later. reflexivity.
Qed.

End Anchored.

Lemma test_field_name s :
  test SchemaMigration.i_flag field_name_pattern s = identifier s.
Proof.
  unfold test, identifier.
  change field_name_pattern with (anchored letter_or_underscore word_char).
  rewrite (@anchored_search SchemaMigration.i_flag eq_refl).
  destruct (Js.chars s) as [|c l]; [reflexivity |].
  rewrite class_first. f_equal.
  induction l as [|x l IH]; [reflexivity |].
  cbn [forallb]. now rewrite class_later, IH.
Qed.

(** *** Component names *)

Lemma split_from_keeps (P : ascii -> Prop) fl r :
  (forall p c l, match_here fl r p (c :: l) = None -> P c) ->
  (forall p c l m, match_here fl r p (c :: l) = Some m ->
                   List.length (c :: l) - List.length (rest m) = 0 -> P c) ->
  forall l p skip cur,
    Forall P cur -> Forall (Forall P) (split_from fl r p l skip cur).
Proof.
  intros Hnone Hzero.
  induction l as [|c l IH]; intros p skip cur Hcur; cbn [split_from].
  - constructor; [| constructor]. now apply Forall_rev.
  - destruct skip as [|k]; [| now apply IH].
    destruct (match_here fl r p (c :: l)) as [m|] eqn:E.
    + destruct (List.length (c :: l) - List.length (rest m)) eqn:El.
      * apply IH. constructor; [| exact Hcur]. eapply Hzero; eassumption.
      * constructor; [now apply Forall_rev | apply IH; constructor].
    + apply IH. constructor; [| exact Hcur]. eapply Hnone; eassumption.
Qed.

Lemma words_alnum s :
  Forall (Forall (fun c => alnum c = true))
         (split_from no_flag non_alnum_run None (Js.chars s) 0 []).
Proof.
  apply split_from_keeps; [| | constructor].
  - intros p c l H. apply plus_class_none in H.
    unfold class_ok in H. cbn [ignoreCase no_flag] in H.
    now destruct (alnum c).
  - intros p c l m H Hz. apply plus_class_some in H. cbn [List.length] in Hz. lia.
Qed.

Lemma upper_unit_ok c : unit_ok c -> unit_ok (Js.upper_char c).
Proof.
  unfold unit_ok. destruct c as [[] [] [] [] [] [] [] []];
    vm_compute; intros H; first [reflexivity | discriminate H].
Qed.

Lemma alnum_unit_ok c : alnum c = true -> unit_ok c.
Proof.
  unfold unit_ok, alnum, letter. intros H. apply orb_prop in H.
  destruct H as [-> | ->]; [reflexivity | apply orb_true_r].
Qed.

Lemma upper_not_lower c : Js.is_lower (Js.upper_char c) = false.
Proof. destruct c as [[] [] [] [] [] [] [] []]; reflexivity. Qed.

Lemma upper_is_not_lower c : Js.is_upper c = true -> Js.is_lower c = false.
Proof.
  destruct c as [[] [] [] [] [] [] [] []];
    vm_compute; intros H; first [reflexivity | discriminate H].
Qed.

Lemma capitalize_units w :
  Forall (fun c => alnum c = true) (Js.chars w) ->
  Forall unit_ok (Js.chars (capitalize w)).
Proof.
  destruct w as [|c w]; [constructor |].
  change (Js.chars (capitalize (String c w))) with (Js.upper_char c :: Js.chars w).
  change (Js.chars (String c w)) with (c :: Js.chars w).
  intros H. inversion H as [|? ? Hc Hw]; subst. constructor.
  - now apply upper_unit_ok, alnum_unit_ok.
  - eapply Forall_impl; [| exact Hw]. apply alnum_unit_ok.
Qed.

Lemma concat_units (l : list string) :
  Forall (fun w => Forall unit_ok (Js.chars w)) l ->
  Forall unit_ok (Js.chars (String.concat "" l)).
Proof.
  induction 1 as [|w l Hw Hl IH]; [constructor |].
  destruct l as [|w' l]; [exact Hw |].
  change (String.concat "" (w :: w' :: l))
    with (w ++ "" ++ String.concat "" (w' :: l))%string.
  rewrite !DetectorFacts.chars_append. apply Forall_app. split; [exact Hw |].
  exact IH.
Qed.

Lemma joined_units s :
  Forall unit_ok
    (Js.chars (String.concat ""
                 (map capitalize
                      (split no_flag non_alnum_run (Js.toLowerCase s))))).
Proof.
  apply concat_units. unfold split. rewrite Forall_map, Forall_map.
  eapply Forall_impl; [| apply words_alnum].
  intros w Hw. apply capitalize_units. now rewrite chars_text.
Qed.

Lemma leading_later : forall l q f,
  replace_first no_flag leading_non_capital f (Some q) l = l.
Proof.
  induction l as [|c l IH]; intros q f; cbn [replace_first]; unfold match_here;
    unfold leading_non_capital; rewrite run_Seq, run_Bol;
    cbn [at_bol start prev multiline no_flag andb flat_map hd_error].
  - reflexivity.
  - now rewrite IH.
Qed.

Lemma leading_first c l :
  replace_first no_flag leading_non_capital (map Js.upper_char) None (c :: l)
  = (if Js.is_upper c then c else Js.upper_char c) :: l.
Proof.
  cbn [replace_first]. unfold match_here, leading_non_capital.
  rewrite run_Seq, run_Bol. cbn [at_bol start prev].
  rewrite flat_map_one, run_Class. unfold start. rewrite step1_cons.
  unfold class_ok. cbn [ignoreCase no_flag].
  destruct (Js.is_upper c); cbn [negb hd_error].
  - now rewrite leading_later.
  - unfold consumed. cbn [rest List.length].
    replace (S (List.length l) - List.length l) with 1 by lia.
    reflexivity.
Qed.

Lemma leading_nil f :
  replace_first no_flag leading_non_capital f None [] = [].
Proof.
  cbn [replace_first]. unfold match_here, leading_non_capital.
  rewrite run_Seq, run_Bol. cbn [at_bol start prev].
  rewrite flat_map_one, run_Class. unfold start. rewrite step1_nil.
  reflexivity.
Qed.

Lemma forallb_units (l : list ascii) :
  Forall unit_ok l -> forallb (fun c => letter c || Js.is_digit c) l = true.
Proof. intros H. apply forallb_forall. now apply Forall_forall. Qed.

(** *** The rule table *)

Lemma first_trigger_fired ts msg d :
  first_trigger ts msg = Some d ->
  exists t m,
    In t ts /\ exec ModificationDetector.i_flag (pattern t) msg = Some m
    /\ classify (extract t m) = (componentType d, details d)
    /\ d_action d = action t /\ rawMessage d = msg.
Proof.
  induction ts as [|t ts IH]; cbn [first_trigger]; [discriminate |].
  destruct (exec ModificationDetector.i_flag (pattern t) msg) as [m|] eqn:E.
  - destruct (classify (extract t m)) as [ct dd] eqn:Ec.
    intros [= <-]. exists t, m. cbn [componentType details d_action rawMessage].
    repeat split; try assumption. now left.
  - intros H. destruct (IH H) as (t' & m & Hin & H').
    exists t', m. split; [now right | exact H'].
Qed.

(** What the body of the loop makes of the details a rule extracts. *)
Lemma classify_cases dd ct d' :
  suggested_template dd = None ->
  classify dd = (ct, d') ->
  metric d' = metric dd /\ chart_description d' = chart_description dd
  /\ element d' = element dd /\ location d' = location dd
  /\ ((ct = "metric_input"%string /\ suggested_template d' = None)
      \/ (ct = "emoji_select"%string
          /\ suggested_template d' = Some "mood_tracker"%string)
      \/ (ct = "metric_input"%string
          /\ (suggested_template d' = Some "stress_level"%string
              \/ suggested_template d' = Some "focus_score"%string
              \/ suggested_template d' = Some "water_intake"%string))).
Proof.
  intros Hn. unfold classify.
  repeat match goal with
         | |- context [if ?b then _ else _] => destruct b
         end;
    intros [= <- <-]; cbn [with_template metric chart_description element
                            location suggested_template];
    repeat split; auto 6.
Qed.

Lemma extract_no_template t m :
  In t triggers -> suggested_template (extract t m) = None.
Proof.
  unfold triggers. cbn [In]. intros H.
  repeat (destruct H as [<-|H]; [reflexivity |]). contradiction.
Qed.

Lemma extract_subject t m :
  In t triggers ->
  match action t with
  | add_metric | remove_metric =>
      metric (extract t m) = Some (Js.trim (capture 1 m))
  | add_chart => chart_description (extract t m) = Some (Js.trim (capture 1 m))
  | modify_layout => element (extract t m) = Some (Js.trim (capture 1 m))
                     /\ location (extract t m) = Some (Js.trim (capture 2 m))
  | undo => True
  end
  /\ (forall x, metric (extract t m) = Some x -> x = Js.trim (capture 1 m))
  /\ (forall x, chart_description (extract t m) = Some x ->
                x = Js.trim (capture 1 m)).
Proof.
  unfold triggers. cbn [In]. intros H.
  repeat (destruct H as [<-|H];
          [cbn [action extract extract_metric extract_chart extract_layout
                extract_nothing no_details metric chart_description element
                location];
           repeat split; intros; congruence |]).
  contradiction.
Qed.

(** *** [trim] *)






End ShapeFacts.

Module ShapeProperties.
Import Regex ModificationDetector SchemaMigration ComponentGenerator Server
  Shapes RegexFacts ShapeFacts.

(** X9.  [validateFieldName] accepts exactly the identifiers that are not
    reserved: a name is accepted if and only if it is a letter of either
    case or an underscore followed by letters, digits and underscores up
    to the end of the text, and its lower-case form is none of the
    eight reserved words; every other name makes it throw (it never
    answers [false]). *)
Theorem validateFieldName_accepts_identifiers (fieldName : string) :
  (validateFieldName fieldName = Ret true <->
   identifier fieldName = true
   /\ Js.arr_includes reserved (Js.toLowerCase fieldName) = false)
  /\ validateFieldName fieldName <> Ret false.
Proof.
  unfold validateFieldName. rewrite test_field_name.
  destruct (Js.arr_includes reserved (Js.toLowerCase fieldName));
    destruct (identifier fieldName); cbn [negb];
    (split; [split; [intros H; try discriminate H; now split
                    | intros [H1 H2]; try discriminate H1; try discriminate H2;
                      reflexivity]
            | discriminate]).
Qed.

(** X10.  A component name derived from a metric name holds letters and
    digits only (so the file name built from it holds no path separator
    and no dot of its own), and it never begins with a lower-case
    letter. *)
Theorem metricToComponentName_alphanumeric (metricName : string) :
  alphanumeric (metricToComponentName metricName) = true
  /\ starts_lower (metricToComponentName metricName) = false.
Proof.
  unfold metricToComponentName. cbv zeta.
  pose proof (joined_units metricName) as H.
  destruct (Js.chars (String.concat ""
              (map capitalize
                   (split no_flag non_alnum_run (Js.toLowerCase metricName)))))
    as [|c l].
  - rewrite leading_nil. split; reflexivity.
  - rewrite leading_first. inversion H as [|? ? Hc Hl]; subst.
    unfold alphanumeric. rewrite chars_text. split.
    + apply forallb_units. constructor; [| exact Hl].
      destruct (Js.is_upper c); [exact Hc | now apply upper_unit_ok].
    + cbn [Js.text string_of_list_ascii starts_lower].
      destruct (Js.is_upper c) eqn:E;
        [now apply upper_is_not_lower | apply upper_not_lower].
Qed.

(** X11.  The type [inferDataType] picks is always one that
    [validateDataType] accepts, and it is one of INTEGER, TEXT, REAL and
    BOOLEAN: adding a metric never fails on the data type. *)
Theorem inferDataType_accepted (metricName : string) :
  validateDataType (inferDataType metricName) = Ret true
  /\ Js.arr_includes ["INTEGER"; "TEXT"; "REAL"; "BOOLEAN"]%string
                     (inferDataType metricName) = true.
Proof.
  unfold inferDataType. cbv zeta.
  repeat match goal with
         | |- context [if ?b then _ else _] => destruct b
         end; split; reflexivity.
Qed.

(** X12.  A request built by the detector carries the property its
    action reads, so the processor never meets an undefined subject:
    an add or remove request is handed to [addMetricTracker] or
    [removeMetricTracker] with the metric the rule extracted, a chart
    request to [addChart] with its description, an undo request to
    [undoLastModification].  A layout request, which the detector also
    builds, is not handled: the processor throws and changes nothing.
    The request carries the message it was built from. *)
Theorem detected_request_is_dispatched (anthropic : Anthropic)
  (userMessage : string) (modRequest : Detected) :
  detectModificationRequest userMessage = Some modRequest ->
  rawMessage modRequest = userMessage
  /\ match d_action modRequest with
     | add_metric =>
         exists m, metric (details modRequest) = Some m
                   /\ processModification anthropic modRequest
                      = addMetricTracker anthropic m (componentType modRequest)
                          (suggested_template (details modRequest))
     | remove_metric =>
         exists m, metric (details modRequest) = Some m
                   /\ processModification anthropic modRequest
                      = removeMetricTracker m
     | add_chart =>
         exists c, chart_description (details modRequest) = Some c
                   /\ processModification anthropic modRequest
                      = addChart anthropic c
     | modify_layout =>
         forall w, processModification anthropic modRequest w
                   = (Throw "Unknown modification action: modify_layout", w)
     | undo => processModification anthropic modRequest = undoLastModification
     end.
Proof.
  intros H. apply first_trigger_fired in H.
  destruct H as (t & m & Hin & _ & Hc & Ha & Hr). split; [exact Hr |].
  pose proof (@extract_no_template t m Hin) as Hn.
  destruct (classify_cases _ Hn Hc) as (Hm & Hch & _).
  destruct (@extract_subject t m Hin) as (Hs & _).
  unfold processModification. cbv zeta. rewrite Ha, Hm, Hch.
  destruct (action t).
  - eexists. split; [exact Hs |]. now rewrite Hs.
  - eexists. split; [exact Hs |]. now rewrite Hs.
  - eexists. split; [exact Hs |]. now rewrite Hs.
  - reflexivity.
  - reflexivity.
Qed.

Lemma detected_request_is_dispatched_witness :
  exists d,
    detectModificationRequest "move the mood chart to the top" = Some d
    /\ forall w, processModification Scenario.well_formed d w
                 = (Throw "Unknown modification action: modify_layout", w).
Proof.
  destruct (detectModificationRequest "move the mood chart to the top")
    as [d|] eqn:E; [| vm_compute in E; discriminate E].
  exists d. split; [reflexivity |].
  pose proof (proj2 (@detected_request_is_dispatched Scenario.well_formed
                       _ d E)) as H.
  assert (Ha : d_action d = modify_layout).
  { vm_compute in E. injection E as <-. reflexivity. }
  rewrite Ha in H. exact H.
Defined.

(** X13.  The component type of a detected request is [metric_input] or
    [emoji_select], and a template the detector suggests is one the
    generator has, of that very component type. *)
Theorem suggested_template_exists (userMessage : string)
  (modRequest : Detected) :
  detectModificationRequest userMessage = Some modRequest ->
  (componentType modRequest = "metric_input"%string
   \/ componentType modRequest = "emoji_select"%string)
  /\ match suggested_template (details modRequest) with
     | Some t => option_map req_type (getTemplate t)
                 = Some (componentType modRequest)
     | None => True
     end.
Proof.
  intros H. apply first_trigger_fired in H.
  destruct H as (t & m & Hin & _ & Hc & _).
  pose proof (@extract_no_template t m Hin) as Hn.
  destruct (classify_cases _ Hn Hc) as (_ & _ & _ & _ & Hk).
  destruct Hk as [[-> ->] | [[-> ->] | [-> [-> | [-> | ->]]]]];
    split; auto; reflexivity.
Qed.

Lemma suggested_template_exists_witness :
  exists d, detectModificationRequest "track my mood" = Some d
            /\ option_map req_type (getTemplate "mood_tracker")
               = Some (componentType d).
Proof.
  destruct (detectModificationRequest "track my mood") as [d|] eqn:E;
    [| vm_compute in E; discriminate E].
  exists d. split; [reflexivity |].
  pose proof (proj2 (@suggested_template_exists _ d E)) as H.
  assert (Ht : suggested_template (details d) = Some "mood_tracker"%string).
  { vm_compute in E. injection E as <-. reflexivity. }
  rewrite Ht in H. exact H.
Defined.



End ShapeProperties.

Module StoreFacts.
Import ModificationDetector SchemaMigration ComponentGenerator ComponentManager
  Server Claims Evolution Scenario Situations DirectoryFacts RegexFacts SchemaFacts
  RegistryFacts ServerFacts EvolutionFacts.


Lemma copy_files_keeps src : forall dst k,
  lookup k dst <> None -> lookup k (copy_files src dst) <> None.
Proof.
  unfold copy_files. induction src as [|[k' v] src IH]; intros dst k H;
    cbn [fold_left fst snd]; [exact H |].
  apply IH. now apply put_keeps.
Qed.

Lemma copy_files_other src : forall dst k,
  ~ In k (map fst src) -> lookup k (copy_files src dst) = lookup k dst.
Proof.
  unfold copy_files. induction src as [|[k' v] src IH]; intros dst k H;
    cbn [fold_left fst snd]; [reflexivity |].
  cbn [map fst In] in H. rewrite IH by tauto.
  apply lookup_put_other. intros ->. apply H. now left.
Qed.

Lemma copy_files_source src : forall dst k v,
  NoDup (map fst src) -> lookup k src = Some v ->
  lookup k (copy_files src dst) = Some v.
Proof.
  induction src as [|[k' v'] src IH]; intros dst k v Hn Hl; [discriminate |].
  inversion Hn as [|? ? Hnot Hs]; subst. cbn [lookup] in Hl.
  change (copy_files ((k', v') :: src) dst)
    with (copy_files src (put k' v' dst)).
  destruct (String.eqb_spec k k') as [->|Hne].
  - injection Hl as <-. rewrite copy_files_other by exact Hnot.
    apply lookup_put_same.
  - now apply IH.
Qed.

Lemma copy_files_NoDup src : forall dst,
  NoDup (map fst dst) -> NoDup (map fst (copy_files src dst)).
Proof.
  unfold copy_files. induction src as [|[k v] src IH]; intros dst H;
    cbn [fold_left fst snd]; [exact H |].
  apply IH. now apply put_NoDup.
Qed.



Lemma find_name_absent l n :
  ~ In n (map name l) -> find (fun c => String.eqb (name c) n) l = None.
Proof.
  induction l as [|c l IH]; cbn [find map In]; [reflexivity |].
  intros H. destruct (String.eqb_spec (name c) n) as [E|E].
  - exfalso. apply H. now left.
  - apply IH. intros Hin. apply H. now right.
Qed.

End StoreFacts.

Module StoreProperties.
Import ModificationDetector SchemaMigration ComponentGenerator ComponentManager
  Server Claims Evolution Scenario Situations DirectoryFacts RegexFacts SchemaFacts
  RegistryFacts ServerFacts EvolutionFacts StoreFacts.



(** X16.  Registering and unregistering are a round trip.  A component
    whose name the registry does not hold is registered at the end of
    the list; unregistering that name then gives back the list of
    components as it was. *)
Theorem register_then_unregister (componentInfo : ComponentInfo) (w : World) :
  ~ In (info_name componentInfo) (component_names w) ->
  let w1 := snd (registerComponent componentInfo w) in
  fst (registerComponent componentInfo w) = Ret true
  /\ (exists t, components (active_json w1)
                = components (active_json w) ++ [registered componentInfo t])
  /\ fst (unregisterComponent (info_name componentInfo) w1) = Ret true
  /\ components
       (active_json (snd (unregisterComponent (info_name componentInfo) w1)))
     = components (active_json w).
Proof.
  intros Hn. destruct w as [on tb lg ac cu bk cl tk pu].
  unfold component_names in Hn. cbn [active_json] in Hn.
  cbv zeta. run_s. rewrite (find_name_absent _ _ Hn). run_s.
  rewrite (@splice_first_snoc (info_name componentInfo) (components ac)
             (registered componentInfo (cl + hd 0 tk)) Hn eq_refl).
  run_s. repeat split. eexists. reflexivity.
Qed.

Lemma register_then_unregister_witness :
  components
    (active_json (snd (unregisterComponent "Water"
                         (snd (registerComponent water_info fresh)))))
  = components (active_json fresh).
Proof.
  refine (proj2 (proj2 (proj2 (@register_then_unregister water_info fresh _)))).
  intros [].
Defined.





(** X19.  A backup restores what it copied.  After [createBackup] into
    a directory that did not exist, of an installation with one file
    per component name, [restoreBackup] of that directory (at any later
    time, as long as the backup is there) answers [true] and puts back
    the tables and the registry document as they were and every
    component file with the code it had.  It deletes no file that was
    created since, and it leaves the migration log as it finds it. *)
Theorem backup_restores_what_it_copied (w w1 w2 : World) (backupDir : string) :
  createBackup w = (Ret backupDir, w1) ->
  lookup backupDir (backups_dir w) = None ->
  NoDup (map fst (custom_dir w)) ->
  lookup backupDir (backups_dir w2) = lookup backupDir (backups_dir w1) ->
  exists w3,
    restoreBackup backupDir w2 = (Ret true, w3)
    /\ db_tables w3 = db_tables w
    /\ active_json w3 = active_json w
    /\ (forall file code, lookup file (custom_dir w) = Some code ->
                          lookup file (custom_dir w3) = Some code)
    /\ (forall file, lookup file (custom_dir w2) <> None ->
                     lookup file (custom_dir w3) <> None)
    /\ migrations_json w3 = migrations_json w2
    /\ backups_dir w3 = backups_dir w2.
Proof.
  intros Hb Hnew Hone Hkept.
  destruct w as [on tb lg ac cu bk cl tk pu].
  cbn [backups_dir custom_dir] in Hnew, Hone.
  revert Hb. run_s. intros [= <- <-]. cbn [backups_dir] in Hkept.
  rewrite Hnew, lookup_put_same in Hkept.
  unfold restoreBackup. rewrite Hkept. eexists. split; [reflexivity |].
  cbn [set_active set_custom set_tables db_tables active_json custom_dir
       migrations_json backups_dir bk_db bk_active bk_components].
  repeat split.
  - intros file code Hf. apply copy_files_source.
    + apply copy_files_NoDup. constructor.
    + now apply copy_files_source.
  - intros file Hf. now apply copy_files_keeps.
Qed.

Lemma backup_restores_what_it_copied_witness :
  exists w3,
    restoreBackup "/mnt/user-data/backups/1003"
      (snd (addMetricTracker prose "water" "metric_input" None
              (snd (createBackup fresh))))
    = (Ret true, w3)
    /\ db_tables w3 = db_tables fresh.
Proof.
  destruct (@backup_restores_what_it_copied fresh (snd (createBackup fresh))
              (snd (addMetricTracker prose "water" "metric_input" None
                      (snd (createBackup fresh))))
              "/mnt/user-data/backups/1003")
    as (w3 & H1 & H2 & _).
  - reflexivity.
  - reflexivity.
  - constructor.
  - vm_compute. reflexivity.
  - exists w3. split; assumption.
Defined.

(** X20.  The snapshot a transaction takes would undo its changes to
    the tables and the registry.  Whatever [addMetricTracker] does,
    success or failure, restoring some backup directory of the world it
    leaves gives back the tables and the registry document the
    transaction started from; the migration log is not part of a
    backup and stays as the transaction left it. *)
Theorem snapshot_would_restore (anthropic : Anthropic)
  (metricName componentType : string) (templateName : option string)
  (w : World) :
  let w1 := snd (addMetricTracker anthropic metricName componentType
                                  templateName w) in
  exists backupDir w2,
    restoreBackup backupDir w1 = (Ret true, w2)
    /\ db_tables w2 = db_tables w
    /\ active_json w2 = active_json w
    /\ migrations_json w2 = migrations_json w1.
Proof.
  cbv zeta.
  destruct (snapshot_taken_first anthropic w) as (H & _ & _).
  destruct (H metricName componentType templateName)
    as (dir & b & Hl & Hdb & Hac).
  exists dir. unfold restoreBackup. rewrite Hl. eexists.
  split; [reflexivity |].
  cbn [set_active set_custom set_tables db_tables active_json migrations_json].
  repeat split; assumption.
Qed.

End StoreProperties.

Module TransactionFacts.
Import ModificationDetector SchemaMigration ComponentGenerator ComponentManager
  Server Claims Evolution Scenario Situations DirectoryFacts Shapes RegexFacts
  SchemaFacts RegistryFacts ServerFacts EvolutionFacts StoreFacts ShapeFacts.


Lemma find_snoc {A : Type} (p : A -> bool) l x :
  find p l = None -> p x = true -> find p (l ++ [x]) = Some x.
Proof.
  induction l as [|a l IH]; cbn [find app]; intros Hn Hx.
  - now rewrite Hx.
  - destruct (p a); [discriminate | now apply IH].
Qed.

End TransactionFacts.

Module TransactionProperties.
Import ModificationDetector SchemaMigration ComponentGenerator ComponentManager
  Server Claims Evolution Scenario Situations DirectoryFacts Shapes Routes RegexFacts
  SchemaFacts RegistryFacts ServerFacts EvolutionFacts StoreFacts ShapeFacts
  TransactionFacts.

(** X21.  Adding a metric whose column exists does nothing but the
    backup: [addMetricTracker] answers the failure [already_exists],
    and the world it leaves is the one [createBackup] leaves (no
    column, no log record, no generation, no file, no registry entry,
    no notification). *)
Theorem existing_metric_is_refused (anthropic : Anthropic)
  (metricName componentType : string) (templateName : option string)
  (w : World) (cols : list Column) :
  validateFieldName (metricToFieldName metricName) = Ret true ->
  db_online w = true ->
  lookup "metrics" (db_tables w) = Some cols ->
  has_column (metricToFieldName metricName) cols = true ->
  addMetricTracker anthropic metricName componentType templateName w
  = (Ret (failure ("Metric " ++ dq ++ metricName ++ dq ++ " already exists")
                  "already_exists"),
     snd (createBackup w)).
Proof.
  intros Hv Hon Hl Hc. destruct w as [on tb lg ac cu bk cl tk pu].
  cbn [db_online db_tables] in Hon, Hl. subst on. unfold has_column in Hc.
  unfold addMetricTracker. run_s.
  rewrite Hv, (inferDataType_valid metricName). run_s.
  rewrite Hl, Hc. run_s. reflexivity.
Qed.

Lemma existing_metric_is_refused_witness :
  addMetricTracker well_formed "steps" "metric_input" None fresh
  = (Ret (failure ("Metric " ++ dq ++ "steps" ++ dq ++ " already exists")
                  "already_exists"),
     snd (createBackup fresh)).
Proof.
  apply (@existing_metric_is_refused well_formed "steps" "metric_input" None
           fresh metrics_columns);
    vm_compute; reflexivity.
Defined.

(** X22.  Removing a metric no component was made for does nothing but
    the backup: when no registered component carries the field,
    [removeMetricTracker] answers the failure [not_found] and leaves
    the world [createBackup] leaves, even if the table has a column of
    that name (as the built-in columns do). *)
Theorem unknown_metric_is_not_found (metricName : string) (w : World) :
  find (field_is (metricToFieldName metricName)) (components (active_json w))
  = None ->
  removeMetricTracker metricName w
  = (Ret (failure ("Metric " ++ dq ++ metricName ++ dq ++ " not found")
                  "not_found"),
     snd (createBackup w)).
Proof.
  intros Hf. destruct w as [on tb lg ac cu bk cl tk pu].
  cbn [active_json] in Hf. unfold removeMetricTracker. run_s.
  rewrite Hf. reflexivity.
Qed.

Lemma unknown_metric_is_not_found_witness :
  removeMetricTracker "steps" fresh
  = (Ret (failure ("Metric " ++ dq ++ "steps" ++ dq ++ " not found")
                  "not_found"),
     snd (createBackup fresh)).
Proof.
  apply (@unknown_metric_is_not_found "steps" fresh). vm_compute. reflexivity.
Defined.

(** X23.  A metric that was added can be removed.  After a successful
    [addMetricTracker] (the component name was free and no registered
    component carried the field), [removeMetricTracker] of the same
    metric succeeds: the registry holds the components it held before
    the addition, the field is no longer an active field, and the
    tables are untouched, so the column and its data stay. *)
Theorem added_metric_can_be_removed (anthropic : Anthropic)
  (metricName componentType : string) (templateName : option string)
  (w w1 : World) (r : ModResult) :
  addMetricTracker anthropic metricName componentType templateName w
  = (Ret r, w1) ->
  success r = true ->
  ~ In (metricToComponentName metricName) (component_names w) ->
  find (field_is (metricToFieldName metricName)) (components (active_json w))
  = None ->
  exists r2 w2,
    removeMetricTracker metricName w1 = (Ret r2, w2)
    /\ success r2 = true
    /\ component r2 = Some (metricToComponentName metricName)
    /\ components (active_json w2) = components (active_json w)
    /\ ~ In (metricToFieldName metricName) (listActiveFields "metrics" w2)
    /\ db_tables w2 = db_tables w1.
Proof.
  intros Hadd Hok Hfree Hnone.
  destruct (addMetricTracker_success _ _ _ _ _ Hadd Hok)
    as (Hv & Hon & (cols & Hl) & _ & (code & Hfile) & Hreg).
  destruct (Hreg Hfree) as (c & Hc & Hname & Hfield). clear Hreg.
  destruct w1 as [on1 tb1 lg1 ac1 cu1 bk1 cl1 tk1 pu1].
  cbn [db_online db_tables active_json custom_dir] in Hon, Hl, Hfile, Hc.
  subst on1.
  assert (Hfind : find (field_is (metricToFieldName metricName))
                       (components ac1) = Some c).
  { rewrite Hc. apply find_snoc; [exact Hnone |].
    unfold field_is. rewrite Hfield. apply String.eqb_refl. }
  assert (Hex : existsb (fun col => String.eqb (col_name col)
                                      (metricToFieldName metricName))
                        (cols ++ [ {| col_name := metricToFieldName metricName;
                                      col_type := inferDataType metricName |} ])
                = true).
  { apply existsb_last. apply String.eqb_refl. }
  assert (Hsp : splice_first (metricToComponentName metricName)
                             (components ac1)
                = Some (components (active_json w))).
  { rewrite Hc. apply splice_first_snoc; assumption. }
  unfold removeMetricTracker. run_s. rewrite Hfind. run_s.
  rewrite Hv. run_s. rewrite Hl, Hex. cbn [negb]. run_s.
  rewrite Hname, Hfile. run_s. rewrite Hsp. run_s.
  eexists. eexists. split; [reflexivity |].
  cbn [success component active_json components db_tables].
  repeat split.
  apply soft_deleted_hidden. eexists. split.
  - cbn [migrations_json migrations]. apply in_or_app. right. now left.
  - repeat split.
Qed.

Lemma added_metric_can_be_removed_witness :
  exists r2 w2,
    removeMetricTracker "water"
      (snd (addMetricTracker well_formed "water" "metric_input" None fresh))
    = (Ret r2, w2)
    /\ success r2 = true.
Proof.
  destruct (@added_metric_can_be_removed well_formed "water" "metric_input"
              None fresh
              (snd (addMetricTracker well_formed "water" "metric_input" None fresh))
              {| success := true; message := "Added water tracker to Dashboard";
          reason := None; component := Some "Water"%string;
          res_field := Some "water"%string;
          backup := Some "/mnt/user-data/backups/1003"%string;
          res_type := None; res_note := None |}
              ltac:(vm_compute; reflexivity) eq_refl
              ltac:(vm_compute; intros H; exact H)
              ltac:(vm_compute; reflexivity))
    as (r2 & w2 & H1 & H2 & _).
  exists r2, w2. split; assumption.
Defined.

(** X24.  What undo cannot reverse.  With an empty log and an empty
    registry undo answers [nothing_to_undo]; when the last record of
    the log is a soft deletion that is not older than the last
    registered component, undo answers [undo_failed]: a removal cannot
    be undone.  In both cases nothing is changed. *)
Theorem undo_cannot_reverse (w : World) :
  (migrations (migrations_json w) = [] ->
   components (active_json w) = [] ->
   undoLastModification w
   = (Ret (failure "No modifications to undo" "nothing_to_undo"), w))
  /\ (forall migs mg,
         migrations (migrations_json w) = migs ++ [mg] ->
         mig_type mg = soft_delete_field ->
         componentTime w <= migrationTime w ->
         undoLastModification w
         = (Ret (failure "Could not undo last modification" "undo_failed"), w)).
Proof.
  unfold migrationTime, componentTime, undoLastModification. run_top. split.
  - intros -> ->. reflexivity.
  - intros migs mg Hm Ht Hle. rewrite Hm in *. rewrite last_snoc in *.
    apply Nat.ltb_ge in Hle. rewrite Hle, Ht.
    destruct (migs ++ [mg]) eqn:E; [now destruct migs |].
    reflexivity.
Qed.

Lemma undo_cannot_reverse_witness :
  undoLastModification fresh
  = (Ret (failure "No modifications to undo" "nothing_to_undo"), fresh).
Proof. apply (proj1 (undo_cannot_reverse fresh)); reflexivity. Defined.

(** X25.  Two undos reverse an addition.  After a successful
    [addMetricTracker] whose component was registered later than its
    migration was logged, and later than every older component, the
    first undo removes the component and the second soft-deletes the
    field: the registry holds the components it held before, the field
    is not active, and the tables keep the column. *)
Theorem two_undos_reverse_an_addition (anthropic : Anthropic)
  (metricName componentType : string) (templateName : option string)
  (w w1 : World) (r : ModResult) :
  addMetricTracker anthropic metricName componentType templateName w
  = (Ret r, w1) ->
  success r = true ->
  ~ In (metricToComponentName metricName) (component_names w) ->
  migrationTime w1 < componentTime w1 ->
  componentTime w <= migrationTime w1 ->
  let w3 := snd (undoLastModification (snd (undoLastModification w1))) in
  components (active_json w3) = components (active_json w)
  /\ ~ In (metricToFieldName metricName) (listActiveFields "metrics" w3)
  /\ db_tables w3 = db_tables w1.
Proof.
  intros Hadd Hok Hfree Hnewer Holder.
  destruct (addMetricTracker_success _ _ _ _ _ Hadd Hok)
    as (Hv & Hon & (cols & Hl) & (mg & Hm & Hty & Htab & Hfld)
        & (code & Hfile) & Hreg).
  destruct (Hreg Hfree) as (c & Hc & Hname & Hfield). clear Hreg.
  rewrite <- Hname in Hfile, Hfree.
  destruct (@undo_component_newer w1 (components (active_json w)) c code
              Hc Hfree Hfile Hnewer)
    as (Hc2 & Hm2 & Hon2 & Htb2).
  set (w2 := snd (undoLastModification w1)) in *.
  assert (Hmt : migrationTime w2 = migrationTime w1)
    by (unfold migrationTime; now rewrite Hm2).
  assert (Hct : componentTime w2 = componentTime w)
    by (unfold componentTime; now rewrite Hc2).
  destruct (@undo_migration_not_older w2
              (migrations (migrations_json w)) mg
              (cols ++ [ {| col_name := metricToFieldName metricName;
                            col_type := inferDataType metricName |} ]))
    as (Ha3 & _ & Htb3 & Hhid).
  - now rewrite Hm2.
  - exact Hty.
  - now rewrite Hmt, Hct.
  - now rewrite Hfld.
  - now rewrite Hon2.
  - now rewrite Htab, Htb2.
  - rewrite Hfld. unfold has_column. apply existsb_last. apply String.eqb_refl.
  - cbv zeta. rewrite Ha3, Hc2, Htb3, Htb2. repeat split.
    rewrite Hfld, Htab in Hhid. exact Hhid.
Qed.

Lemma two_undos_reverse_an_addition_witness :
  components
    (active_json
       (snd (undoLastModification
               (snd (undoLastModification
                       (snd (addMetricTracker well_formed "water"
                               "metric_input" None fresh)))))))
  = components (active_json fresh).
Proof.
  exact (proj1 (@two_undos_reverse_an_addition well_formed "water"
                   "metric_input" None fresh
                   (snd (addMetricTracker well_formed "water" "metric_input" None fresh))
                   {| success := true; message := "Added water tracker to Dashboard";
          reason := None; component := Some "Water"%string;
          res_field := Some "water"%string;
          backup := Some "/mnt/user-data/backups/1003"%string;
          res_type := None; res_note := None |}
                   ltac:(vm_compute; reflexivity) eq_refl
                   ltac:(vm_compute; intros H; exact H)
                   ltac:(vm_compute; lia)
                   ltac:(vm_compute; lia))).
Defined.

(** X26.  [removeMetricTracker] reports success whatever the two steps
    answer.  Once a registered component carries the field and the
    field name is well formed, the transaction resolves to a success
    naming that component; the answers of [removeField] and
    [deleteComponent] are not looked at.  In particular, when the file
    of the component is missing, the field is hidden but the component
    stays in the registry. *)
Theorem removal_reports_success (metricName : string) (w : World)
  (c : Component) :
  find (field_is (metricToFieldName metricName)) (components (active_json w))
  = Some c ->
  validateFieldName (metricToFieldName metricName) = Ret true ->
  (exists r w1,
      removeMetricTracker metricName w = (Ret r, w1)
      /\ success r = true /\ component r = Some (name c))
  /\ (lookup (filename (name c)) (custom_dir w) = None ->
      fst (fieldExists "metrics" (metricToFieldName metricName) w) = Ret true ->
      active_json (snd (removeMetricTracker metricName w)) = active_json w
      /\ ~ In (metricToFieldName metricName)
              (listActiveFields "metrics"
                 (snd (removeMetricTracker metricName w)))).
Proof.
  intros Hf Hv. destruct w as [on tb lg ac cu bk cl tk pu].
  cbn [active_json custom_dir] in *. split.
  - unfold removeMetricTracker. run_s. rewrite Hf. run_s. rewrite Hv. run_s.
    match goal with |- context [negb ?b] => destruct b end; cbn [negb]; run_s;
      (destruct (lookup (filename (name c)) cu); run_s;
       [destruct (splice_first (name c) (components ac)); run_s |]);
      eexists; eexists; (split; [reflexivity |]); split; reflexivity.
  - intros Hfile Hex. revert Hex. unfold removeMetricTracker. run_s.
    destruct on; run_s; [| discriminate].
    intros [= Hex]. rewrite Hf. run_s. rewrite Hv. run_s.
    rewrite Hex. cbn [negb]. run_s. rewrite Hfile. run_s.
    split; [reflexivity |].
    apply soft_deleted_hidden. eexists. split.
    + cbn [migrations_json migrations]. apply in_or_app. right. now left.
    + repeat split.
Qed.

Lemma removal_reports_success_witness :
  exists c r w1,
    removeMetricTracker "water"
      (snd (addMetricTracker well_formed "water" "metric_input" None fresh))
    = (Ret r, w1)
    /\ success r = true /\ component r = Some (name c).
Proof.
  destruct (find (field_is (metricToFieldName "water"))
              (components
                 (active_json
                    (snd (addMetricTracker well_formed "water" "metric_input" None fresh)))))
    as [c|] eqn:E; [| vm_compute in E; discriminate E].
  destruct (proj1 (@removal_reports_success "water"
                     (snd (addMetricTracker well_formed "water" "metric_input" None fresh))
                     c E ltac:(vm_compute; reflexivity)))
    as (r & w1 & H).
  exists c, r, w1. exact H.
Defined.



End TransactionProperties.
